(** * Training progress, quiz scoring, certificates and the access check
      of the LMS backend

    Shallow embedding of
      - src/models/TrainingProgress.js  (canTakeQuiz, addQuizAttempt,
        updateVideoProgress),
      - src/models/Training.js          (hasVideoContent, the schema),
      - the Certificate model           (schema and unique index),
      - the employee routes of the training router in src/routes/files.js
        (GET /:id, PUT /:id/progress, POST /:id/quiz/submit,
         PUT /:id/video-progress, POST /:id/certificate), its
        POST /:id/start and DELETE /:id, and the audience check of the
        training-materials router in src/routes/analytics.js,
      - the other methods of the models (getVideoSourceType; the
        Certificate virtual isCurrentlyValid, recordDownload, invalidate
        and the queries of findUserCertificates and
        findTrainingCertificates),
      - the files router in src/routes/files.js (POST /upload,
        DELETE /:id, GET /:id/view, POST /:id/acknowledge and the two
        acknowledgment listings) over its in-memory arrays,
      - uploadLargeFile of the OneDrive service and mapRole of the
        directory service, both in src/models/Training.js.

    Conventions of the embedding.
      - A JavaScript Number is a binary64 value: Rocq's primitive [float],
        whose arithmetic and comparisons are those of IEEE 754 that
        JavaScript uses (round to nearest, ties to even; NaN compares
        false; the two zeros compare equal).
      - [new Date()] reads a clock that every handler receives as [now].
      - A collection with a unique compound index is a finite map keyed by
        the indexed pair; the certificate collection is a list of
        documents so that duplicates are expressible.
      - A handler is a function from the request and the stores to a
        response and the new stores.  A JavaScript exception inside
        [try { ... } catch] is the 500 response, with the stores as they
        were at the last completed [save()].
      - Of Mongoose, the embedding has what decides the outcome of a
        handler: the defaults that the schema gives a new document (a
        Training document always has the nested object [quiz]), and the
        casts and validators of the paths that a handler assigns before
        [save()] (a Number path refuses NaN, [progress] has min 0 and
        max 100, a Boolean path casts or refuses its value, the array
        path [quizAttempts] refuses a string).  A refused [save()] throws
        and writes nothing.
      - The handlers are modelled behind their middleware: the request
        is authenticated and has passed the role check of the route. *)

From Stdlib Require Import ZArith Floats Lia List.
From stdpp Require Import gmap strings pretty.

Local Open Scope string_scope.

(** ** JavaScript numbers *)

Module JS.

(** The Number nearest to an integer (exact below 2^53). *)
Definition of_Z (z : Z) : float :=
  SF2Prim (binary_normalize prec emax z 0 false).
Definition of_nat (n : nat) : float := of_Z (Z.of_nat n).

(** [a < b], [a > b], [a >= b] and [a === b] on Numbers. *)
Definition lt (a b : float) : bool := (a <? b)%float.
Definition gt (a b : float) : bool := (b <? a)%float.
Definition ge (a b : float) : bool := (b <=? a)%float.
Definition strict_eq (a b : float) : bool := (a =? b)%float.

Definition is_negative_zero (a : float) : bool := is_zero a && get_sign a.

(** [Math.max] and [Math.min] of two Numbers: NaN when either is NaN, and
    -0 counts as smaller than +0. *)
Definition Math_max (a b : float) : float :=
  if is_nan a || is_nan b then nan
  else if (a <? b)%float then b
  else if (b <? a)%float then a
  else if is_negative_zero a then b else a.

Definition Math_min (a b : float) : float :=
  if is_nan a || is_nan b then nan
  else if (a <? b)%float then a
  else if (b <? a)%float then b
  else if is_negative_zero a then a else b.

(** The integer [(-1)^s * m], the signed mantissa of a finite Number
    [(-1)^s * m * 2^e]. *)
Definition signed (s : bool) (m : positive) : Z :=
  if s then Z.neg m else Z.pos m.

(** [Math.floor]: the largest integer not above the argument; zeros,
    infinities and NaN are returned as they are. *)
Definition Math_floor (x : float) : float :=
  match Prim2SF x with
  | S754_finite s m e => of_Z (Z.shiftl (signed s m) e)
  | _ => x
  end.

(** [Math.round]: the nearest integer, a tie going towards +Infinity; an
    argument in [-0.5, 0) gives -0. *)
Definition Math_round (x : float) : float :=
  match Prim2SF x with
  | S754_finite s m e =>
      if (0 <=? e)%Z then x
      else
        let z := Z.shiftr (signed s m + Z.shiftl 1 (- e - 1)) (- e) in
        if (z =? 0)%Z then (if s then neg_zero else zero) else of_Z z
  | _ => x
  end.

(** ToBoolean on a Number: the zeros and NaN are falsy. *)
Definition truthy (a : float) : bool := negb (is_nan a || is_zero a).

(** [a || d] on Numbers. *)
Definition or_else (a d : float) : float := if truthy a then a else d.

(** The values of a request body that the handlers compare with Numbers. *)
Inductive jsval : Type :=
| VUndefined
| VNumber (n : float)
| VOther.

(** [arr[i]]: an index past the end reads [undefined]. *)
Definition index (arr : list jsval) (i : nat) : jsval :=
  match arr !! i with
  | Some v => v
  | None => VUndefined
  end.

(** [v === n] for a Number [n]. *)
Definition strict_eq_val (v : jsval) (n : float) : bool :=
  match v with
  | VNumber m => strict_eq m n
  | _ => false
  end.

(** [a <= b] as a proposition. *)
Definition le (a b : float) : Prop := (a <=? b)%float = true.

(** The order of two binary64 values that are not NaN, on their
    decompositions. *)
Definition SFle (x y : spec_float) : Prop :=
  match SFcompare x y with
  | Some Lt | Some Eq => True
  | _ => False
  end.

(** The integer that a Number is, if it is one. *)
Definition integer_value (x : float) : option Z :=
  match Prim2SF x with
  | S754_zero _ => Some 0%Z
  | S754_finite s m e =>
      if (0 <=? e)%Z then Some (Z.shiftl (signed s m) e)
      else if (Z.land (Z.pos m) (Z.ones (- e)) =? 0)%Z
           then Some (Z.shiftl (signed s m) e)
           else None
  | _ => None
  end.

End JS.

(** ** Documents *)

(** [status] of a progress document: the schema's enum. *)
Inductive Status : Type :=
| not_started
| in_progress
| completed
| failed.

#[global] Instance Status_eq_dec : EqDecision Status.
Proof. solve_decision. Defined.

(** One entry of [quizAttempts[i].answers]. *)
Record AnswerEntry : Type := {
  questionIndex : float;
  selectedAnswer : float;
  isCorrect : bool
}.

(** One entry of [quizAttempts]. *)
Record QuizAttempt : Type := {
  attemptNumber : nat;
  answers : list AnswerEntry;
  score : float;
  passed : bool;
  timeSpent : float;
  submittedAt : Z
}.

(** The value that a handler holds for the [quizAttempts] property of a
    progress document.  The schema declares an array of attempts; the
    quiz route assigns [(quizAttempts || 0) + 1] to it, which for an array
    is string concatenation.  [AttemptText p] is the JavaScript string [p]
    followed by the character 1 (never empty, hence truthy); the array
    path does not take it, see [attempts_accepted]. *)
Inductive attempts_val : Type :=
| AttemptList (l : list QuizAttempt)
| AttemptText (prefix : string).

(** A document of the TrainingProgress collection. *)
Record TrainingProgress : Type := {
  userId : string;
  trainingId : string;
  status : Status;
  progress : float;
  videoWatchTime : float;
  videoCompleted : bool;
  quizAttempts : attempts_val;
  bestScore : float;
  quizPassed : bool;
  certificateGenerated : bool;
  certificateUrl : option string;
  startedAt : option Z;
  completedAt : option Z;
  lastAccessedAt : Z
}.

Definition set_status (v : Status) (r : TrainingProgress) :=
  {| userId := userId r; trainingId := trainingId r; status := v;
     progress := progress r; videoWatchTime := videoWatchTime r;
     videoCompleted := videoCompleted r; quizAttempts := quizAttempts r;
     bestScore := bestScore r; quizPassed := quizPassed r;
     certificateGenerated := certificateGenerated r;
     certificateUrl := certificateUrl r; startedAt := startedAt r;
     completedAt := completedAt r; lastAccessedAt := lastAccessedAt r |}.

Definition set_progress (v : float) (r : TrainingProgress) :=
  {| userId := userId r; trainingId := trainingId r; status := status r;
     progress := v; videoWatchTime := videoWatchTime r;
     videoCompleted := videoCompleted r; quizAttempts := quizAttempts r;
     bestScore := bestScore r; quizPassed := quizPassed r;
     certificateGenerated := certificateGenerated r;
     certificateUrl := certificateUrl r; startedAt := startedAt r;
     completedAt := completedAt r; lastAccessedAt := lastAccessedAt r |}.

Definition set_videoWatchTime (v : float) (r : TrainingProgress) :=
  {| userId := userId r; trainingId := trainingId r; status := status r;
     progress := progress r; videoWatchTime := v;
     videoCompleted := videoCompleted r; quizAttempts := quizAttempts r;
     bestScore := bestScore r; quizPassed := quizPassed r;
     certificateGenerated := certificateGenerated r;
     certificateUrl := certificateUrl r; startedAt := startedAt r;
     completedAt := completedAt r; lastAccessedAt := lastAccessedAt r |}.

Definition set_videoCompleted (v : bool) (r : TrainingProgress) :=
  {| userId := userId r; trainingId := trainingId r; status := status r;
     progress := progress r; videoWatchTime := videoWatchTime r;
     videoCompleted := v; quizAttempts := quizAttempts r;
     bestScore := bestScore r; quizPassed := quizPassed r;
     certificateGenerated := certificateGenerated r;
     certificateUrl := certificateUrl r; startedAt := startedAt r;
     completedAt := completedAt r; lastAccessedAt := lastAccessedAt r |}.

Definition set_quizAttempts (v : attempts_val) (r : TrainingProgress) :=
  {| userId := userId r; trainingId := trainingId r; status := status r;
     progress := progress r; videoWatchTime := videoWatchTime r;
     videoCompleted := videoCompleted r; quizAttempts := v;
     bestScore := bestScore r; quizPassed := quizPassed r;
     certificateGenerated := certificateGenerated r;
     certificateUrl := certificateUrl r; startedAt := startedAt r;
     completedAt := completedAt r; lastAccessedAt := lastAccessedAt r |}.

Definition set_bestScore (v : float) (r : TrainingProgress) :=
  {| userId := userId r; trainingId := trainingId r; status := status r;
     progress := progress r; videoWatchTime := videoWatchTime r;
     videoCompleted := videoCompleted r; quizAttempts := quizAttempts r;
     bestScore := v; quizPassed := quizPassed r;
     certificateGenerated := certificateGenerated r;
     certificateUrl := certificateUrl r; startedAt := startedAt r;
     completedAt := completedAt r; lastAccessedAt := lastAccessedAt r |}.

Definition set_quizPassed (v : bool) (r : TrainingProgress) :=
  {| userId := userId r; trainingId := trainingId r; status := status r;
     progress := progress r; videoWatchTime := videoWatchTime r;
     videoCompleted := videoCompleted r; quizAttempts := quizAttempts r;
     bestScore := bestScore r; quizPassed := v;
     certificateGenerated := certificateGenerated r;
     certificateUrl := certificateUrl r; startedAt := startedAt r;
     completedAt := completedAt r; lastAccessedAt := lastAccessedAt r |}.

Definition set_certificate (url : string) (r : TrainingProgress) :=
  {| userId := userId r; trainingId := trainingId r; status := status r;
     progress := progress r; videoWatchTime := videoWatchTime r;
     videoCompleted := videoCompleted r; quizAttempts := quizAttempts r;
     bestScore := bestScore r; quizPassed := quizPassed r;
     certificateGenerated := true;
     certificateUrl := Some url; startedAt := startedAt r;
     completedAt := completedAt r; lastAccessedAt := lastAccessedAt r |}.

Definition set_startedAt (v : Z) (r : TrainingProgress) :=
  {| userId := userId r; trainingId := trainingId r; status := status r;
     progress := progress r; videoWatchTime := videoWatchTime r;
     videoCompleted := videoCompleted r; quizAttempts := quizAttempts r;
     bestScore := bestScore r; quizPassed := quizPassed r;
     certificateGenerated := certificateGenerated r;
     certificateUrl := certificateUrl r; startedAt := Some v;
     completedAt := completedAt r; lastAccessedAt := lastAccessedAt r |}.

Definition set_completedAt (v : Z) (r : TrainingProgress) :=
  {| userId := userId r; trainingId := trainingId r; status := status r;
     progress := progress r; videoWatchTime := videoWatchTime r;
     videoCompleted := videoCompleted r; quizAttempts := quizAttempts r;
     bestScore := bestScore r; quizPassed := quizPassed r;
     certificateGenerated := certificateGenerated r;
     certificateUrl := certificateUrl r; startedAt := startedAt r;
     completedAt := Some v; lastAccessedAt := lastAccessedAt r |}.

Definition set_lastAccessedAt (v : Z) (r : TrainingProgress) :=
  {| userId := userId r; trainingId := trainingId r; status := status r;
     progress := progress r; videoWatchTime := videoWatchTime r;
     videoCompleted := videoCompleted r; quizAttempts := quizAttempts r;
     bestScore := bestScore r; quizPassed := quizPassed r;
     certificateGenerated := certificateGenerated r;
     certificateUrl := certificateUrl r; startedAt := startedAt r;
     completedAt := completedAt r; lastAccessedAt := v |}.

(** [new TrainingProgress({ userId, trainingId, status: 'in_progress',
    progress: 0, startedAt: new Date() })] with the schema's defaults. *)
Definition new_progress (now : Z) (uid tid : string) : TrainingProgress :=
  {| userId := uid; trainingId := tid; status := in_progress;
     progress := 0%float; videoWatchTime := 0%float;
     videoCompleted := false; quizAttempts := AttemptList [];
     bestScore := 0%float; quizPassed := false;
     certificateGenerated := false; certificateUrl := None;
     startedAt := Some now; completedAt := None; lastAccessedAt := now |}.

(** One question of [quiz.questions]. *)
Record Question : Type := {
  question : string;
  options : list string;
  correctAnswer : float
}.

Record Quiz : Type := {
  questions : list Question;
  passingScore : float;
  allowRetakes : bool;
  maxAttempts : option float
}.

Record Content : Type := {
  videoUrl : option string;
  youtubeUrl : option string
}.

(** A document of the Training collection.  [departments] and [roles] are
    the properties of those names that the router reads; the schema
    declares [specificDepartments] and [specificRoles] and no path called
    [departments] or [roles], so on a document built by the model both
    reads give [undefined] ([None] here).  [quiz] is a nested path of the
    schema: a document of the model always holds the object, with the
    schema's defaults and no question when it was created without a quiz
    ([default_quiz] below); [None] is an object without the property,
    which a caller of [canTakeQuiz] may pass. *)
Record Training : Type := {
  title : string;
  category : string;
  duration : float;
  content : Content;
  quiz : option Quiz;
  targetAudience : string;
  specificDepartments : list string;
  specificRoles : list string;
  departments : option (list string);
  roles : option (list string)
}.

(** A Training document as the model yields it: only the paths of the
    schema are populated. *)
Definition of_schema (t : Training) : Prop :=
  departments t = None ∧ roles t = None.

(** [req.user]. *)
Record User : Type := {
  user_id : string;
  username : string;
  department : string;
  role : string
}.

(** A document of the Certificate collection. *)
Record Certificate : Type := {
  cert_oid : string;
  cert_userId : string;
  cert_trainingId : string;
  certificateId : string;
  userName : string;
  trainingTitle : string;
  completionDate : option Z;
  cert_score : float;
  cert_passingScore : float;
  cert_duration : float;
  cert_category : string;
  issuedBy : string;
  isValid : bool;
  downloadCount : nat
}.

(** The three collections. *)
Abbreviation ProgressStore := (gmap (string * string) TrainingProgress).
Abbreviation TrainingStore := (gmap string Training).
Abbreviation CertificateStore := (list Certificate).

(** What a handler sends: [res.json(body)] or
    [res.status(code).json({ message })]. *)
Inductive Response (A : Type) : Type :=
| Ok (body : A)
| Failure (code : nat) (message : string).
Arguments Ok {A} body.
Arguments Failure {A} code message.

(** ** What the paths of a progress document accept

    The checks that [save()] runs on the paths a handler has assigned. *)

(** A Number path ([videoWatchTime]): the cast refuses NaN. *)
Definition Number_cast (v : float) : bool := negb (is_nan v).

(** The path [progress]: a Number with [min: 0] and [max: 100]. *)
Definition progress_valid (v : float) : bool :=
  Number_cast v && JS.ge v 0%float && JS.ge 100%float v.

(** The path [bestScore]: a Number with [min: 0] and [max: 100]. *)
Definition bestScore_valid (v : float) : bool :=
  Number_cast v && JS.ge v 0%float && JS.ge 100%float v.

(** The array path [quizAttempts]: a string is not cast to an array of
    attempt subdocuments. *)
Definition attempts_accepted (v : attempts_val) : bool :=
  match v with
  | AttemptList _ => true
  | AttemptText _ => false
  end.

(** A value of the request body at a key: absent (or null), a boolean, a
    Number, a string, or an object or array. *)
Inductive body_val : Type :=
| BAbsent
| BBool (b : bool)
| BNumber (n : float)
| BText (s : string)
| BObject.

Coercion BBool : bool >-> body_val.

(** ToBoolean of a body value. *)
Definition body_truthy (v : body_val) : bool :=
  match v with
  | BAbsent => false
  | BBool b => b
  | BNumber n => JS.truthy n
  | BText s => negb (String.eqb s "")
  | BObject => true
  end.

(** The Boolean path [videoCompleted] given [completed || false]: a falsy
    [completed] gives [false]; a truthy one is cast, [true], 1, 'true',
    '1' and 'yes' to true, 'false', '0' and 'no' to false, and every other
    value is refused ([None]). *)
Definition videoCompleted_cast (v : body_val) : option bool :=
  if negb (body_truthy v) then Some false
  else
    match v with
    | BBool _ => Some true
    | BNumber n => if JS.strict_eq n 1%float then Some true else None
    | BText s =>
        if bool_decide (s ∈ ["true"; "1"; "yes"]) then Some true
        else if bool_decide (s ∈ ["false"; "0"; "no"]) then Some false
        else None
    | _ => None
    end.

(** [await doc.save()] and the response that follows it.  When a value
    assigned to the document is refused, [save()] throws, nothing is
    written and the [catch] block of the handler answers 500. *)
Definition save_and_answer (accepted : bool) (key : string * string)
    (r : TrainingProgress) (P : ProgressStore)
    : Response TrainingProgress * ProgressStore :=
  if accepted then (Ok r, <[key := r]> P)
  else (Failure 500 "Server error", P).

(** ** Model methods *)

(** ToBoolean on an optional string property: absent and empty are falsy. *)
Definition string_truthy (s : option string) : bool :=
  match s with
  | Some v => negb (String.eqb v "")
  | None => false
  end.

(** Training.js, [hasVideoContent]. *)
Definition hasVideoContent (t : Training) : bool :=
  string_truthy (videoUrl (content t)) || string_truthy (youtubeUrl (content t)).

(** [this.quizAttempts ? this.quizAttempts.length : 0]; an array and a
    non-empty string are both truthy and both have a length. *)
Definition attemptCount (r : TrainingProgress) : nat :=
  match quizAttempts r with
  | AttemptList l => length l
  | AttemptText p => String.length p + 1
  end.

(** [training.quiz.maxAttempts || 3]. *)
Definition attemptLimit (q : Quiz) : float :=
  match maxAttempts q with
  | Some m => JS.or_else m 3%float
  | None => 3%float
  end.

(** TrainingProgress.js, [canTakeQuiz]. *)
Definition canTakeQuiz (r : TrainingProgress) (training : option Training) : bool :=
  match training with
  | None => false
  | Some t =>
      match quiz t with
      | None => false
      | Some q =>
          if hasVideoContent t && negb (videoCompleted r) then false
          else if quizPassed r then allowRetakes q
          else JS.lt (JS.of_nat (attemptCount r)) (attemptLimit q)
      end
  end.

(** TrainingProgress.js, [addQuizAttempt]; the result is the document that
    [this.save()] writes.  [None] is the TypeError of [push] on a value
    that is not an array. *)
Definition addQuizAttempt (now : Z) (r : TrainingProgress)
    (ans : list AnswerEntry) (sc : float) (pass : bool) (spent : float)
    : option TrainingProgress :=
  match quizAttempts r with
  | AttemptText _ => None
  | AttemptList l =>
      let entry :=
        {| attemptNumber := length l + 1; answers := ans; score := sc;
           passed := pass; timeSpent := spent; submittedAt := now |} in
      let r1 := set_quizAttempts (AttemptList (l ++ [entry])) r in
      let r2 := if JS.gt sc (bestScore r1) then set_bestScore sc r1 else r1 in
      Some (if pass
            then set_completedAt now
                   (set_progress 100%float
                      (set_status completed (set_quizPassed true r2)))
            else r2)
  end.

(** TrainingProgress.js, [updateVideoProgress]. *)
Definition updateVideoProgress (now : Z) (r : TrainingProgress)
    (watchTime totalDuration : float) : TrainingProgress :=
  let r1 := set_videoWatchTime (JS.Math_max (videoWatchTime r) watchTime) r in
  let watchPercentage := (watchTime / totalDuration * 100)%float in
  let r2 :=
    if JS.ge watchPercentage 90%float
    then set_progress (JS.Math_max (progress r1) 50%float)
           (set_videoCompleted true r1)
    else set_progress
           (JS.Math_max (progress r1)
              (JS.Math_floor (watchPercentage * 0.5)%float))
           r1 in
  let r3 := set_lastAccessedAt now r2 in
  if decide (status r3 = not_started)
  then set_startedAt now (set_status in_progress r3)
  else r3.

(** ** Routes of the training router *)

(** GET /:id, the access check.  [None] is the TypeError of calling
    [includes] on [undefined]; [||] evaluates left to right and stops at
    the first truthy operand. *)
Definition hasAccess (t : Training) (u : User) : option bool :=
  if String.eqb (targetAudience t) "all" then Some true
  else
    match departments t with
    | None => None
    | Some ds =>
        if bool_decide (department u ∈ ds) then Some true
        else
          match roles t with
          | None => None
          | Some rs => Some (bool_decide (role u ∈ rs))
          end
    end.

(** GET /:id. *)
Definition get_training (u : User) (tid : string)
    (T : TrainingStore) (P : ProgressStore)
    : Response (Training * option TrainingProgress) :=
  match T !! tid with
  | None => Failure 404 "Training not found"
  | Some t =>
      match hasAccess t u with
      | None => Failure 500 "Server error"
      | Some false => Failure 403 "Access denied to this training"
      | Some true => Ok (t, P !! (user_id u, tid))
      end
  end.

(** The audience check of the training-materials router (GET /:id and
    GET /file/:trainingId/:filename), which guards both reads with
    [Array.isArray]. *)
Definition isAudience (t : Training) (u : User) : bool :=
  String.eqb (targetAudience t) "all"
  || match departments t with
     | Some ds => bool_decide (department u ∈ ds)
     | None => false
     end
  || match roles t with
     | Some rs => bool_decide (role u ∈ rs)
     | None => false
     end.

(** PUT /:id/progress.  The clamped value is NaN when the input is, and
    then the path [progress] refuses it. *)
Definition put_progress (now : Z) (uid tid : string) (p : float)
    (P : ProgressStore) : Response TrainingProgress * ProgressStore :=
  match P !! (uid, tid) with
  | None => (Failure 404 "Training progress not found", P)
  | Some r =>
      let r1 :=
        set_lastAccessedAt now
          (set_progress (JS.Math_min 100%float (JS.Math_max 0%float p)) r) in
      let r2 :=
        if JS.strict_eq (progress r1) 100%float
        then set_completedAt now (set_status completed r1)
        else r1 in
      save_and_answer (progress_valid (progress r1)) (uid, tid) r2 P
  end.

(** POST /:id/quiz/submit, the [forEach] over the questions:
    [correctAnswers] is incremented when [answers[index]] is strictly
    equal to the question's [correctAnswer]. *)
Fixpoint count_correct (qs : list Question) (index : nat)
    (given : list JS.jsval) (correctAnswers : nat) : nat :=
  match qs with
  | [] => correctAnswers
  | q :: rest =>
      count_correct rest (S index) given
        (if JS.strict_eq_val (JS.index given index) (correctAnswer q)
         then S correctAnswers else correctAnswers)
  end.

(** [Math.round((correctAnswers / questions.length) * 100)]. *)
Definition quiz_score (correctAnswers total : nat) : float :=
  JS.Math_round (JS.of_nat correctAnswers / JS.of_nat total * 100)%float.

Record QuizResult : Type := {
  res_score : float;
  res_passed : bool;
  res_passingScore : float;
  res_message : string
}.

Section QuizRoute.

(** [String(a)] of an array of attempt subdocuments; how a subdocument
    prints is the library's business. *)
Variable array_toString : list QuizAttempt → string.

(** [(trainingProgress.quizAttempts || 0) + 1]: the operand is an array or
    a non-empty string, so [||] keeps it and [+] concatenates. *)
Definition attempts_plus_one (v : attempts_val) : attempts_val :=
  match v with
  | AttemptList l => AttemptText (array_toString l)
  | AttemptText p => AttemptText (p ++ "1")
  end.

(** POST /:id/quiz/submit; [given] is the array [req.body.answers].  The
    assignments to [currentScore] and [lastQuizAt] target paths that the
    schema does not have and leave the document's fields as they are.
    When the pair has a progress record, the handler assigns to
    [bestScore] and [quizAttempts] and saves; the response with the score
    is sent after the save, so a refused save turns it into the 500
    response. *)
Definition quiz_submit (now : Z) (uid tid : string) (given : list JS.jsval)
    (T : TrainingStore) (P : ProgressStore)
    : Response QuizResult * ProgressStore :=
  match T !! tid with
  | None => (Failure 404 "Training or quiz not found", P)
  | Some t =>
      match quiz t with
      | None => (Failure 404 "Training or quiz not found", P)
      | Some q =>
          let correctAnswers := count_correct (questions q) 0 given 0 in
          let sc := quiz_score correctAnswers (length (questions q)) in
          let pass := JS.ge sc (passingScore q) in
          let result :=
            {| res_score := sc; res_passed := pass;
               res_passingScore := passingScore q;
               res_message :=
                 if pass then "Quiz passed successfully!"
                 else "Quiz failed. Please review the material and try again." |} in
          match P !! (uid, tid) with
          | None => (Ok result, P)
          | Some r =>
              let r1 :=
                set_quizAttempts (attempts_plus_one (quizAttempts r))
                  (set_bestScore
                     (JS.Math_max (JS.or_else (bestScore r) 0%float) sc) r) in
              let r2 :=
                if pass
                then set_progress 100%float
                       (set_completedAt now (set_status completed r1))
                else r1 in
              if bestScore_valid (bestScore r1)
                 && attempts_accepted (quizAttempts r1)
              then (Ok result, <[(uid, tid) := r2]> P)
              else (Failure 500 "Server error", P)
          end
      end
  end.

End QuizRoute.

(** [!training.quiz || !training.quiz.questions ||
     training.quiz.questions.length === 0]. *)
Definition no_quiz (t : Training) : bool :=
  match quiz t with
  | None => true
  | Some q => Nat.eqb (length (questions q)) 0
  end.

(** PUT /:id/video-progress; [watchTime] and [totalDuration] are Numbers
    and [completed_flag] is the value of [req.body.completed] (a boolean
    of the body is read as such).  [if (completed)] tests its truthiness,
    while the path [videoCompleted] casts [completed || false].  With the
    flag and a training that is not found, [training.quiz] throws before
    the save. *)
Definition video_progress (now : Z) (uid tid : string)
    (watchTime totalDuration : float) (completed_flag : body_val)
    (T : TrainingStore) (P : ProgressStore)
    : Response TrainingProgress * ProgressStore :=
  let r0 :=
    match P !! (uid, tid) with
    | Some r => r
    | None => new_progress now uid tid
    end in
  let flag := videoCompleted_cast completed_flag in
  let r1 :=
    set_lastAccessedAt now
      (set_videoCompleted (default false flag)
         (set_videoWatchTime watchTime r0)) in
  let assigned := Number_cast watchTime && bool_decide (is_Some flag) in
  if body_truthy completed_flag then
    let r2 := set_progress 100%float r1 in
    match T !! tid with
    | None => (Failure 500 "Server error", P)
    | Some t =>
        let r3 :=
          if no_quiz t then set_completedAt now (set_status completed r2)
          else r2 in
        save_and_answer assigned (uid, tid) r3 P
    end
  else if JS.gt totalDuration 0%float then
    let r2 :=
      set_progress
        (JS.Math_min 95%float (watchTime / totalDuration * 100)%float) r1 in
    save_and_answer (assigned && progress_valid (progress r2)) (uid, tid) r2 P
  else save_and_answer assigned (uid, tid) r1 P.

(** What POST /:id/certificate draws from outside the stores: the ObjectId
    of a new document and the result of [generateCertificateId()]. *)
Record IssueEnv : Type := {
  fresh_oid : string;
  fresh_certificateId : string
}.

(** The [certificate] object of the response. *)
Record CertificateRef : Type := {
  ref_id : string;
  ref_certificateId : string;
  ref_url : string
}.

Definition certificate_url (oid : string) : string :=
  "/api/training/certificate/" ++ oid.

Definition ref_of (c : Certificate) : CertificateRef :=
  {| ref_id := cert_oid c; ref_certificateId := certificateId c;
     ref_url := certificate_url (cert_oid c) |}.

(** [TrainingProgress.findOne({ userId, trainingId, status: 'completed' })]. *)
Definition find_completed (uid tid : string) (P : ProgressStore)
    : option TrainingProgress :=
  match P !! (uid, tid) with
  | Some r => if decide (status r = completed) then Some r else None
  | None => None
  end.

(** [Certificate.findOne({ userId, trainingId })]. *)
Definition find_certificate (uid tid : string) (C : CertificateStore)
    : option Certificate :=
  List.find
    (fun c => bool_decide (cert_userId c = uid ∧ cert_trainingId c = tid)) C.

(** [training.quiz?.passingScore || 0]. *)
Definition passingScore_or_zero (t : Training) : float :=
  match quiz t with
  | Some q => JS.or_else (passingScore q) 0%float
  | None => 0%float
  end.

(** POST /:id/certificate. *)
Definition post_certificate (env : IssueEnv) (u : User) (tid : string)
    (T : TrainingStore) (P : ProgressStore) (C : CertificateStore)
    : Response CertificateRef * ProgressStore * CertificateStore :=
  let uid := user_id u in
  match find_completed uid tid P with
  | None =>
      (Failure 400 "Training must be completed before generating certificate",
       P, C)
  | Some pr =>
      match find_certificate uid tid C with
      | Some c => (Ok (ref_of c), P, C)
      | None =>
          match T !! tid with
          | None => (Failure 500 "Server error", P, C)
          | Some t =>
              let c :=
                {| cert_oid := fresh_oid env; cert_userId := uid;
                   cert_trainingId := tid;
                   certificateId := fresh_certificateId env;
                   userName := username u; trainingTitle := title t;
                   completionDate := completedAt pr;
                   cert_score := JS.or_else (bestScore pr) 0%float;
                   cert_passingScore := passingScore_or_zero t;
                   cert_duration := duration t; cert_category := category t;
                   issuedBy := "LMS Orient Training System";
                   isValid := true; downloadCount := 0 |} in
              (Ok (ref_of c),
               <[(uid, tid) := set_certificate (certificate_url (cert_oid c)) pr]> P,
               (C ++ [c])%list)
          end
      end
  end.

(** ** Definitions used by the statements *)

(** The certificates of the collection that belong to a (user, training)
    pair. *)
Definition certificates_for (uid tid : string) (C : CertificateStore)
    : list Certificate :=
  List.filter
    (fun c => bool_decide (cert_userId c = uid ∧ cert_trainingId c = tid)) C.


(** Attempt numbers are the positions counted from one. *)
Definition numbered (l : list QuizAttempt) : Prop :=
  ∀ i a, l !! i = Some a → attemptNumber a = S i.

(** The number of correct answers in the words of the specification: the
    number of positions [i] of the quiz at which [answers[i]] equals the
    correct-option index of question [i]. *)
Definition correctCount (qs : list Question) (given : list JS.jsval) : nat :=
  length
    (List.filter
       (fun i =>
          match qs !! i with
          | Some q => JS.strict_eq_val (JS.index given i) (correctAnswer q)
          | None => false
          end)
       (List.seq 0 (length qs))).

(** A run of [updateVideoProgress] calls on one document, each report a
    pair (watchTime, totalDuration). *)
Definition replay (now : Z) (r : TrainingProgress)
    (reports : list (float * float)) : TrainingProgress :=
  fold_left (fun d rep => updateVideoProgress now d rep.1 rep.2) reports r.

(** A report that brings no NaN into [updateVideoProgress]. *)
Definition clean_report (rep : float * float) : Prop :=
  is_nan rep.1 = false
  ∧ is_nan (JS.Math_floor (rep.1 / rep.2 * 100 * 0.5)%float) = false.

(** [Math.min(100, Math.max(0, p))]. *)
Definition clamp (p : float) : float := JS.Math_min 100 (JS.Math_max 0 p).

(** The score of [c] right answers out of [n] is an integer between 0
    and 100 within one half of the exact percentage. *)
Definition nearest_percent (c n : nat) : bool :=
  match JS.integer_value (quiz_score c n) with
  | Some s =>
      (0 <=? s)%Z && (s <=? 100)%Z
      && (Z.abs (2 * Z.of_nat n * s - 200 * Z.of_nat c) <=? Z.of_nat n)%Z
  | None => false
  end.

(** The same for every quiz of 1 to [N] questions and every count. *)
Definition nearest_percent_upto (N : nat) : bool :=
  forallb (fun n => forallb (fun c => nearest_percent c n) (List.seq 0 (S n)))
    (List.seq 1 N).

(** The document that PUT /:id/video-progress starts from. *)
Definition video_document (now : Z) (uid tid : string) (P : ProgressStore)
    : TrainingProgress :=
  match P !! (uid, tid) with
  | Some r => r
  | None => new_progress now uid tid
  end.

(** ** Documents of the seed script *)

(** The quiz of 'Data Protection Fundamentals' in the seed script: two
    questions, passing score 70, the schema's defaults for retakes and
    attempts. *)
Definition data_protection_quiz : Quiz :=
  {| questions :=
       [ {| question := "What is the primary purpose of data protection laws?";
            options :=
              [ "To make business operations difficult";
                "To protect individual privacy and personal data";
                "To increase company profits";
                "To reduce employee productivity" ];
            correctAnswer := 1%float |};
         {| question := "Which of the following is considered personal data?";
            options :=
              [ "Employee ID numbers"; "Email addresses"; "Phone numbers";
                "All of the above" ];
            correctAnswer := 3%float |} ];
     passingScore := 70%float; allowRetakes := true;
     maxAttempts := Some 3%float |}.

Definition data_protection : Training :=
  {| title := "Data Protection Fundamentals"; category := "Compliance";
     duration := 45%float;
     content := {| videoUrl := None;
                   youtubeUrl := Some "https://www.youtube.com/watch?v=TE4UW7MXBGc" |};
     quiz := Some data_protection_quiz;
     targetAudience := "all"; specificDepartments := []; specificRoles := [];
     departments := None; roles := None |}.

(** The nested object [quiz] of a Training document that was created
    without one: no question, and the schema's defaults. *)
Definition default_quiz : Quiz :=
  {| questions := []; passingScore := 70%float; allowRetakes := true;
     maxAttempts := Some 3%float |}.

(** 'Workplace Safety Guidelines' of the seed script, which gives it no
    quiz, as the Training model stores it. *)
Definition workplace_safety : Training :=
  {| title := "Workplace Safety Guidelines"; category := "Mandatory";
     duration := 25%float;
     content := {| videoUrl := None;
                   youtubeUrl := Some "https://www.youtube.com/watch?v=dQw4w9WgXcQ" |};
     quiz := Some default_quiz;
     targetAudience := "all"; specificDepartments := []; specificRoles := [];
     departments := None; roles := None |}.

(** The course 'Finance Department Training' of the seed script, as the
    Training model stores it, and an employee of that department. *)
Definition finance_training : Training :=
  {| title := "Finance Department Training"; category := "Technical";
     duration := 60%float;
     content := {| videoUrl := None;
                   youtubeUrl := Some "https://www.youtube.com/watch?v=TE4UW7MXBGc" |};
     quiz := Some default_quiz; targetAudience := "specific";
     specificDepartments := ["Finance"]; specificRoles := [];
     departments := None; roles := None |}.

Definition finance_employee : User :=
  {| user_id := "u1"; username := "amira"; department := "Finance";
     role := "employee" |}.

(** Both answers of the seeded quiz right. *)
Definition both_right : list JS.jsval :=
  [JS.VNumber 1%float; JS.VNumber 3%float].

(** An environment of POST /:id/certificate. *)
Definition first_env : IssueEnv :=
  {| fresh_oid := "65f0c0ffee"; fresh_certificateId := "CERT-LX2K9A-7Q4ZP1" |}.

(** A failed attempt, as [addQuizAttempt] stores it. *)
Definition failed_attempt (k : nat) : QuizAttempt :=
  {| attemptNumber := k; answers := []; score := 50%float; passed := false;
     timeSpent := 4%float; submittedAt := 3 |}.

(** A record of user u1 for training t1 whose video is watched and whose
    three attempts all failed. *)
Definition three_failed : TrainingProgress :=
  set_quizAttempts
    (AttemptList [failed_attempt 1; failed_attempt 2; failed_attempt 3])
    (set_videoCompleted true (new_progress 0 "u1" "t1")).

(** A record of user u1 for training t1 that a passing quiz completed. *)
Definition completed_record : TrainingProgress :=
  set_completedAt 5
    (set_progress 100%float (set_status completed (new_progress 0 "u1" "t1"))).

(** ** The rest of the training router and of the models *)

(** POST /:id/start. *)
Definition post_start (now : Z) (uid tid : string)
    (T : TrainingStore) (P : ProgressStore) : Response unit * ProgressStore :=
  match T !! tid with
  | None => (Failure 404 "Training not found", P)
  | Some _ =>
      match P !! (uid, tid) with
      | Some r =>
          if decide (status r = not_started)
          then (Ok tt,
                <[(uid, tid) :=
                    set_progress 0%float
                      (set_startedAt now (set_status in_progress r))]> P)
          else (Failure 400 "Training already started or completed", P)
      | None => (Ok tt, <[(uid, tid) := new_progress now uid tid]> P)
      end
  end.

(** DELETE /:id: [TrainingProgress.deleteMany({ trainingId })],
    [Certificate.deleteMany({ trainingId })], then
    [Training.findByIdAndDelete].  [content.uploadedVideo] is not a path of
    the schema, so the branch that unlinks a file is not taken. *)
Definition delete_training (tid : string)
    (T : TrainingStore) (P : ProgressStore) (C : CertificateStore)
    : Response unit * TrainingStore * ProgressStore * CertificateStore :=
  match T !! tid with
  | None => (Failure 404 "Training not found", T, P, C)
  | Some _ =>
      (Ok tt,
       delete tid T,
       filter (fun kr => trainingId kr.2 ≠ tid) P,
       List.filter (fun c => negb (String.eqb (cert_trainingId c) tid)) C)
  end.

(** The three collections together. *)
Record State : Type := {
  trainings : TrainingStore;
  progresses : ProgressStore;
  certificates : CertificateStore
}.

(** A request to one of the handlers above that write to a collection. *)
Inductive Request : Type :=
| Start (now : Z) (uid tid : string)
| PutProgress (now : Z) (uid tid : string) (p : float)
| QuizSubmit (now : Z) (uid tid : string) (given : list JS.jsval)
| VideoProgress (now : Z) (uid tid : string)
    (watchTime totalDuration : float) (completed_flag : body_val)
| IssueCertificate (env : IssueEnv) (u : User) (tid : string)
| DeleteTraining (tid : string).

Section Router.

Variable array_toString : list QuizAttempt → string.

(** The collections after the handler of the request has run. *)
Definition handle (s : State) (req : Request) : State :=
  match req with
  | Start now uid tid =>
      {| trainings := trainings s;
         progresses := (post_start now uid tid (trainings s) (progresses s)).2;
         certificates := certificates s |}
  | PutProgress now uid tid p =>
      {| trainings := trainings s;
         progresses := (put_progress now uid tid p (progresses s)).2;
         certificates := certificates s |}
  | QuizSubmit now uid tid given =>
      {| trainings := trainings s;
         progresses :=
           (quiz_submit array_toString now uid tid given
              (trainings s) (progresses s)).2;
         certificates := certificates s |}
  | VideoProgress now uid tid watchTime totalDuration completed_flag =>
      {| trainings := trainings s;
         progresses :=
           (video_progress now uid tid watchTime totalDuration completed_flag
              (trainings s) (progresses s)).2;
         certificates := certificates s |}
  | IssueCertificate env u tid =>
      let '(_, P, C) :=
        post_certificate env u tid (trainings s) (progresses s)
          (certificates s) in
      {| trainings := trainings s; progresses := P; certificates := C |}
  | DeleteTraining tid =>
      let '(_, T, P, C) :=
        delete_training tid (trainings s) (progresses s) (certificates s) in
      {| trainings := T; progresses := P; certificates := C |}
  end.

(** The collections after a sequence of requests, served one at a time. *)
Definition serve (s : State) (reqs : list Request) : State :=
  fold_left handle reqs s.

End Router.

(** Training.js, [getVideoSourceType]; [None] is [null]. *)
Definition getVideoSourceType (t : Training) : option string :=
  if string_truthy (videoUrl (content t)) then Some "uploaded"
  else if string_truthy (youtubeUrl (content t)) then Some "youtube"
  else None.

(** A Certificate document with the paths that the issuing route leaves
    unset: [validUntil] and [lastDownloadedAt]. *)
Record CertificateDoc : Type := {
  cert : Certificate;
  validUntil : option Z;
  lastDownloadedAt : option Z
}.

(** The virtual [isCurrentlyValid] read at time [now]. *)
Definition isCurrentlyValid (now : Z) (d : CertificateDoc) : bool :=
  if negb (isValid (cert d)) then false
  else
    match validUntil d with
    | None => true
    | Some t => (now <=? t)%Z
    end.

Definition set_isValid (v : bool) (c : Certificate) : Certificate :=
  {| cert_oid := cert_oid c; cert_userId := cert_userId c;
     cert_trainingId := cert_trainingId c; certificateId := certificateId c;
     userName := userName c; trainingTitle := trainingTitle c;
     completionDate := completionDate c; cert_score := cert_score c;
     cert_passingScore := cert_passingScore c;
     cert_duration := cert_duration c; cert_category := cert_category c;
     issuedBy := issuedBy c; isValid := v; downloadCount := downloadCount c |}.

Definition set_downloadCount (v : nat) (c : Certificate) : Certificate :=
  {| cert_oid := cert_oid c; cert_userId := cert_userId c;
     cert_trainingId := cert_trainingId c; certificateId := certificateId c;
     userName := userName c; trainingTitle := trainingTitle c;
     completionDate := completionDate c; cert_score := cert_score c;
     cert_passingScore := cert_passingScore c;
     cert_duration := cert_duration c; cert_category := cert_category c;
     issuedBy := issuedBy c; isValid := isValid c; downloadCount := v |}.

(** The method [recordDownload]; the result is the document that
    [this.save()] writes. *)
Definition recordDownload (now : Z) (d : CertificateDoc) : CertificateDoc :=
  {| cert := set_downloadCount (downloadCount (cert d) + 1) (cert d);
     validUntil := validUntil d;
     lastDownloadedAt := Some now |}.

(** The method [invalidate(reason)].  The two assignments under
    [metadata] target paths that the schema does not have and leave the
    stored document as it is. *)
Definition invalidate (reason : string) (d : CertificateDoc) : CertificateDoc :=
  {| cert := set_isValid false (cert d);
     validUntil := validUntil d;
     lastDownloadedAt := lastDownloadedAt d |}.

(** The documents matched by the query of the static
    [findUserCertificates]: [{ userId, isValid: true }]. *)
Definition findUserCertificates (uid : string) (C : CertificateStore)
    : list Certificate :=
  List.filter (fun c => String.eqb (cert_userId c) uid && isValid c) C.

(** The documents matched by the query of the static
    [findTrainingCertificates]: [{ trainingId, isValid: true }]. *)
Definition findTrainingCertificates (tid : string) (C : CertificateStore)
    : list Certificate :=
  List.filter (fun c => String.eqb (cert_trainingId c) tid && isValid c) C.

(** ** Definitions used by the statements on the router *)

(** The key of a progress document in the store is its own
    (userId, trainingId) pair. *)
Definition keyed (P : ProgressStore) : Prop :=
  ∀ u t r, P !! (u, t) = Some r → userId r = u ∧ trainingId r = t.

(** A completed progress document has a completion date. *)
Definition completed_dated (P : ProgressStore) : Prop :=
  ∀ k r, P !! k = Some r → status r = completed → is_Some (completedAt r).

(** No (user, training) pair has two certificates. *)
Definition one_certificate_per_pair (C : CertificateStore) : Prop :=
  ∀ uid tid, (length (certificates_for uid tid C) ≤ 1)%nat.

(** Every certificate has a completion date and belongs to a progress
    document that is completed and marked [certificateGenerated]. *)
Definition certificates_backed (P : ProgressStore) (C : CertificateStore)
    : Prop :=
  ∀ c, c ∈ C →
    is_Some (completionDate c)
    ∧ ∃ r, P !! (cert_userId c, cert_trainingId c) = Some r
           ∧ status r = completed ∧ certificateGenerated r = true.

Record consistent (s : State) : Prop := {
  consistent_keyed : keyed (progresses s);
  consistent_dated : completed_dated (progresses s);
  consistent_unique : one_certificate_per_pair (certificates s);
  consistent_backed : certificates_backed (progresses s) (certificates s)
}.

(** The state with a given catalogue and no progress and no certificate. *)
Definition fresh_state (T : TrainingStore) : State :=
  {| trainings := T; progresses := ∅; certificates := [] |}.

(** A run of [recordDownload] calls, one at each time of the list. *)
Definition downloads (times : list Z) (d : CertificateDoc) : CertificateDoc :=
  fold_left (fun d t => recordDownload t d) times d.

(** A run of [addQuizAttempt] calls on one document, each submission being
    (time of the call, answers, score, passed, timeSpent); [None] when a
    call throws. *)
Fixpoint attempt_run (r : TrainingProgress)
    (subs : list (Z * list AnswerEntry * float * bool * float))
    : option TrainingProgress :=
  match subs with
  | [] => Some r
  | (now, ans, sc, pass, spent) :: rest =>
      match addQuizAttempt now r ans sc pass spent with
      | Some r' => attempt_run r' rest
      | None => None
      end
  end.

(** ** The files router *)

(** An entry of the in-memory [files] array, with the properties that the
    handlers below read: [id], [originalName] and [ackDelayMinutes] (absent
    on the entries of the initial list).  The other properties (stored
    name, path, size, type, category, uploader, date, description) are
    copied from the request and read by none of them. *)
Record FileEntry : Type := {
  file_id : Z;
  originalName : string;
  ackDelayMinutes : option float
}.

(** An entry of the in-memory [acknowledgments] array; [acknowledgedAt]
    is the time value of the stored ISO string. *)
Record Acknowledgment : Type := {
  ack_id : Z;
  ack_userId : string;
  ack_username : string;
  ack_fileId : Z;
  fileName : string;
  acknowledgedAt : float
}.

(** The state of the router: the two arrays and the [ackViewStarts]
    object, which maps the key of a (viewer, file) pair to the time value
    of the string stored for it (NaN for a string that is no date). *)
Record FilesState : Type := {
  files : list FileEntry;
  acknowledgments : list Acknowledgment;
  ackViewStarts : gmap string float
}.

(** The template literal [`${viewerId}:${fileId}`]; a file id is an
    integer and prints in decimal. *)
Definition view_key (viewerId : string) (fileId : Z) : string :=
  viewerId ++ ":" ++ pretty fileId.

(** [files.find(f => f.id === fileId)], where [fileId] is the result of
    [parseInt]: an integer, or NaN ([None]), which no id equals. *)
Definition find_file (fileId : option Z) (l : list FileEntry)
    : option FileEntry :=
  match fileId with
  | None => None
  | Some i => List.find (fun f => Z.eqb (file_id f) i) l
  end.

(** [files.findIndex(f => f.id === fileId)]; [None] is -1. *)
Fixpoint findIndex (i : Z) (l : list FileEntry) : option nat :=
  match l with
  | [] => None
  | f :: rest =>
      if Z.eqb (file_id f) i then Some 0%nat
      else option_map S (findIndex i rest)
  end.

(** POST /upload with the local disk as the storage provider (the
    default).  [file] is [req.file] reduced to the display name that the
    handler derives for it ([None]: no file in the request) and
    [ackDelayRaw] is the result of [parseInt(req.body.ackDelayMinutes, 10)]. *)
Definition upload (file : option string) (ackDelayRaw : float)
    (st : FilesState) : Response FileEntry * FilesState :=
  match file with
  | None => (Failure 400 "No file uploaded", st)
  | Some displayName =>
      let delay :=
        if is_finite ackDelayRaw && JS.ge ackDelayRaw 0%float
        then ackDelayRaw else 0%float in
      let nextId := (Z.of_nat (length (files st)) + 1)%Z in
      let newFile :=
        {| file_id := nextId; originalName := displayName;
           ackDelayMinutes := Some delay |} in
      (Ok newFile,
       {| files := (files st ++ [newFile])%list;
          acknowledgments := acknowledgments st;
          ackViewStarts := ackViewStarts st |})
  end.

(** DELETE /:id: [splice(fileIndex, 1)] on the array; the acknowledgments
    and the view starts are left as they are. *)
Definition delete_file (fileId : option Z) (st : FilesState)
    : Response unit * FilesState :=
  match fileId with
  | None => (Failure 404 "File not found", st)
  | Some i =>
      match findIndex i (files st) with
      | None => (Failure 404 "File not found", st)
      | Some k =>
          (Ok tt,
           {| files := delete k (files st);
              acknowledgments := acknowledgments st;
              ackViewStarts := ackViewStarts st |})
      end
  end.

(** GET /:id/view, up to the point where the file is sent: a viewer id
    that is truthy gets its first view of the file recorded.  [Ok file]
    stands for the handler going on to send the bytes of [file]; whether
    they are found does not change the state. *)
Definition view_file (now : float) (viewerId : string) (fileId : option Z)
    (st : FilesState) : Response FileEntry * FilesState :=
  match find_file fileId st.(files), fileId with
  | Some file, Some i =>
      let key := view_key viewerId i in
      (Ok file,
       if negb (String.eqb viewerId "")
       then
         match ackViewStarts st !! key with
         | Some _ => st
         | None =>
             {| files := files st; acknowledgments := acknowledgments st;
                ackViewStarts := <[key := now]> (ackViewStarts st) |}
         end
       else st)
  | _, _ => (Failure 404 "File not found", st)
  end.

(** The body of a response of POST /:id/acknowledge. *)
Inductive AckBody : Type :=
| AckError (error : string) (remainingMs : option float)
| AckDone (acknowledgment : Acknowledgment).

(** A time value that [new Date(t)] accepts: TimeClip turns a magnitude
    above 8.64e15 into an invalid date, on which [toISOString] throws. *)
Definition valid_time (t : float) : bool :=
  (abs t <=? 8640000000000000)%float.

(** [(file.ackDelayMinutes || 0) * 60 * 1000]. *)
Definition configuredDelayMs (file : FileEntry) : float :=
  (match ackDelayMinutes file with
   | Some m => JS.or_else m 0
   | None => 0
   end * 60 * 1000)%float.

(** [acknowledgments.find(a => a.userId === userId && a.fileId === fileId)]. *)
Definition find_ack (userId : string) (fileId : Z) (l : list Acknowledgment)
    : option Acknowledgment :=
  List.find
    (fun a => String.eqb (ack_userId a) userId && Z.eqb (ack_fileId a) fileId) l.

(** POST /:id/acknowledge; the result is the status code, the body and
    the new state.  The delay check sits in a [try] whose [catch] lets the
    request through: when the unlock time is in the future but is not a
    valid date, [res.status(403)] has run and building [allowAt] throws,
    so the handler goes on with the status already set. *)
Definition acknowledge (now : float) (userId username : string)
    (fileId : option Z) (st : FilesState) : nat * AckBody * FilesState :=
  match find_file fileId (files st), fileId with
  | Some file, Some i =>
      match ackViewStarts st !! view_key userId i with
      | None =>
          (403%nat,
           AckError "View required before acknowledgment"
             (Some (configuredDelayMs file)),
           st)
      | Some viewMs =>
          let unlockAtMs := (viewMs + configuredDelayMs file)%float in
          let early := is_finite unlockAtMs && JS.lt now unlockAtMs in
          if early && valid_time unlockAtMs
          then (403%nat,
                AckError "Acknowledgment not allowed yet"
                  (Some (unlockAtMs - now)%float),
                st)
          else
            match find_ack userId i (acknowledgments st) with
            | Some _ => (400%nat, AckError "File already acknowledged" None, st)
            | None =>
                let a :=
                  {| ack_id := (Z.of_nat (length (acknowledgments st)) + 1)%Z;
                     ack_userId := userId; ack_username := username;
                     ack_fileId := i; fileName := originalName file;
                     acknowledgedAt := now |} in
                ((if early then 403 else 200)%nat,
                 AckDone a,
                 {| files := files st;
                    acknowledgments := (acknowledgments st ++ [a])%list;
                    ackViewStarts := ackViewStarts st |})
            end
      end
  | _, _ => (404%nat, AckError "File not found" None, st)
  end.

(** GET /:id/acknowledgments, the list of the response. *)
Definition file_acknowledgments (fileId : Z) (st : FilesState)
    : list Acknowledgment :=
  List.filter (fun a => Z.eqb (ack_fileId a) fileId) (acknowledgments st).

(** GET /acknowledgments/my. *)
Definition my_acknowledgments (userId : string) (st : FilesState)
    : list Acknowledgment :=
  List.filter (fun a => String.eqb (ack_userId a) userId) (acknowledgments st).

(** A request to a handler of the files router that changes its state. *)
Inductive FileRequest : Type :=
| Upload (file : option string) (ackDelayRaw : float)
| DeleteFile (fileId : option Z)
| View (now : float) (viewerId : string) (fileId : option Z)
| Acknowledge (now : float) (userId username : string) (fileId : option Z).

Definition files_handle (st : FilesState) (req : FileRequest) : FilesState :=
  match req with
  | Upload file ackDelayRaw => (upload file ackDelayRaw st).2
  | DeleteFile fileId => (delete_file fileId st).2
  | View now viewerId fileId => (view_file now viewerId fileId st).2
  | Acknowledge now userId username fileId =>
      (acknowledge now userId username fileId st).2
  end.

Definition files_serve (st : FilesState) (reqs : list FileRequest)
    : FilesState :=
  fold_left files_handle reqs st.

(** ** Definitions used by the statements on the files router *)

(** The ids of the files are 1, 2, ... in the order of the array. *)
Definition consecutive (l : list FileEntry) : Prop :=
  ∀ k f, l !! k = Some f → file_id f = (Z.of_nat k + 1)%Z.

(** The ids of the acknowledgments are 1, 2, ... in the order of the
    array. *)
Definition ack_numbered (l : list Acknowledgment) : Prop :=
  ∀ k a, l !! k = Some a → ack_id a = (Z.of_nat k + 1)%Z.

(** No (user, file) pair is acknowledged twice. *)
Definition ack_once (l : list Acknowledgment) : Prop :=
  ∀ j k a b, l !! j = Some a → l !! k = Some b →
    ack_userId a = ack_userId b → ack_fileId a = ack_fileId b → j = k.

(** Every acknowledgment has a view start recorded for its pair. *)
Definition ack_viewed (st : FilesState) : Prop :=
  ∀ a, a ∈ acknowledgments st →
    is_Some (ackViewStarts st !! view_key (ack_userId a) (ack_fileId a)).

(** Every acknowledgment was made for a file that is found under its id,
    after a recorded view by its user, and not before the unlock time
    (view time plus the configured delay of the file) when that time is a
    valid date. *)
Definition ack_timely (st : FilesState) : Prop :=
  ∀ a, a ∈ acknowledgments st →
    ∃ file viewMs,
      find_file (Some (ack_fileId a)) (files st) = Some file
      ∧ ackViewStarts st !! view_key (ack_userId a) (ack_fileId a)
        = Some viewMs
      ∧ (is_finite (viewMs + configuredDelayMs file) = true →
         valid_time (viewMs + configuredDelayMs file) = true →
         JS.lt (acknowledgedAt a) (viewMs + configuredDelayMs file) = false).

(** The three properties of the acknowledgment array together. *)
Record acks_wellformed (st : FilesState) : Prop := {
  wf_numbered : ack_numbered (acknowledgments st);
  wf_once : ack_once (acknowledgments st);
  wf_viewed : ack_viewed st
}.

(** The colon (code 58) and the strings without one. *)
Definition colon : Ascii.ascii := Ascii.ascii_of_nat 58.

Fixpoint colon_free (s : string) : bool :=
  match s with
  | EmptyString => true
  | String c rest => negb (Ascii.eqb c colon) && colon_free rest
  end.

(** ** The OneDrive service: upload of a large file in chunks *)

Section LargeUpload.

(** The JSON item that the service answers with. *)
Variable Item : Type.

(** One PUT of the upload session: the header
    [Content-Range: bytes start-(end - 1)/total] and the body
    [buffer.slice(start, end)]. *)
Record ChunkRequest : Type := {
  range_start : nat;
  range_end : nat;
  range_total : nat;
  chunk : list Byte.byte
}.

(** How [uploadLargeFile] ends: it returns the item (possibly null), or
    throws on a chunk whose status is none of 200, 201 and 202. *)
Inductive UploadOutcome : Type :=
| Returned (item : option Item)
| Thrown (status : nat).

(** The answers of the service to the successive PUTs, by number of the
    request: the status and the parsed body ([None]: a falsy value); and
    the item of the finalization GET ([None]: null, also when it fails). *)
Variable reply : nat → nat * option Item.
Variable finalize : option Item.

(** The [while (start < total)] loop and the finalization, with the
    requests sent so far.  [chunkSize] is a non-negative integer.  The
    fuel bounds the number of iterations; [None] is a loop that has not
    ended within it. *)
Fixpoint uploadLargeFile_loop (fuel : nat) (buffer : list Byte.byte)
    (chunkSize start : nat) (uploadedItem : option Item)
    (sent : list ChunkRequest)
    : option (UploadOutcome * list ChunkRequest) :=
  match fuel with
  | O => None
  | S fuel' =>
      let total := length buffer in
      if (start <? total)%nat then
        let end_ := Nat.min (start + chunkSize) total in
        let req :=
          {| range_start := start; range_end := end_; range_total := total;
             chunk := take (end_ - start) (drop start buffer) |} in
        let res := reply (length sent) in
        if (res.1 =? 200)%nat || (res.1 =? 201)%nat then
          uploadLargeFile_loop fuel' buffer chunkSize end_ res.2
            (sent ++ [req])
        else if negb (res.1 =? 202)%nat then
          Some (Thrown res.1, (sent ++ [req])%list)
        else
          uploadLargeFile_loop fuel' buffer chunkSize end_ uploadedItem
            (sent ++ [req])
      else
        Some (Returned (match uploadedItem with
                        | Some item => Some item
                        | None => finalize
                        end),
              sent)
  end.

Definition uploadLargeFile (fuel : nat) (buffer : list Byte.byte) (chunkSize : nat)
    : option (UploadOutcome * list ChunkRequest) :=
  uploadLargeFile_loop fuel buffer chunkSize 0 None [].

(** The ranges of a list of requests follow one another from [from] up to
    [to]. *)
Fixpoint chained (from : nat) (l : list ChunkRequest) (to : nat) : Prop :=
  match l with
  | [] => from = to
  | r :: rest => range_start r = from ∧ chained (range_end r) rest to
  end.

(** A status that lets the loop go on. *)
Definition accepted (status : nat) : bool :=
  (status =? 200)%nat || (status =? 201)%nat || (status =? 202)%nat.

(** The body of the last answer with status 200 or 201 among the first
    [n] answers of the service; [None] when there is no such answer or
    when its body is falsy. *)
Fixpoint last_item (n : nat) : option Item :=
  match n with
  | O => None
  | S k =>
      if ((reply k).1 =? 200)%nat || ((reply k).1 =? 201)%nat
      then (reply k).2
      else last_item k
  end.

End LargeUpload.

Arguments Returned {Item} _.
Arguments Thrown {Item} _.

(** ** The directory service: the role of a user *)

Section MapRole.

(** [String.prototype.toLowerCase]. *)
Variable toLowerCase : string → string.

(** The [memberOf] attribute of a directory entry: an array of group
    names (an element may be null), a single name, or nothing. *)
Inductive MemberOf : Type :=
| MemberArray (gs : list (option string))
| MemberString (g : string)
| MemberAbsent.

(** [Array.isArray(memberOf) ? memberOf : memberOf ? [memberOf] : []]. *)
Definition groups_of (memberOf : MemberOf) : list (option string) :=
  match memberOf with
  | MemberArray gs => gs
  | MemberString g => if String.eqb g "" then [] else [Some g]
  | MemberAbsent => []
  end.

(** [dn && groups.some(g => (g || '').toLowerCase() === dn.toLowerCase())]
    for a group name [dn] of the environment ([None]: not set). *)
Definition in_group (dn : option string) (groups : list (option string))
    : bool :=
  match dn with
  | Some d =>
      negb (String.eqb d "")
      && existsb
           (fun g => String.eqb (toLowerCase (default "" g)) (toLowerCase d))
           groups
  | None => false
  end.

(** [mapRole], with the two group names that it reads from the
    environment. *)
Definition mapRole (adminDn complianceDn : option string)
    (memberOf : MemberOf) : string :=
  let groups := groups_of memberOf in
  if in_group adminDn groups then "admin"
  else if in_group complianceDn groups then "compliance"
  else "employee".

End MapRole.

(** ** Documents and states of the examples *)

(** The catalogue with the seeded quiz course as t1 and a state in which
    user u1 has completed it. *)
Definition seeded_catalogue : TrainingStore := {["t1" := data_protection]}.

Definition completed_state : State :=
  {| trainings := seeded_catalogue;
     progresses := {[("u1", "t1") := completed_record]};
     certificates := [] |}.

(** A certificate of user u1 for t1 whose validity flag is off. *)
Definition revoked_certificate : Certificate :=
  {| cert_oid := "65f0c0ffee"; cert_userId := "u1"; cert_trainingId := "t1";
     certificateId := "CERT-LX2K9A-7Q4ZP1"; userName := "amira";
     trainingTitle := "Data Protection Fundamentals";
     completionDate := Some 5%Z; cert_score := 100%float;
     cert_passingScore := 70%float; cert_duration := 45%float;
     cert_category := "Compliance"; issuedBy := "LMS Orient Training System";
     isValid := false; downloadCount := 0 |}.

(** The initial [files] array of the files router, nothing acknowledged
    and nothing viewed. *)
Definition initial_files : FilesState :=
  {| files :=
       [ {| file_id := 1; originalName := "Document1.pdf";
            ackDelayMinutes := None |};
         {| file_id := 2;
            originalName :=
              "Business Requirements Document - Compliance Module.docx";
            ackDelayMinutes := None |};
         {| file_id := 3;
            originalName := "Pull API Documentation dubizzle.pdf";
            ackDelayMinutes := None |} ];
     acknowledgments := [];
     ackViewStarts := ∅ |}.

(** The same after user u1 has viewed file 3 at time 1000, and after the
    user has then acknowledged it at time 2000. *)
Definition viewed_files : FilesState :=
  (view_file 1000 "u1" (Some 3%Z) initial_files).2.

Definition acknowledged_files : FilesState :=
  (acknowledge 2000 "u1" "amira" (Some 3%Z) viewed_files).2.

(** A state with one file whose acknowledgment delay is [minutes],
    viewed by u1 at time 1000. *)
Definition delayed_files (minutes : float) : FilesState :=
  {| files := [ {| file_id := 1; originalName := "Code of Conduct.pdf";
                   ackDelayMinutes := Some minutes |} ];
     acknowledgments := [];
     ackViewStarts := {[view_key "u1" 1 := 1000%float]} |}.

(** A service that answers 202 to every chunk but the third, which it
    answers with 201 and no body, and one that refuses every chunk with
    503. *)
Definition completing_service (k : nat) : nat * option unit :=
  if (k =? 2)%nat then (201%nat, None) else (202%nat, None).

Definition refusing_service (k : nat) : nat * option unit := (503%nat, None).

(** A service that answers the first chunk with 201 and an item, and
    every later chunk with 202. *)
Definition early_service (k : nat) : nat * option string :=
  if (k =? 0)%nat then (201%nat, Some "item of the first answer")
  else (202%nat, None).

(** A buffer of five bytes. *)
Definition five_bytes : list Byte.byte :=
  [Byte.x01; Byte.x02; Byte.x03; Byte.x04; Byte.x05].

(** The acknowledgment that u1's request stores. *)
Definition first_ack : Acknowledgment :=
  {| ack_id := 1; ack_userId := "u1"; ack_username := "amira";
     ack_fileId := 3; fileName := "Pull API Documentation dubizzle.pdf";
     acknowledgedAt := 2000%float |}.

(** Requests to the training router: user u1 starts the seeded course,
    reports full progress and asks twice for the certificate; then a
    training that does not exist is deleted. *)
Definition training_requests : list Request :=
  [ Start 1 "u1" "t1";
    PutProgress 2 "u1" "t1" 100%float;
    IssueCertificate first_env finance_employee "t1";
    IssueCertificate first_env finance_employee "t1";
    DeleteTraining "t9" ].

(** Requests that follow a completion: a lower progress report, a video
    report, a start and the deletion of another training. *)
Definition later_requests : list Request :=
  [ PutProgress 9 "u1" "t1" 10%float;
    VideoProgress 10 "u1" "t1" 5%float 100%float false;
    Start 11 "u1" "t1";
    DeleteTraining "t2" ].

(** Requests to the files router: u1 views and acknowledges file 3, tries
    again, the file is deleted and another one uploaded; u2 views file 1
    and tries to acknowledge file 3. *)
Definition file_requests : list FileRequest :=
  [ View 1000 "u1" (Some 3%Z);
    Acknowledge 2000 "u1" "amira" (Some 3%Z);
    Acknowledge 3000 "u1" "amira" (Some 3%Z);
    View 5 "u2" (Some 1%Z);
    Acknowledge 3000 "u2" "bilal" (Some 3%Z);
    DeleteFile (Some 3%Z);
    Upload (Some "Travel Policy.pdf") 10%float ].

(** The same without the deletion. *)
Definition file_requests_without_deletion : list FileRequest :=
  [ View 1000 "u1" (Some 3%Z);
    Acknowledge 2000 "u1" "amira" (Some 3%Z);
    Upload (Some "Travel Policy.pdf") 10%float ].

(** A failed submission at time 3 and a passed one at time 8. *)
Definition two_submissions
    : list (Z * list AnswerEntry * float * bool * float) :=
  [ (3%Z, [], 50%float, false, 4%float); (8%Z, [], 80%float, true, 5%float) ].

(** Requests of u1 to acknowledge file 1 at time 2000 and at time 700000,
    and a second view in between. *)
Definition delayed_requests : list FileRequest :=
  [ Acknowledge 2000 "u1" "amira" (Some 1%Z);
    View 3000 "u1" (Some 1%Z);
    Acknowledge 700000 "u1" "amira" (Some 1%Z) ].

(** ** Facts about JavaScript numbers *)

(** The comparisons of [float] are specified on the decomposition of a
    value into sign, mantissa and exponent ([Prim2SF], [SFcompare]); the
    order facts below are proved there and carried back. *)

Module JSFacts.
Import JS.

(** Swapping the operands reverses the outcome. *)
Lemma SFcompare_antisym x y :
  SFcompare y x = option_map CompOpp (SFcompare x y).
Proof.
  destruct x as [[]|[]| |[] m1 e1], y as [[]|[]| |[] m2 e2]; simpl; try reflexivity.
  all: f_equal; change (Pos.compare_cont Eq) with Pos.compare.
  all: destruct (Z.compare_spec e1 e2), (Z.compare_spec e2 e1); try lia; try reflexivity.
  all: destruct (Pos.compare_spec m1 m2), (Pos.compare_spec m2 m1); try lia; reflexivity.
Qed.

Lemma SFcompare_refl x : x ≠ S754_nan → SFcompare x x = Some Eq.
Proof.
  destruct x as [[]|[]| |[] m e]; simpl; try congruence; intros _.
  all: rewrite Z.compare_refl; f_equal.
  all: change (Pos.compare_cont Eq m m) with (Pos.compare m m); rewrite Pos.compare_refl; reflexivity.
Qed.

Lemma SFle_trans x y z : SFle x y → SFle y z → SFle x z.
Proof.
  unfold SFle.
  destruct x as [[]|[]| |[] m1 e1], y as [[]|[]| |[] m2 e2], z as [[]|[]| |[] m3 e3];
    simpl; try tauto.
  all: change (Pos.compare_cont Eq) with Pos.compare.
  all: destruct (Z.compare_spec e1 e2); try tauto;
       destruct (Z.compare_spec e2 e3); try tauto;
       destruct (Z.compare_spec e1 e3); try tauto; try lia.
  all: destruct (Pos.compare_spec m1 m2); simpl; try tauto;
       destruct (Pos.compare_spec m2 m3); simpl; try tauto;
       destruct (Pos.compare_spec m1 m3); simpl; try tauto; try lia.
Qed.

(** [<=?], [<?] and [=?] of [float] in terms of [SFcompare]. *)
Lemma leb_SFle a b : le a b ↔ SFle (Prim2SF a) (Prim2SF b).
Proof.
  unfold le, SFle. rewrite FloatAxioms.leb_spec. unfold SFleb.
  destruct (SFcompare _ _) as [[]|]; split; intros H; try exact I;
    try reflexivity; try discriminate; try contradiction.
Qed.

Lemma ltb_compare a b :
  (a <? b)%float = true ↔ SFcompare (Prim2SF a) (Prim2SF b) = Some Lt.
Proof.
  rewrite FloatAxioms.ltb_spec. unfold SFltb.
  destruct (SFcompare _ _) as [[]|]; split; intros H; try reflexivity;
    try discriminate.
Qed.

Lemma eqb_compare a b :
  (a =? b)%float = true ↔ SFcompare (Prim2SF a) (Prim2SF b) = Some Eq.
Proof.
  rewrite FloatAxioms.eqb_spec. unfold SFeqb.
  destruct (SFcompare _ _) as [[]|]; split; intros H; try reflexivity;
    try discriminate.
Qed.

Lemma is_nan_false a : is_nan a = false ↔ Prim2SF a ≠ S754_nan.
Proof.
  unfold is_nan. rewrite FloatAxioms.eqb_spec. unfold SFeqb. split.
  - intros H E. rewrite E in H. discriminate.
  - intros H. rewrite (SFcompare_refl _ H). reflexivity.
Qed.

(** Compared Numbers are not NaN; on Numbers that are not NaN [<=] is a
    total preorder and [<] its strict part. *)
Lemma le_number a b : le a b → is_nan a = false ∧ is_nan b = false.
Proof.
  intros H. apply leb_SFle in H. unfold SFle in H.
  split; apply is_nan_false; intros E; rewrite E in H;
    [|destruct (Prim2SF a)]; exact H.
Qed.

Lemma le_refl a : is_nan a = false → le a a.
Proof.
  intros H. apply leb_SFle. unfold SFle.
  rewrite SFcompare_refl; [exact I | apply is_nan_false, H].
Qed.

Lemma le_trans a b c : le a b → le b c → le a c.
Proof. rewrite !leb_SFle. apply SFle_trans. Qed.

Lemma lt_le a b : (a <? b)%float = true → le a b.
Proof.
  intros H. apply ltb_compare in H. apply leb_SFle. unfold SFle.
  rewrite H. exact I.
Qed.

Lemma lt_not_ge a b : (a <? b)%float = true → ¬ le b a.
Proof.
  intros H Hle. apply ltb_compare in H. apply leb_SFle in Hle.
  unfold SFle in Hle. rewrite SFcompare_antisym, H in Hle. exact Hle.
Qed.

Lemma not_lt_ge a b :
  is_nan a = false → is_nan b = false → (a <? b)%float = false → le b a.
Proof.
  intros Ha Hb H. apply leb_SFle. unfold SFle. rewrite SFcompare_antisym.
  rewrite FloatAxioms.ltb_spec in H. unfold SFltb in H.
  apply is_nan_false in Ha. apply is_nan_false in Hb.
  destruct (SFcompare (Prim2SF a) (Prim2SF b)) as [[]|] eqn:E; simpl;
    try exact I; try discriminate.
  destruct (Prim2SF a), (Prim2SF b); simpl in E; congruence.
Qed.

Lemma le_not_lt a b : le a b → (b <? a)%float = false.
Proof.
  intros H. destruct (b <? a)%float eqn:E; [|reflexivity].
  exfalso. exact (lt_not_ge _ _ E H).
Qed.

Lemma le_antisym_eqb a b : le a b → le b a → (a =? b)%float = true.
Proof.
  intros H1 H2. apply leb_SFle in H1. apply leb_SFle in H2.
  apply eqb_compare. unfold SFle in *. rewrite SFcompare_antisym in H2.
  destruct (SFcompare (Prim2SF a) (Prim2SF b)) as [[]|]; simpl in *;
    try reflexivity; contradiction.
Qed.

Lemma eqb_le a b : (a =? b)%float = true → le a b ∧ le b a.
Proof.
  intros H. apply eqb_compare in H. split; apply leb_SFle; unfold SFle.
  - rewrite H. exact I.
  - rewrite SFcompare_antisym, H. exact I.
Qed.

Lemma lt_le_trans a b c : (a <? b)%float = true → le b c → (a <? c)%float = true.
Proof.
  intros H1 H2. destruct (a <? c)%float eqn:E; [reflexivity|]. exfalso.
  destruct (le_number _ _ H2) as [Hb Hc].
  destruct (le_number _ _ (lt_le _ _ H1)) as [Ha _].
  pose proof (not_lt_ge a c Ha Hc E) as H3.
  exact (lt_not_ge _ _ H1 (le_trans _ _ _ H2 H3)).
Qed.

Lemma le_lt_trans a b c : le a b → (b <? c)%float = true → (a <? c)%float = true.
Proof.
  intros H1 H2. destruct (a <? c)%float eqn:E; [reflexivity|]. exfalso.
  destruct (le_number _ _ H1) as [Ha Hb].
  destruct (le_number _ _ (lt_le _ _ H2)) as [_ Hc].
  pose proof (not_lt_ge a c Ha Hc E) as H3.
  exact (lt_not_ge _ _ H2 (le_trans _ _ _ H3 H1)).
Qed.

(** Equal Numbers other than the two zeros are the same value. *)
Lemma eqb_eq a b : (a =? b)%float = true → is_zero a = false → a = b.
Proof.
  intros H Hz. apply eqb_compare in H.
  unfold is_zero in Hz. rewrite FloatAxioms.eqb_spec in Hz. unfold SFeqb in Hz.
  apply Prim2SF_inj.
  destruct (Prim2SF a) as [[]|[]| |[] m1 e1] eqn:Ea,
           (Prim2SF b) as [[]|[]| |[] m2 e2] eqn:Eb;
    simpl in H; try discriminate; try reflexivity;
    try (vm_compute in Hz; discriminate).
  all: destruct (Z.compare_spec e1 e2); try discriminate; subst.
  all: change (Pos.compare_cont Eq) with Pos.compare in H.
  all: destruct (Pos.compare_spec m1 m2); try discriminate; subst; reflexivity.
Qed.

(** [Math.max] and [Math.min] of two Numbers that are not NaN pick one of
    them, on the right side of both. *)
Lemma Math_max_number a b :
  is_nan a = false → is_nan b = false →
  Math_max a b = a ∨ Math_max a b = b.
Proof.
  intros Ha Hb. unfold Math_max. rewrite Ha, Hb. simpl.
  destruct (a <? b)%float; [right; reflexivity|].
  destruct (b <? a)%float; [left; reflexivity|].
  destruct (is_negative_zero a); [right|left]; reflexivity.
Qed.

Lemma Math_max_le_l a b :
  is_nan a = false → is_nan b = false → le a (Math_max a b).
Proof.
  intros Ha Hb. unfold Math_max. rewrite Ha, Hb. simpl.
  destruct (a <? b)%float eqn:E1; [apply lt_le, E1|].
  destruct (b <? a)%float eqn:E2; [apply le_refl, Ha|].
  destruct (is_negative_zero a); [|apply le_refl, Ha].
  apply not_lt_ge; assumption.
Qed.

Lemma Math_max_le_r a b :
  is_nan a = false → is_nan b = false → le b (Math_max a b).
Proof.
  intros Ha Hb. unfold Math_max. rewrite Ha, Hb. simpl.
  destruct (a <? b)%float eqn:E1; [apply le_refl, Hb|].
  destruct (b <? a)%float eqn:E2; [apply lt_le, E2|].
  destruct (is_negative_zero a); [apply le_refl, Hb|].
  apply not_lt_ge; assumption.
Qed.

Lemma Math_min_le_l a b :
  is_nan a = false → is_nan b = false → le (Math_min a b) a.
Proof.
  intros Ha Hb. unfold Math_min. rewrite Ha, Hb. simpl.
  destruct (a <? b)%float eqn:E1; [apply le_refl, Ha|].
  destruct (b <? a)%float eqn:E2; [apply lt_le, E2|].
  destruct (is_negative_zero a); [apply le_refl, Ha|].
  apply not_lt_ge; assumption.
Qed.

Lemma Math_min_number a b :
  is_nan a = false → is_nan b = false →
  Math_min a b = a ∨ Math_min a b = b.
Proof.
  intros Ha Hb. unfold Math_min. rewrite Ha, Hb. simpl.
  destruct (a <? b)%float; [left; reflexivity|].
  destruct (b <? a)%float; [right; reflexivity|].
  destruct (is_negative_zero a); [left|right]; reflexivity.
Qed.

End JSFacts.

(** ** The certificate issuer *)

Section Certificates.

Implicit Types (env : IssueEnv) (u : User) (tid : string).
Implicit Types (T : TrainingStore) (P : ProgressStore) (C : CertificateStore).

Lemma find_completed_Some uid tid P r :
  P !! (uid, tid) = Some r → status r = completed →
  find_completed uid tid P = Some r.
Proof.
  intros HP Hs. unfold find_completed. rewrite HP.
  destruct (decide (status r = completed)); [reflexivity | contradiction].
Qed.

Lemma find_completed_None uid tid P :
  (∀ r, P !! (uid, tid) = Some r → status r ≠ completed) →
  find_completed uid tid P = None.
Proof.
  intros H. unfold find_completed.
  destruct (P !! (uid, tid)) as [r|] eqn:HP; [|reflexivity].
  destruct (decide (status r = completed)) as [Hs|]; [|reflexivity].
  exfalso. exact (H r eq_refl Hs).
Qed.

Lemma find_certificate_None_for uid tid C :
  find_certificate uid tid C = None → certificates_for uid tid C = [].
Proof.
  unfold find_certificate, certificates_for.
  induction C as [|c C IH]; simpl; [reflexivity|].
  destruct (bool_decide _); [discriminate | exact IH].
Qed.


(** A request that finds a certificate of the pair answers with it and
    writes nothing, whatever the environment and the Training collection. *)
Lemma post_certificate_existing env u tid T P C pr c :
  find_completed (user_id u) tid P = Some pr →
  find_certificate (user_id u) tid C = Some c →
  post_certificate env u tid T P C = (Ok (ref_of c), P, C).
Proof.
  intros HP HC. unfold post_certificate. rewrite HP, HC. reflexivity.
Qed.



(** C3: when the progress record of the pair is absent or its status is
    not 'completed', POST /:id/certificate answers 400 "Training must be
    completed before generating certificate" and leaves the certificate
    collection (and the progress store) unchanged. *)
Theorem certificate_requires_completion env u tid T P C :
  (∀ r, P !! (user_id u, tid) = Some r → status r ≠ completed) →
  post_certificate env u tid T P C
  = (Failure 400 "Training must be completed before generating certificate",
     P, C).
Proof.
  intros H. unfold post_certificate.
  rewrite (find_completed_None _ _ _ H). reflexivity.
Qed.

End Certificates.

(** ** The generic progress update *)

Section ProgressUpdate.

Implicit Types (P : ProgressStore) (r : TrainingProgress) (p : float).

Lemma clamp_range p :
  is_nan p = false → JS.le 0 (clamp p) ∧ JS.le (clamp p) 100.
Proof.
  intros Hp. unfold clamp.
  assert (Hm : is_nan (JS.Math_max 0 p) = false).
  { destruct (JSFacts.Math_max_number 0 p eq_refl Hp) as [-> | ->];
      [reflexivity | exact Hp]. }
  split.
  - destruct (JSFacts.Math_min_number 100 _ eq_refl Hm) as [-> | ->].
    + reflexivity.
    + apply JSFacts.Math_max_le_l; [reflexivity | exact Hp].
  - apply JSFacts.Math_min_le_l; [reflexivity | exact Hm].
Qed.

Lemma clamp_above p : JS.le 100 p → clamp p = 100%float.
Proof.
  intros H. destruct (JSFacts.le_number _ _ H) as [_ Hp].
  assert (H0 : (0 <? p)%float = true)
    by (apply (JSFacts.lt_le_trans 0 100 p); [reflexivity | exact H]).
  unfold clamp, JS.Math_max. rewrite Hp, H0. cbn [is_nan orb].
  change (is_nan 0 || false) with false. cbv iota.
  unfold JS.Math_min. rewrite Hp. change (is_nan 100 || false) with false.
  cbv iota.
  destruct (100 <? p)%float eqn:E1; [reflexivity|].
  rewrite (JSFacts.le_not_lt _ _ H).
  change (JS.is_negative_zero 100) with false. cbv iota.
  symmetry. apply JSFacts.eqb_eq; [|reflexivity].
  apply JSFacts.le_antisym_eqb; [exact H|].
  apply JSFacts.not_lt_ge; [reflexivity | exact Hp | exact E1].
Qed.

Lemma clamp_below p : JS.le p 0 → clamp p = 0%float.
Proof.
  intros H. destruct (JSFacts.le_number _ _ H) as [Hp _].
  unfold clamp, JS.Math_max. rewrite Hp.
  change (is_nan 0 || false) with false. cbv iota.
  rewrite (JSFacts.le_not_lt _ _ H).
  change (JS.is_negative_zero 0) with false.
  destruct (p <? 0)%float; reflexivity.
Qed.

Lemma clamp_inside p :
  JS.le 0 p → JS.le p 100 → (clamp p =? p)%float = true.
Proof.
  intros H0 H100. destruct (JSFacts.le_number _ _ H0) as [_ Hp].
  assert (Hpp : (p =? p)%float = true)
    by (apply JSFacts.le_antisym_eqb; apply JSFacts.le_refl; exact Hp).
  unfold clamp, JS.Math_max. rewrite Hp.
  change (is_nan 0 || false) with false. cbv iota.
  rewrite (JSFacts.le_not_lt _ _ H0).
  change (JS.is_negative_zero 0) with false.
  destruct (0 <? p)%float eqn:E.
  - unfold JS.Math_min. rewrite Hp. change (is_nan 100 || false) with false.
    cbv iota. rewrite (JSFacts.le_not_lt _ _ H100).
    change (JS.is_negative_zero 100) with false.
    destruct (p <? 100)%float; exact Hpp.
  - change (JS.Math_min 100 0) with 0%float.
    apply JSFacts.le_antisym_eqb; [exact H0|].
    apply JSFacts.not_lt_ge; [reflexivity | exact Hp | exact E].
Qed.

(** C10: on an existing progress record and a numeric input [p],
    PUT /:id/progress stores progress = min(100, max(0, p)), a value
    between 0 and 100: 0 for p <= 0, p itself for p between 0 and 100, and
    100 for p >= 100.  When the stored value is 100 the handler sets
    status 'completed' and completedAt, and otherwise leaves both alone.
    It never reads the course or its quiz and never writes quizPassed, so
    a record whose quizPassed is false reaches 'completed' this way. *)
Lemma progress_valid_range (v : float) :
  JS.le 0 v → JS.le v 100 → progress_valid v = true.
Proof.
  intros H0 H100. destruct (JSFacts.le_number _ _ H0) as [_ Hv].
  unfold progress_valid, Number_cast, JS.ge. unfold JS.le in H0, H100.
  rewrite Hv, H0, H100. reflexivity.
Qed.

Lemma progress_valid_NaN (v : float) : is_nan v = true → progress_valid v = false.
Proof. intros H. unfold progress_valid, Number_cast. rewrite H. reflexivity. Qed.

Theorem put_progress_clamps_and_completes (now : Z) (uid tid : string) p P r :
  P !! (uid, tid) = Some r →
  is_nan p = false →
  ∃ r',
    put_progress now uid tid p P = (Ok r', <[(uid, tid) := r']> P)
    ∧ progress r' = JS.Math_min 100 (JS.Math_max 0 p)
    ∧ JS.le 0 (progress r') ∧ JS.le (progress r') 100
    ∧ (JS.le p 0 → progress r' = 0%float)
    ∧ (JS.le 0 p → JS.le p 100 → (progress r' =? p)%float = true)
    ∧ (JS.le 100 p → progress r' = 100%float)
    ∧ quizPassed r' = quizPassed r
    ∧ quizAttempts r' = quizAttempts r
    ∧ ((progress r' =? 100)%float = true →
         status r' = completed ∧ completedAt r' = Some now)
    ∧ ((progress r' =? 100)%float = false →
         status r' = status r ∧ completedAt r' = completedAt r).
Proof.
  intros HP Hp. unfold put_progress. rewrite HP. cbn zeta.
  cbn [progress set_lastAccessedAt set_progress]. fold (clamp p).
  destruct (clamp_range p Hp) as [Hlo Hhi].
  rewrite (progress_valid_range _ Hlo Hhi). unfold save_and_answer.
  eexists. split; [reflexivity|].
  destruct (JS.strict_eq (clamp p) 100) eqn:E; cbn.
  - split; [reflexivity|]. split; [exact Hlo|]. split; [exact Hhi|].
    split; [exact (clamp_below p)|]. split; [exact (clamp_inside p)|].
    split; [exact (clamp_above p)|]. split; [reflexivity|].
    split; [reflexivity|]. split; [intros _; split; reflexivity|].
    unfold JS.strict_eq in E. intros Hx. congruence.
  - split; [reflexivity|]. split; [exact Hlo|]. split; [exact Hhi|].
    split; [exact (clamp_below p)|]. split; [exact (clamp_inside p)|].
    split; [exact (clamp_above p)|]. split; [reflexivity|].
    split; [reflexivity|]. split; [|intros _; split; reflexivity].
    unfold JS.strict_eq in E. intros Hx. congruence.
Qed.

(** An input that is NaN (a body without [progress], or with one that is
    no number) is clamped to NaN, which the path refuses: the request
    ends in the 500 response and nothing is written. *)
Lemma put_progress_NaN (now : Z) (uid tid : string) p P r :
  P !! (uid, tid) = Some r → is_nan p = true →
  put_progress now uid tid p P = (Failure 500 "Server error", P).
Proof.
  intros HP Hp. unfold put_progress. rewrite HP. cbn zeta.
  cbn [progress set_lastAccessedAt set_progress].
  rewrite progress_valid_NaN; [reflexivity|].
  unfold JS.Math_max. rewrite Hp, orb_true_r. reflexivity.
Qed.

(** A missing record is a 404 and nothing is written. *)
Lemma put_progress_missing (now : Z) (uid tid : string) p P :
  P !! (uid, tid) = None →
  put_progress now uid tid p P = (Failure 404 "Training progress not found", P).
Proof. intros HP. unfold put_progress. rewrite HP. reflexivity. Qed.

End ProgressUpdate.

(** ** Quiz eligibility *)

Section Eligibility.

Implicit Types (r : TrainingProgress) (t : Training) (q : Quiz).

(** A Number that is 1 or more is truthy. *)
Lemma truthy_at_least_one (m : float) :
  JS.ge m 1 = true → JS.truthy m = true.
Proof.
  unfold JS.ge. intros H. change ((1 <=? m)%float = true) with (JS.le 1 m) in H.
  destruct (JSFacts.le_number _ _ H) as [_ Hm].
  unfold JS.truthy. rewrite Hm. cbn [orb].
  destruct (is_zero m) eqn:Ez; [|reflexivity]. exfalso.
  unfold is_zero in Ez.
  destruct (JSFacts.eqb_le _ _ Ez) as [Hle _].
  pose proof (JSFacts.le_trans _ _ _ H Hle) as Habs.
  discriminate Habs.
Qed.

Lemma attemptLimit_schema q :
  (∀ m, maxAttempts q = Some m → JS.ge m 1 = true) →
  attemptLimit q = match maxAttempts q with Some m => m | None => 3%float end.
Proof.
  intros H. unfold attemptLimit.
  destruct (maxAttempts q) as [m|]; [|reflexivity].
  unfold JS.or_else. rewrite (truthy_at_least_one m (H m eq_refl)). reflexivity.
Qed.

Lemma lt_equal_false (a b : float) : (a =? b)%float = true → JS.lt a b = false.
Proof.
  intros H. destruct (JSFacts.eqb_le _ _ H) as [_ Hba].
  exact (JSFacts.le_not_lt _ _ Hba).
Qed.

(** The clauses of [canTakeQuiz] for a training with the object [quiz]:
    false when the training has video content and the record's
    videoCompleted is false; otherwise, when quizPassed is true it is the
    quiz's allowRetakes flag, and when quizPassed is false it is
    [attemptCount < maxAttempts], with 3 for an unset maxAttempts (the
    schema keeps a set maxAttempts at 1 or more).  Without a training, or
    with an object that has no property [quiz], it is false. *)
Lemma canTakeQuiz_clauses r t q :
  quiz t = Some q →
  (∀ m, maxAttempts q = Some m → JS.ge m 1 = true) →
  let limit := match maxAttempts q with Some m => m | None => 3%float end in
  (hasVideoContent t = true → videoCompleted r = false →
     canTakeQuiz r (Some t) = false)
  ∧ (hasVideoContent t = false ∨ videoCompleted r = true →
     quizPassed r = true → canTakeQuiz r (Some t) = allowRetakes q)
  ∧ (hasVideoContent t = false ∨ videoCompleted r = true →
     quizPassed r = false →
     canTakeQuiz r (Some t) = (JS.of_nat (attemptCount r) <? limit)%float)
  ∧ (quizPassed r = false →
     (JS.of_nat (attemptCount r) =? limit)%float = true →
     canTakeQuiz r (Some t) = false)
  ∧ canTakeQuiz r None = false
  ∧ (∀ t', quiz t' = None → canTakeQuiz r (Some t') = false).
Proof.
  intros Hq Hm limit. unfold canTakeQuiz. rewrite Hq.
  rewrite (attemptLimit_schema q Hm). fold limit.
  split; [|split; [|split; [|split; [|split]]]].
  - intros -> ->. reflexivity.
  - intros [-> | ->] ->; [reflexivity|]. rewrite andb_false_r. reflexivity.
  - intros [-> | ->] ->; [reflexivity|]. rewrite andb_false_r. reflexivity.
  - intros -> Hs. rewrite (lt_equal_false _ _ Hs).
    destruct (hasVideoContent t && negb (videoCompleted r)); reflexivity.
  - reflexivity.
  - intros t' ->. reflexivity.
Qed.

(** [canTakeQuiz] never reads the questions of the quiz. *)
Lemma canTakeQuiz_ignores_questions r t q (qs : list Question) :
  quiz t = Some q →
  canTakeQuiz r
    (Some {| title := title t; category := category t; duration := duration t;
             content := content t;
             quiz := Some {| questions := qs; passingScore := passingScore q;
                             allowRetakes := allowRetakes q;
                             maxAttempts := maxAttempts q |};
             targetAudience := targetAudience t;
             specificDepartments := specificDepartments t;
             specificRoles := specificRoles t;
             departments := departments t; roles := roles t |})
  = canTakeQuiz r (Some t).
Proof. intros Hq. unfold canTakeQuiz, hasVideoContent. rewrite Hq. reflexivity. Qed.

(** C6: [canTakeQuiz] tells a course without a quiz by [!training.quiz]
    alone.  A document of the Training model always holds the nested
    object, so on the seeded course 'Workplace Safety Guidelines', which
    has no quiz (no question, the schema's defaults), the method does not
    answer false: for a record of u1 whose video is watched it answers
    true, with no attempt and with two failed attempts, and only the third
    failed attempt turns the answer to false.  The video-progress route
    tests the same document with [questions.length === 0] as well and
    finds that it has no quiz. *)
Theorem canTakeQuiz_true_without_questions :
  quiz workplace_safety = Some default_quiz
  ∧ questions default_quiz = []
  ∧ no_quiz workplace_safety = true
  ∧ canTakeQuiz (set_videoCompleted true (new_progress 0 "u1" "t3"))
      (Some workplace_safety) = true
  ∧ canTakeQuiz
      (set_quizAttempts (AttemptList [failed_attempt 1; failed_attempt 2])
         (set_videoCompleted true (new_progress 0 "u1" "t3")))
      (Some workplace_safety) = true
  ∧ canTakeQuiz
      (set_quizAttempts
         (AttemptList [failed_attempt 1; failed_attempt 2; failed_attempt 3])
         (set_videoCompleted true (new_progress 0 "u1" "t3")))
      (Some workplace_safety) = false.
Proof. vm_compute. repeat split; reflexivity. Qed.

(** Three attempts of three used up, never passed: not eligible; and a
    fresh record on a course with video content that is not yet watched:
    not eligible with no attempt used; with the video watched: eligible. *)
Lemma canTakeQuiz_examples :
  canTakeQuiz three_failed (Some data_protection) = false
  ∧ canTakeQuiz (new_progress 0 "u1" "t1") (Some data_protection) = false
  ∧ canTakeQuiz (set_videoCompleted true (new_progress 0 "u1" "t1"))
      (Some data_protection) = true
  ∧ canTakeQuiz three_failed (Some workplace_safety) = false.
Proof. vm_compute. repeat split; reflexivity. Qed.

End Eligibility.

(** ** The access check *)

Section AccessGate.

Implicit Types (t : Training) (u : User).

(** On a document of the Training model the check passes for the
    audience 'all' and throws for every other audience. *)
Lemma hasAccess_of_schema t u :
  of_schema t →
  hasAccess t u = if String.eqb (targetAudience t) "all" then Some true else None.
Proof.
  intros [Hd _]. unfold hasAccess. rewrite Hd. reflexivity.
Qed.

(** When both properties hold arrays the check is the disjunction of the
    three tests. *)
Lemma hasAccess_with_arrays t u ds rs :
  departments t = Some ds → roles t = Some rs →
  hasAccess t u
  = Some (bool_decide (targetAudience t = "all"
                       ∨ department u ∈ ds ∨ role u ∈ rs)).
Proof.
  intros Hd Hr. unfold hasAccess. rewrite Hd, Hr.
  destruct (String.eqb (targetAudience t) "all") eqn:E.
  - apply String.eqb_eq in E. rewrite bool_decide_eq_true_2; [reflexivity|].
    left; exact E.
  - apply String.eqb_neq in E.
    destruct (bool_decide (department u ∈ ds)) eqn:D.
    + apply bool_decide_eq_true_1 in D.
      rewrite bool_decide_eq_true_2; [reflexivity|]. right; left; exact D.
    + apply bool_decide_eq_false_1 in D. f_equal.
      apply bool_decide_ext. split; [intros H; right; right; exact H|].
      intros [H | [H | H]]; [contradiction | contradiction | exact H].
Qed.

(** The guarded check of the materials router never throws: on a document
    of the model it is the test of the audience 'all'. *)
Lemma isAudience_of_schema t u :
  of_schema t → isAudience t u = String.eqb (targetAudience t) "all".
Proof.
  intros [Hd Hr]. unfold isAudience. rewrite Hd, Hr.
  rewrite !orb_false_r. reflexivity.
Qed.

End AccessGate.

(** C8: the access check of GET /:id reads [training.departments] and
    [training.roles], while the Training schema stores the audience sets
    as [specificDepartments] and [specificRoles].  For the seeded course
    (audience 'specific', specificDepartments = ['Finance']) and a user of
    department Finance, whose department is in the course's department
    set, the handler does not grant access: [includes] is called on
    [undefined] and the request ends in the 500 response. *)
Theorem access_check_misses_department_set :
  of_schema finance_training
  ∧ department finance_employee ∈ specificDepartments finance_training
  ∧ hasAccess finance_training finance_employee = None
  ∧ get_training finance_employee "t4" {["t4" := finance_training]} ∅
    = Failure 500 "Server error".
Proof.
  split; [split; reflexivity|]. split; [apply list_elem_of_here|].
  split; [reflexivity|].
  unfold get_training. rewrite lookup_singleton_eq. reflexivity.
Qed.

(** ** The model methods of a progress document *)

Section ProgressMethods.

Implicit Types (r : TrainingProgress) (l : list QuizAttempt).

(** [addQuizAttempt] on a schema document appends one entry, numbered one
    past the previous count and carrying the given answers and time, and
    keeps the larger of bestScore and the new score. *)
Lemma addQuizAttempt_records (now : Z) r l ans sc pass spent :
  quizAttempts r = AttemptList l →
  ∃ r',
    addQuizAttempt now r ans sc pass spent = Some r'
    ∧ quizAttempts r'
      = AttemptList
          (l ++ [{| attemptNumber := length l + 1; answers := ans; score := sc;
                    passed := pass; timeSpent := spent; submittedAt := now |}])
    ∧ bestScore r' = (if JS.gt sc (bestScore r) then sc else bestScore r).
Proof.
  intros Hl. unfold addQuizAttempt. rewrite Hl. cbn zeta.
  eexists. split; [reflexivity|].
  cbn [bestScore set_quizAttempts].
  destruct pass, (JS.gt sc (bestScore r)); split; reflexivity.
Qed.

(** A passing attempt sets the four completion fields together. *)
Lemma addQuizAttempt_pass (now : Z) r l ans sc spent :
  quizAttempts r = AttemptList l →
  ∃ r',
    addQuizAttempt now r ans sc true spent = Some r'
    ∧ quizPassed r' = true ∧ status r' = completed
    ∧ progress r' = 100%float ∧ completedAt r' = Some now.
Proof.
  intros Hl. unfold addQuizAttempt. rewrite Hl. cbn zeta.
  eexists. split; [reflexivity|]. repeat split; reflexivity.
Qed.

(** A failing attempt leaves the four completion fields as they were. *)
Lemma addQuizAttempt_fail_keeps (now : Z) r l ans sc spent :
  quizAttempts r = AttemptList l →
  ∃ r',
    addQuizAttempt now r ans sc false spent = Some r'
    ∧ quizPassed r' = quizPassed r ∧ status r' = status r
    ∧ progress r' = progress r ∧ completedAt r' = completedAt r.
Proof.
  intros Hl. unfold addQuizAttempt. rewrite Hl. cbn zeta.
  eexists. split; [reflexivity|].
  cbn [bestScore set_quizAttempts].
  destruct (JS.gt sc (bestScore r)); repeat split; reflexivity.
Qed.

Lemma addQuizAttempt_numbered (now : Z) r l ans sc pass spent r' l' :
  quizAttempts r = AttemptList l → numbered l →
  addQuizAttempt now r ans sc pass spent = Some r' →
  quizAttempts r' = AttemptList l' → numbered l'.
Proof.
  intros Hl Hn Ha Hl'.
  destruct (addQuizAttempt_records now r l ans sc pass spent Hl) as (r2 & E & Hq & _).
  rewrite E in Ha. injection Ha as <-. rewrite Hq in Hl'. injection Hl' as <-.
  intros i a Hi. destruct (decide (i < length l)) as [Hlt | Hge].
  - rewrite lookup_app_l in Hi by exact Hlt. exact (Hn i a Hi).
  - rewrite lookup_app_r in Hi by lia.
    destruct (i - length l) as [|k] eqn:Ek; simpl in Hi; [|discriminate].
    injection Hi as <-. simpl. lia.
Qed.

(** [updateVideoProgress] never lowers videoWatchTime or progress, as long
    as no NaN is involved: the stored values and the reported time are
    numbers and so is the floor of half the percentage (the report is not
    0 seconds of 0). *)
Lemma updateVideoProgress_monotone (now : Z) r (watchTime totalDuration : float) :
  is_nan (videoWatchTime r) = false → is_nan (progress r) = false →
  is_nan watchTime = false →
  is_nan (JS.Math_floor (watchTime / totalDuration * 100 * 0.5)%float) = false →
  let r' := updateVideoProgress now r watchTime totalDuration in
  JS.le (videoWatchTime r) (videoWatchTime r')
  ∧ JS.le (progress r) (progress r')
  ∧ videoWatchTime r' = JS.Math_max (videoWatchTime r) watchTime
  ∧ is_nan (videoWatchTime r') = false ∧ is_nan (progress r') = false.
Proof.
  intros Hv Hp Hw Hf. unfold updateVideoProgress. cbn zeta.
  assert (Hv' : is_nan (JS.Math_max (videoWatchTime r) watchTime) = false).
  { destruct (JSFacts.Math_max_number _ _ Hv Hw) as [-> | ->]; assumption. }
  assert (H50 : is_nan (JS.Math_max (progress r) 50) = false).
  { destruct (JSFacts.Math_max_number _ 50 Hp eq_refl) as [-> | ->];
      [assumption | reflexivity]. }
  assert (Hfl : is_nan (JS.Math_max (progress r)
                  (JS.Math_floor (watchTime / totalDuration * 100 * 0.5)%float))
                = false).
  { destruct (JSFacts.Math_max_number _ _ Hp Hf) as [-> | ->]; assumption. }
  destruct (JS.ge _ _);
    match goal with |- context [decide ?X] => destruct (decide X) end; cbn;
    (split; [apply JSFacts.Math_max_le_l; assumption|]);
    (split; [apply JSFacts.Math_max_le_l; solve [assumption | reflexivity]|]);
    (split; [reflexivity|]); split; assumption.
Qed.

(** At 90 percent or more [updateVideoProgress] marks the video completed
    and raises progress to 50 or more; it moves the status from
    'not_started' to 'in_progress' and to nothing else. *)
Lemma updateVideoProgress_threshold (now : Z) r (watchTime totalDuration : float) :
  JS.ge (watchTime / totalDuration * 100)%float 90 = true →
  let r' := updateVideoProgress now r watchTime totalDuration in
  videoCompleted r' = true
  ∧ progress r' = JS.Math_max (progress r) 50
  ∧ status r' = (if decide (status r = not_started) then in_progress else status r)
  ∧ completedAt r' = completedAt r.
Proof.
  intros H. unfold updateVideoProgress. cbn zeta. rewrite H. cbn.
  destruct (decide (status r = not_started)); repeat split; reflexivity.
Qed.

(** The same over any run of clean reports: the stored values at the end
    are not below the ones at the start. *)
Lemma replay_monotone (now : Z) (reports : list (float * float)) r :
  is_nan (videoWatchTime r) = false → is_nan (progress r) = false →
  Forall clean_report reports →
  JS.le (videoWatchTime r) (videoWatchTime (replay now r reports))
  ∧ JS.le (progress r) (progress (replay now r reports)).
Proof.
  intros Hv Hp Hall. revert r Hv Hp.
  induction Hall as [|[w d] reports [Hw Hf] _ IH]; intros r Hv Hp.
  - split; apply JSFacts.le_refl; assumption.
  - cbn [replay fold_left fst snd] in *.
    destruct (updateVideoProgress_monotone now r w d Hv Hp Hw Hf)
      as (Hv1 & Hp1 & _ & Hv' & Hp').
    destruct (IH (updateVideoProgress now r w d) Hv' Hp') as (Hv2 & Hp2).
    split; eapply JSFacts.le_trans; eassumption.
Qed.

(** Once a document is passed and completed, no further attempt, passing
    or failing, takes quizPassed, the status or the percentage back. *)
Lemma addQuizAttempt_completed_stable (now : Z) r ans sc pass spent r' :
  quizPassed r = true → status r = completed → progress r = 100%float →
  addQuizAttempt now r ans sc pass spent = Some r' →
  quizPassed r' = true ∧ status r' = completed ∧ progress r' = 100%float.
Proof.
  intros Hq Hs Hp. unfold addQuizAttempt.
  destruct (quizAttempts r) as [l|]; [|discriminate].
  cbn zeta. cbn [bestScore set_quizAttempts]. intros E. injection E as <-.
  destruct pass, (JS.gt sc (bestScore r)); cbn; auto.
Qed.

End ProgressMethods.

(** ** Quiz submission *)

Section QuizScoring.

Implicit Types (qs : list Question) (given : list JS.jsval).

Lemma count_correct_from qs given (k acc : nat) :
  count_correct qs k given acc
  = acc
    + length
        (List.filter
           (fun i =>
              match qs !! (i - k) with
              | Some q => JS.strict_eq_val (JS.index given i) (correctAnswer q)
              | None => false
              end)
           (List.seq k (length qs))).
Proof.
  revert k acc. induction qs as [|q rest IH]; intros k acc.
  - simpl. lia.
  - cbn [count_correct length List.seq List.filter].
    rewrite IH. rewrite Nat.sub_diag. cbn [lookup list_lookup].
    rewrite (List.filter_ext_in
               (fun i =>
                  match (q :: rest) !! (i - k) with
                  | Some q0 => JS.strict_eq_val (JS.index given i) (correctAnswer q0)
                  | None => false
                  end)
               (fun i =>
                  match rest !! (i - S k) with
                  | Some q0 => JS.strict_eq_val (JS.index given i) (correctAnswer q0)
                  | None => false
                  end)).
    + destruct (JS.strict_eq_val (JS.index given k) (correctAnswer q)); simpl; lia.
    + intros i Hi. apply List.in_seq in Hi.
      replace (i - k) with (S (i - S k)) by lia. reflexivity.
Qed.

(** The loop of the route counts what the specification counts. *)
Lemma count_correct_correctCount qs given :
  count_correct qs 0 given 0 = correctCount qs given.
Proof.
  rewrite count_correct_from. unfold correctCount. simpl.
  f_equal. apply List.filter_ext. intros i. rewrite Nat.sub_0_r. reflexivity.
Qed.

Lemma correctCount_le qs given : (correctCount qs given ≤ length qs)%nat.
Proof.
  unfold correctCount.
  etransitivity; [apply List.filter_length_le|]. rewrite List.length_seq. lia.
Qed.

(** Every quiz of up to 100 questions, by evaluating the binary64
    arithmetic on each pair. *)
Lemma nearest_percent_upto_100 : nearest_percent_upto 100 = true.
Proof. vm_compute. reflexivity. Qed.

Lemma quiz_score_nearest (c n : nat) :
  (1 ≤ n ≤ 100)%nat → (c ≤ n)%nat →
  ∃ s : Z,
    JS.integer_value (quiz_score c n) = Some s
    ∧ (0 ≤ s ≤ 100)%Z
    ∧ (Z.abs (2 * Z.of_nat n * s - 200 * Z.of_nat c) ≤ Z.of_nat n)%Z.
Proof.
  intros Hn Hc.
  assert (In n (List.seq 1 100)) as Hin by (apply List.in_seq; lia).
  assert (In c (List.seq 0 (S n))) as Hic by (apply List.in_seq; lia).
  pose proof (proj1 (forallb_forall _ _) nearest_percent_upto_100 n Hin) as Hrow.
  pose proof (proj1 (forallb_forall _ _) Hrow c Hic) as H.
  unfold nearest_percent in H.
  destruct (JS.integer_value (quiz_score c n)) as [s|]; [|discriminate].
  exists s. split; [reflexivity|].
  apply andb_prop in H as [H H3]. apply andb_prop in H as [H1 H2]. lia.
Qed.

(** The three scores of the specification's examples, and the tie 57.5
    of 23 right out of 40, which binary64 division and multiplication
    place just below the half. *)
Lemma quiz_score_examples :
  quiz_score 3 4 = 75%float ∧ quiz_score 2 2 = 100%float
  ∧ quiz_score 1 8 = 13%float ∧ quiz_score 23 40 = 57%float
  ∧ is_nan (quiz_score 0 0) = true.
Proof. vm_compute. repeat split; reflexivity. Qed.

End QuizScoring.

Section QuizSubmission.

Variable array_toString : list QuizAttempt → string.

Implicit Types (T : TrainingStore) (P : ProgressStore) (given : list JS.jsval).

(** Whatever the attempts of the record are, the value that the route
    assigns to [quizAttempts] is a string, which the array path refuses. *)
Lemma attempts_plus_one_refused (v : attempts_val) :
  attempts_accepted (attempts_plus_one array_toString v) = false.
Proof. destruct v; reflexivity. Qed.

(** A submission for a pair that has a progress record, on a training
    with the object [quiz]: the save is refused, the handler answers 500
    and nothing is written, whatever the answers. *)
Lemma quiz_submit_existing (now : Z) (uid tid : string) given T P t q r :
  T !! tid = Some t → quiz t = Some q → P !! (uid, tid) = Some r →
  quiz_submit array_toString now uid tid given T P
  = (Failure 500 "Server error", P).
Proof.
  intros HT Hq HP. unfold quiz_submit. rewrite HT, Hq, HP. cbn zeta.
  cbn [quizAttempts set_quizAttempts].
  rewrite attempts_plus_one_refused, andb_false_r. reflexivity.
Qed.

(** A submission for a pair without a progress record, on a training
    whose quiz has n >= 1 questions: the handler answers with the score
    Math.round(correctCount / n * 100), where correctCount is the number
    of positions at which the submitted answer equals the question's
    correct-option index (for up to 100 questions: an integer between 0
    and 100 within one half of the exact percentage), and with passed
    exactly when the score is >= passingScore; it writes nothing. *)
Lemma quiz_submit_without_record (now : Z) (uid tid : string) given T P t q :
  T !! tid = Some t →
  quiz t = Some q →
  P !! (uid, tid) = None →
  (1 ≤ length (questions q))%nat →
  let n := length (questions q) in
  let c := correctCount (questions q) given in
  ∃ res,
    quiz_submit array_toString now uid tid given T P = (Ok res, P)
    ∧ res_score res = JS.Math_round (JS.of_nat c / JS.of_nat n * 100)%float
    ∧ ((n ≤ 100)%nat →
       ∃ s : Z,
         JS.integer_value (res_score res) = Some s
         ∧ (0 ≤ s ≤ 100)%Z
         ∧ (Z.abs (2 * Z.of_nat n * s - 200 * Z.of_nat c) ≤ Z.of_nat n)%Z)
    ∧ res_passed res = (passingScore q <=? res_score res)%float.
Proof.
  intros HT Hq HP Hn n c.
  unfold quiz_submit. rewrite HT, Hq, HP. cbn zeta.
  rewrite count_correct_correctCount. fold n c.
  eexists. split; [reflexivity|].
  cbn [res_score res_passed].
  split; [reflexivity|]. split; [|reflexivity].
  intros Hn100. apply quiz_score_nearest; [lia|].
  apply correctCount_le.
Qed.

(** On a training of the model without questions the handler does not
    answer 404: it divides 0 by 0, and for a pair without a record it
    answers with a score that is NaN and passed = false. *)
Lemma quiz_submit_without_questions (now : Z) (uid tid : string) given :
  ∃ res,
    quiz_submit array_toString now uid tid given {[tid := workplace_safety]} ∅
    = (Ok res, ∅)
    ∧ is_nan (res_score res) = true ∧ res_passed res = false.
Proof.
  unfold quiz_submit. rewrite lookup_singleton_eq, lookup_empty.
  cbn [quiz workplace_safety default_quiz questions]. cbn zeta.
  eexists. split; [reflexivity|]. split; vm_compute; reflexivity.
Qed.

End QuizSubmission.

(** ** The video-progress route *)

Section VideoRoute.

Implicit Types (T : TrainingStore) (P : ProgressStore).

(** A percentage that is 0 or more passes the checks of [progress] once
    it is capped at 95. *)
Lemma capped_valid (x : float) :
  JS.le 0 x → progress_valid (JS.Math_min 95 x) = true.
Proof.
  intros H0. destruct (JSFacts.le_number _ _ H0) as [_ Hx].
  pose proof (JSFacts.Math_min_le_l 95 x eq_refl Hx) as Hle.
  destruct (JSFacts.Math_min_number 95 x eq_refl Hx) as [E | E].
  - rewrite E. reflexivity.
  - rewrite E in Hle |- *. apply progress_valid_range; [exact H0|].
    apply (JSFacts.le_trans x 95 100); [exact Hle | reflexivity].
Qed.

(** A percentage that is negative or NaN does not pass them. *)
Lemma capped_invalid (x : float) :
  (0 <=? x)%float = false → progress_valid (JS.Math_min 95 x) = false.
Proof.
  intros H0. unfold progress_valid, Number_cast.
  destruct (is_nan (JS.Math_min 95 x)) eqn:En; [reflexivity|].
  destruct (is_nan x) eqn:Ex.
  { unfold JS.Math_min in En. rewrite Ex, orb_true_r in En. discriminate. }
  destruct (JSFacts.Math_min_number 95 x eq_refl Ex) as [E | E].
  - exfalso.
    pose proof (JSFacts.Math_min_le_l x 95 Ex eq_refl) as Hle.
    assert (Hlt : (x <? 0)%float = true).
    { destruct (x <? 0)%float eqn:El; [reflexivity|].
      pose proof (JSFacts.not_lt_ge x 0 Ex eq_refl El) as Hge.
      unfold JS.le in Hge. congruence. }
    unfold JS.Math_min in E. rewrite Ex in E. cbn [is_nan orb] in E.
    change (is_nan 95 || false) with false in E. cbv iota in E.
    assert (H95 : (95 <? x)%float = false).
    { apply JSFacts.le_not_lt.
      apply (JSFacts.le_trans x 0 95); [apply JSFacts.lt_le; exact Hlt | reflexivity]. }
    rewrite H95 in E.
    assert (Hx95 : (x <? 95)%float = true).
    { apply (JSFacts.lt_le_trans x 0 95); [exact Hlt | reflexivity]. }
    rewrite Hx95 in E. rewrite E in Hlt. vm_compute in Hlt. discriminate Hlt.
  - rewrite E. unfold JS.ge. rewrite H0. reflexivity.
Qed.

(** A report without the [completed] flag, with a watch time that is a
    number and a percentage that is not negative, stores the reported
    time as it is and, for a positive total, the percentage capped at
    95. *)
Lemma video_progress_report (now : Z) (uid tid : string)
    (watchTime totalDuration : float) T P :
  JS.gt totalDuration 0%float = true →
  is_nan watchTime = false →
  JS.le 0 (watchTime / totalDuration * 100)%float →
  ∃ r',
    video_progress now uid tid watchTime totalDuration false T P
    = (Ok r', <[(uid, tid) := r']> P)
    ∧ videoWatchTime r' = watchTime
    ∧ progress r'
      = JS.Math_min 95 (watchTime / totalDuration * 100)%float
    ∧ videoCompleted r' = false
    ∧ status r' = status (video_document now uid tid P)
    ∧ completedAt r' = completedAt (video_document now uid tid P).
Proof.
  intros Hd Hw Hp. unfold video_progress. cbn zeta.
  cbn [body_truthy]. cbv iota. rewrite Hd.
  fold (video_document now uid tid P).
  cbn [progress set_progress]. rewrite (capped_valid _ Hp).
  unfold Number_cast. rewrite Hw. cbn.
  eexists. split; [reflexivity|]. repeat split; reflexivity.
Qed.

(** A report with the boolean [completed] flag on a training without
    questions completes the record, whatever the reported times (the
    watch time being a number). *)
Lemma video_progress_completed_no_quiz (now : Z) (uid tid : string)
    (watchTime totalDuration : float) T P t :
  T !! tid = Some t → no_quiz t = true → is_nan watchTime = false →
  ∃ r',
    video_progress now uid tid watchTime totalDuration true T P
    = (Ok r', <[(uid, tid) := r']> P)
    ∧ videoCompleted r' = true ∧ progress r' = 100%float
    ∧ status r' = completed ∧ completedAt r' = Some now.
Proof.
  intros HT Hn Hw. unfold video_progress. cbn zeta.
  cbn [body_truthy]. cbv iota. rewrite HT, Hn.
  unfold Number_cast. rewrite Hw. cbn.
  eexists. split; [reflexivity|]. repeat split; reflexivity.
Qed.

(** With the flag and a training that has questions the record reaches
    progress 100 and keeps its status. *)
Lemma video_progress_completed_with_quiz (now : Z) (uid tid : string)
    (watchTime totalDuration : float) T P t :
  T !! tid = Some t → no_quiz t = false → is_nan watchTime = false →
  ∃ r',
    video_progress now uid tid watchTime totalDuration true T P
    = (Ok r', <[(uid, tid) := r']> P)
    ∧ videoCompleted r' = true ∧ progress r' = 100%float
    ∧ status r' = status (video_document now uid tid P).
Proof.
  intros HT Hn Hw. unfold video_progress. cbn zeta.
  cbn [body_truthy]. cbv iota. rewrite HT, Hn.
  fold (video_document now uid tid P).
  unfold Number_cast. rewrite Hw. cbn.
  eexists. split; [reflexivity|]. repeat split; reflexivity.
Qed.

(** The flag sent as the string 'false' is truthy: the handler takes the
    branch of a completed video and, on a training without questions,
    completes the record, while the Boolean path stores false.  A flag
    that the path does not cast, such as the number 2, ends the request in
    the 500 response. *)
Lemma video_progress_text_flag (now : Z) (uid tid : string)
    (watchTime totalDuration : float) T P t :
  T !! tid = Some t → no_quiz t = true → is_nan watchTime = false →
  (∃ r',
     video_progress now uid tid watchTime totalDuration (BText "false") T P
     = (Ok r', <[(uid, tid) := r']> P)
     ∧ videoCompleted r' = false ∧ progress r' = 100%float
     ∧ status r' = completed)
  ∧ video_progress now uid tid watchTime totalDuration (BNumber 2) T P
    = (Failure 500 "Server error", P).
Proof.
  intros HT Hn Hw. unfold video_progress. cbn zeta.
  change (body_truthy (BText "false")) with true.
  change (body_truthy (BNumber 2)) with true. cbv iota. rewrite HT, Hn.
  unfold Number_cast. rewrite Hw.
  change (videoCompleted_cast (BText "false")) with (Some false).
  change (videoCompleted_cast (BNumber 2)) with (@None bool). cbn.
  split; [|reflexivity].
  eexists. split; [reflexivity|]. repeat split; reflexivity.
Qed.

End VideoRoute.

(** ** Where the routes part from the model methods *)

Section RouteAgainstModel.

Variable array_toString : list QuizAttempt → string.

Lemma both_right_passes :
  JS.ge
    (quiz_score (count_correct (questions data_protection_quiz) 0 both_right 0)
       (length (questions data_protection_quiz)))
    (passingScore data_protection_quiz) = true.
Proof. vm_compute. reflexivity. Qed.

Lemma both_right_score :
  correctCount (questions data_protection_quiz) both_right = 2%nat
  ∧ quiz_score (count_correct (questions data_protection_quiz) 0 both_right 0)
      (length (questions data_protection_quiz)) = 100%float.
Proof. vm_compute. split; reflexivity. Qed.

(** C1: the handler computes the score and the verdict of the claim, but
    for a pair that has a progress record it does not get to answer with
    them.  On the seeded quiz (two questions, passing score 70) with both
    answers right, correctCount is 2, the score is
    Math.round(2 / 2 * 100) = 100 and 100 >= 70; the handler then assigns
    a string to [quizAttempts], the save is refused, the request is
    answered with 500 and the record of the pair is left as it was:
    in_progress, progress 0, no completedAt.  Only for a pair without a
    record does the response carry score 100 and passed = true, and then
    there is no record to complete. *)
Theorem passing_submission_is_not_stored :
  correctCount (questions data_protection_quiz) both_right = 2%nat
  ∧ JS.Math_round (JS.of_nat 2 / JS.of_nat 2 * 100)%float = 100%float
  ∧ JS.ge 100%float (passingScore data_protection_quiz) = true
  ∧ (∃ P' r',
       quiz_submit array_toString 5 "u1" "t1" both_right
         {["t1" := data_protection]}
         {[("u1", "t1") := new_progress 0 "u1" "t1"]}
       = (Failure 500 "Server error", P')
       ∧ P' !! ("u1", "t1") = Some r'
       ∧ status r' = in_progress ∧ progress r' = 0%float
       ∧ completedAt r' = None)
  ∧ quiz_submit array_toString 5 "u1" "t1" both_right
      {["t1" := data_protection]} ∅
    = (Ok {| res_score := 100%float; res_passed := true;
             res_passingScore := 70%float;
             res_message := "Quiz passed successfully!" |}, ∅).
Proof.
  split; [vm_compute; reflexivity|]. split; [vm_compute; reflexivity|].
  split; [vm_compute; reflexivity|]. split.
  - eexists. eexists. split.
    + apply (quiz_submit_existing array_toString 5 "u1" "t1" both_right _ _
               data_protection data_protection_quiz (new_progress 0 "u1" "t1"));
        [apply lookup_singleton_eq | reflexivity | apply lookup_singleton_eq].
    + split; [apply lookup_singleton_eq|]. repeat split; reflexivity.
  - unfold quiz_submit. rewrite lookup_singleton_eq, lookup_empty.
    cbn [quiz data_protection]. cbn zeta.
    rewrite (proj2 both_right_score). reflexivity.
Qed.

(** C4: a passing submission through POST /:id/quiz/submit (both answers
    of the seeded quiz right, score 100 against a passing score of 70)
    sets neither quizPassed nor status 'completed': the request ends in
    the 500 response and the stored record keeps quizPassed = false,
    status 'in_progress', progress 0 and no completedAt.  [addQuizAttempt]
    on the same record and the same passing result sets the four
    together.  A later failing submission on a completed record is
    answered with 500 as well and appends nothing. *)
Theorem passing_submission_sets_no_completion_field :
  (∃ P' r',
     quiz_submit array_toString 5 "u1" "t1" both_right
       {["t1" := data_protection]} {[("u1", "t1") := new_progress 0 "u1" "t1"]}
     = (Failure 500 "Server error", P')
     ∧ P' !! ("u1", "t1") = Some r'
     ∧ quizPassed r' = false
     ∧ status r' = in_progress ∧ status r' ≠ completed
     ∧ progress r' = 0%float ∧ completedAt r' = None)
  ∧ (∃ r'',
       addQuizAttempt 5 (new_progress 0 "u1" "t1") [] 100%float true 0%float
       = Some r''
       ∧ quizPassed r'' = true ∧ status r'' = completed
       ∧ progress r'' = 100%float ∧ completedAt r'' = Some 5%Z)
  ∧ quiz_submit array_toString 9 "u1" "t1" []
      {["t1" := data_protection]} {[("u1", "t1") := completed_record]}
    = (Failure 500 "Server error", {[("u1", "t1") := completed_record]}).
Proof.
  split; [|split].
  - eexists. eexists. split.
    + apply (quiz_submit_existing array_toString 5 "u1" "t1" both_right _ _
               data_protection data_protection_quiz (new_progress 0 "u1" "t1"));
        [apply lookup_singleton_eq | reflexivity | apply lookup_singleton_eq].
    + split; [apply lookup_singleton_eq|].
      split; [reflexivity|]. split; [reflexivity|].
      split; [discriminate|]. split; reflexivity.
  - eexists. split; [reflexivity|]. repeat split; reflexivity.
  - apply (quiz_submit_existing array_toString 9 "u1" "t1" [] _ _
             data_protection data_protection_quiz completed_record);
      [apply lookup_singleton_eq | reflexivity | apply lookup_singleton_eq].
Qed.

(** C9: POST /:id/quiz/submit records no attempt.  On a record with an
    empty attempt list it assigns the string [String([]) + "1"] to
    quizAttempts; the array path refuses it, the request ends in the 500
    response, and the stored record keeps its empty attempt list and its
    bestScore of 0 although the submission scored 100.  [addQuizAttempt]
    on the same record appends the entry numbered 1 that carries the
    answers and the time spent, and raises bestScore to 100. *)
Theorem submission_records_no_attempt (ans : list AnswerEntry) :
  attempts_plus_one array_toString (quizAttempts (new_progress 0 "u1" "t1"))
  = AttemptText (array_toString [])
  ∧ (∃ P' r',
       quiz_submit array_toString 5 "u1" "t1" both_right
         {["t1" := data_protection]}
         {[("u1", "t1") := new_progress 0 "u1" "t1"]}
       = (Failure 500 "Server error", P')
       ∧ P' !! ("u1", "t1") = Some r'
       ∧ quizAttempts r' = AttemptList []
       ∧ bestScore r' = 0%float)
  ∧ (∃ r'',
       addQuizAttempt 5 (new_progress 0 "u1" "t1") ans 100%float true 2%float
       = Some r''
       ∧ quizAttempts r''
         = AttemptList
             [{| attemptNumber := 1; answers := ans; score := 100%float;
                 passed := true; timeSpent := 2%float; submittedAt := 5 |}]
       ∧ bestScore r'' = 100%float).
Proof.
  split; [reflexivity|]. split.
  - eexists. eexists. split.
    + apply (quiz_submit_existing array_toString 5 "u1" "t1" both_right _ _
               data_protection data_protection_quiz (new_progress 0 "u1" "t1"));
        [apply lookup_singleton_eq | reflexivity | apply lookup_singleton_eq].
    + split; [apply lookup_singleton_eq|]. split; reflexivity.
  - eexists. split; [reflexivity|]. split; reflexivity.
Qed.

End RouteAgainstModel.

(** C5: two PUT /:id/video-progress reports for the same pair, 80 of 100
    seconds and then 10 of 100 seconds: the second one lowers the stored
    videoWatchTime from 80 to 10 and the stored progress from 80 to 10.
    The route assigns the reported values; [updateVideoProgress], given
    the same second report on the first record, keeps 80 for both. *)
Theorem video_reports_lower_stored_values :
  ∃ r1 P1 r2 P2,
    video_progress 1 "u1" "t1" 80 100 false {["t1" := data_protection]} ∅
    = (Ok r1, P1)
    ∧ video_progress 2 "u1" "t1" 10 100 false {["t1" := data_protection]} P1
      = (Ok r2, P2)
    ∧ P2 !! ("u1", "t1") = Some r2
    ∧ videoWatchTime r1 = 80%float ∧ progress r1 = 80%float
    ∧ videoWatchTime r2 = 10%float ∧ progress r2 = 10%float
    ∧ JS.lt (videoWatchTime r2) (videoWatchTime r1) = true
    ∧ JS.lt (progress r2) (progress r1) = true
    ∧ videoWatchTime (updateVideoProgress 2 r1 10 100) = 80%float
    ∧ progress (updateVideoProgress 2 r1 10 100) = 80%float.
Proof.
  destruct (video_progress_report 1 "u1" "t1" 80 100
              {["t1" := data_protection]} ∅ eq_refl eq_refl eq_refl)
    as (r1 & E1 & Hw1 & Hp1 & Hc1 & Hs1 & _).
  destruct (video_progress_report 2 "u1" "t1" 10 100
              {["t1" := data_protection]} (<[("u1", "t1") := r1]> ∅)
              eq_refl eq_refl eq_refl)
    as (r2 & E2 & Hw2 & Hp2 & _).
  exists r1, (<[("u1", "t1") := r1]> ∅), r2,
    (<[("u1", "t1") := r2]> (<[("u1", "t1") := r1]> ∅)).
  split; [exact E1|]. split; [exact E2|]. split; [apply lookup_insert_eq|].
  unfold updateVideoProgress. cbn zeta.
  rewrite Hw1, Hp1, Hw2, Hp2.
  repeat (split; [vm_compute; reflexivity|]).
  split.
  - destruct (decide _); cbn; rewrite ?Hw1; vm_compute; reflexivity.
  - destruct (decide _); cbn; rewrite ?Hp1, ?Hw1; vm_compute; reflexivity.
Qed.

(** ** Video completion on a course without a quiz *)

(** C7: on the seeded course without a quiz, a report of 95 of 100
    seconds (no [completed] flag in the body) does not complete the video:
    the route takes video completion from the client's flag alone, stores
    videoCompleted = false and leaves the record 'in_progress' with no
    completedAt.  [updateVideoProgress], whose comment reads 'Consider
    video completed if watched 90% or more', sets videoCompleted on the
    same report; it leaves the status 'in_progress' as well. *)
Theorem report_95_of_100_does_not_complete :
  no_quiz workplace_safety = true
  ∧ (∃ r',
       video_progress 7 "u1" "t3" 95%float 100%float false
         {["t3" := workplace_safety]}
         {[("u1", "t3") := new_progress 0 "u1" "t3"]}
       = (Ok r', <[("u1", "t3") := r']> {[("u1", "t3") := new_progress 0 "u1" "t3"]})
       ∧ videoCompleted r' = false
       ∧ status r' = in_progress ∧ status r' ≠ completed
       ∧ completedAt r' = None)
  ∧ videoCompleted
      (updateVideoProgress 7 (new_progress 0 "u1" "t3") 95%float 100%float)
    = true
  ∧ status
      (updateVideoProgress 7 (new_progress 0 "u1" "t3") 95%float 100%float)
    = in_progress
  ∧ completedAt
      (updateVideoProgress 7 (new_progress 0 "u1" "t3") 95%float 100%float)
    = None.
Proof.
  split; [reflexivity|]. split.
  - destruct (video_progress_report 7 "u1" "t3" 95%float 100%float
                {["t3" := workplace_safety]}
                {[("u1", "t3") := new_progress 0 "u1" "t3"]}
                eq_refl eq_refl eq_refl)
      as (r' & E & _ & _ & Hc & Hs & Ha).
    unfold video_document in Hs, Ha. rewrite lookup_singleton_eq in Hs, Ha.
    exists r'. split; [exact E|]. split; [exact Hc|].
    split; [exact Hs|]. split; [rewrite Hs; discriminate | exact Ha].
  - split; [vm_compute; reflexivity|]. split; vm_compute; reflexivity.
Qed.

(** ** The theorems at concrete inputs *)


(** A certificate request for a record that is in progress. *)
Lemma certificate_requires_completion_witness :
  (∀ r,
     ({[("u1", "t1") := new_progress 0 "u1" "t1"]} : ProgressStore)
       !! (user_id finance_employee, "t1") = Some r →
     status r ≠ completed)
  ∧ post_certificate first_env finance_employee "t1"
      {["t1" := data_protection]} {[("u1", "t1") := new_progress 0 "u1" "t1"]} []
    = (Failure 400 "Training must be completed before generating certificate",
       {[("u1", "t1") := new_progress 0 "u1" "t1"]}, []).
Proof.
  assert (H : ∀ r,
            ({[("u1", "t1") := new_progress 0 "u1" "t1"]} : ProgressStore)
              !! (user_id finance_employee, "t1") = Some r →
            status r ≠ completed).
  { intros r Hr. change (user_id finance_employee) with "u1" in Hr.
    rewrite lookup_singleton_eq in Hr. injection Hr as <-. discriminate. }
  split; [exact H|].
  exact (certificate_requires_completion first_env finance_employee "t1"
           {["t1" := data_protection]}
           {[("u1", "t1") := new_progress 0 "u1" "t1"]} [] H).
Defined.

(** The generic update with the input 150 on a record of the seeded quiz
    course whose quiz was never passed. *)
Lemma put_progress_clamps_and_completes_witness :
  ({[("u1", "t1") := new_progress 0 "u1" "t1"]} : ProgressStore) !! ("u1", "t1")
  = Some (new_progress 0 "u1" "t1")
  ∧ is_nan 150 = false
  ∧ ∃ r',
      put_progress 9 "u1" "t1" 150 {[("u1", "t1") := new_progress 0 "u1" "t1"]}
      = (Ok r', <[("u1", "t1") := r']> {[("u1", "t1") := new_progress 0 "u1" "t1"]})
      ∧ progress r' = JS.Math_min 100 (JS.Math_max 0 150)
      ∧ JS.le 0 (progress r') ∧ JS.le (progress r') 100
      ∧ (JS.le 150 0 → progress r' = 0%float)
      ∧ (JS.le 0 150 → JS.le 150 100 → (progress r' =? 150)%float = true)
      ∧ (JS.le 100 150 → progress r' = 100%float)
      ∧ quizPassed r' = quizPassed (new_progress 0 "u1" "t1")
      ∧ quizAttempts r' = quizAttempts (new_progress 0 "u1" "t1")
      ∧ ((progress r' =? 100)%float = true →
           status r' = completed ∧ completedAt r' = Some 9%Z)
      ∧ ((progress r' =? 100)%float = false →
           status r' = status (new_progress 0 "u1" "t1")
           ∧ completedAt r' = completedAt (new_progress 0 "u1" "t1")).
Proof.
  assert (H : ({[("u1", "t1") := new_progress 0 "u1" "t1"]} : ProgressStore)
                !! ("u1", "t1") = Some (new_progress 0 "u1" "t1"))
    by apply lookup_singleton_eq.
  split; [exact H|]. split; [reflexivity|].
  exact (put_progress_clamps_and_completes 9 "u1" "t1" 150
           {[("u1", "t1") := new_progress 0 "u1" "t1"]}
           (new_progress 0 "u1" "t1") H eq_refl).
Defined.

(** ** Invariants of the training router *)

Section RouterInvariants.

Variable array_toString : list QuizAttempt → string.

Implicit Types (s : State) (req : Request) (r : TrainingProgress).
Implicit Types (T : TrainingStore) (P : ProgressStore) (C : CertificateStore).

(** Writing one progress document back under its own key keeps the
    invariants, provided the write does not take a completion away. *)
Lemma write_consistent s T' uid tid r2 :
  consistent s →
  userId r2 = uid → trainingId r2 = tid →
  (status r2 = completed → is_Some (completedAt r2)) →
  (∀ r, progresses s !! (uid, tid) = Some r → status r = completed →
        status r2 = completed ∧ certificateGenerated r = true →
        certificateGenerated r2 = true) →
  (∀ r, progresses s !! (uid, tid) = Some r → status r = completed →
        status r2 = completed) →
  consistent {| trainings := T';
                progresses := <[(uid, tid) := r2]> (progresses s);
                certificates := certificates s |}.
Proof.
  intros [Hk Hd Hu Hb] Hu2 Ht2 Hd2 Hg2 Hs2. split; cbn.
  - intros u t r Hl. destruct (decide ((uid, tid) = (u, t))) as [E | N].
    + injection E as <- <-. rewrite lookup_insert_eq in Hl.
      injection Hl as <-. split; assumption.
    + rewrite lookup_insert_ne in Hl by exact N. exact (Hk u t r Hl).
  - intros k r Hl Hs. destruct (decide ((uid, tid) = k)) as [<- | N].
    + rewrite lookup_insert_eq in Hl. injection Hl as <-. exact (Hd2 Hs).
    + rewrite lookup_insert_ne in Hl by exact N. exact (Hd k r Hl Hs).
  - exact Hu.
  - intros c Hc. destruct (Hb c Hc) as (Hdate & r & Hl & Hs & Hg).
    split; [exact Hdate|].
    destruct (decide ((uid, tid) = (cert_userId c, cert_trainingId c)))
      as [E | N].
    + rewrite <- E in *. exists r2. rewrite lookup_insert_eq.
      pose proof (Hs2 r Hl Hs) as Hs'.
      split; [reflexivity|]. split; [exact Hs'|].
      apply (Hg2 r Hl Hs). split; assumption.
    + exists r. rewrite lookup_insert_ne by exact N. auto.
Qed.

Lemma same_consistent s T' :
  consistent s →
  consistent {| trainings := T'; progresses := progresses s;
                certificates := certificates s |}.
Proof. intros [Hk Hd Hu Hb]. split; assumption. Qed.

Lemma post_start_consistent s (now : Z) (uid tid : string) :
  consistent s → consistent (handle array_toString s (Start now uid tid)).
Proof.
  intros Hs. pose proof Hs as [Hk Hd Hu Hb]. cbn [handle].
  unfold post_start.
  destruct (trainings s !! tid) as [t|]; [|apply same_consistent, Hs].
  destruct (progresses s !! (uid, tid)) as [r|] eqn:Hl.
  - destruct (decide (status r = not_started)) as [Hn | Hn];
      [|apply same_consistent, Hs].
    destruct (Hk uid tid r Hl) as [Hu1 Ht1]. cbn [snd].
    apply write_consistent;
      [exact Hs | exact Hu1 | exact Ht1 | discriminate | | ].
    + intros r' Hr'. rewrite Hl in Hr'. injection Hr' as <-. congruence.
    + intros r' Hr'. rewrite Hl in Hr'. injection Hr' as <-. congruence.
  - cbn [snd].
    apply write_consistent;
      [exact Hs | reflexivity | reflexivity | discriminate | | ];
      intros r' Hr'; rewrite Hl in Hr'; discriminate.
Qed.

Lemma put_progress_consistent s (now : Z) (uid tid : string) p :
  consistent s → consistent (handle array_toString s (PutProgress now uid tid p)).
Proof.
  intros Hs. pose proof Hs as [Hk Hd Hu Hb]. cbn [handle].
  unfold put_progress.
  destruct (progresses s !! (uid, tid)) as [r|] eqn:Hl;
    [|apply same_consistent, Hs].
  destruct (Hk uid tid r Hl) as [Hu1 Ht1]. cbn zeta. unfold save_and_answer.
  destruct (progress_valid _); [|apply same_consistent, Hs]. cbn [snd].
  apply write_consistent; try assumption.
  - destruct (JS.strict_eq _ _); exact Hu1.
  - destruct (JS.strict_eq _ _); exact Ht1.
  - destruct (JS.strict_eq _ _); cbn; [intros _; eexists; reflexivity|].
    exact (Hd _ r Hl).
  - intros r' Hr'. rewrite Hl in Hr'. injection Hr' as <-. intros _ [_ Hg].
    destruct (JS.strict_eq _ _); exact Hg.
  - intros r' Hr'. rewrite Hl in Hr'. injection Hr' as <-. intros Hc.
    destruct (JS.strict_eq _ _); [reflexivity | exact Hc].
Qed.

Lemma quiz_submit_consistent s (now : Z) (uid tid : string) given :
  consistent s →
  consistent (handle array_toString s (QuizSubmit now uid tid given)).
Proof.
  intros Hs. pose proof Hs as [Hk Hd Hu Hb]. cbn [handle].
  unfold quiz_submit.
  destruct (trainings s !! tid) as [t|]; [|apply same_consistent, Hs].
  destruct (quiz t) as [q|]; [|apply same_consistent, Hs].
  cbn zeta.
  destruct (progresses s !! (uid, tid)) as [r|] eqn:Hl;
    [|apply same_consistent, Hs].
  destruct (Hk uid tid r Hl) as [Hu1 Ht1].
  destruct (_ && _); [|apply same_consistent, Hs]. cbn [snd].
  apply write_consistent; try assumption.
  - destruct (JS.ge _ _); exact Hu1.
  - destruct (JS.ge _ _); exact Ht1.
  - destruct (JS.ge _ _); cbn; [intros _; eexists; reflexivity|].
    exact (Hd _ r Hl).
  - intros r' Hr'. rewrite Hl in Hr'. injection Hr' as <-. intros _ [_ Hg].
    destruct (JS.ge _ _); exact Hg.
  - intros r' Hr'. rewrite Hl in Hr'. injection Hr' as <-. intros Hc.
    destruct (JS.ge _ _); [reflexivity | exact Hc].
Qed.

Lemma video_progress_consistent s (now : Z) (uid tid : string)
    (watchTime totalDuration : float) (flag : body_val) :
  consistent s →
  consistent
    (handle array_toString s
       (VideoProgress now uid tid watchTime totalDuration flag)).
Proof.
  intros Hs. pose proof Hs as [Hk Hd Hu Hb]. cbn [handle].
  unfold video_progress. cbn zeta.
  set (r0 := match progresses s !! (uid, tid) with
             | Some r => r
             | None => new_progress now uid tid
             end).
  assert (Hu0 : userId r0 = uid ∧ trainingId r0 = tid).
  { unfold r0. destruct (progresses s !! (uid, tid)) as [r|] eqn:Hl;
      [exact (Hk uid tid r Hl) | split; reflexivity]. }
  assert (Hd0 : status r0 = completed → is_Some (completedAt r0)).
  { unfold r0. destruct (progresses s !! (uid, tid)) as [r|] eqn:Hl;
      [exact (Hd _ r Hl) | discriminate]. }
  assert (Hr0 : ∀ r, progresses s !! (uid, tid) = Some r → r0 = r).
  { intros r Hl. unfold r0. rewrite Hl. reflexivity. }
  destruct Hu0 as [Hu0 Ht0]. unfold save_and_answer.
  destruct (body_truthy flag); [|destruct (JS.gt totalDuration 0) eqn:Hgt].
  - destruct (trainings s !! tid) as [t|]; [|apply same_consistent, Hs].
    destruct (_ && _); [|apply same_consistent, Hs].
    cbn [snd]. apply write_consistent; try assumption.
    + destruct (no_quiz t); exact Hu0.
    + destruct (no_quiz t); exact Ht0.
    + destruct (no_quiz t); cbn; [intros _; eexists; reflexivity | exact Hd0].
    + intros r Hl _ [_ Hg]. rewrite <- (Hr0 r Hl) in Hg.
      destruct (no_quiz t); exact Hg.
    + intros r Hl Hc. rewrite <- (Hr0 r Hl) in Hc.
      destruct (no_quiz t); [reflexivity | exact Hc].
  - destruct (_ && _); [|apply same_consistent, Hs].
    cbn [snd]. apply write_consistent; try assumption.
    + intros r Hl _ [_ Hg]. rewrite <- (Hr0 r Hl) in Hg. exact Hg.
    + intros r Hl Hc. rewrite <- (Hr0 r Hl) in Hc. exact Hc.
  - destruct (_ && _); [|apply same_consistent, Hs].
    cbn [snd]. apply write_consistent; try assumption.
    + intros r Hl _ [_ Hg]. rewrite <- (Hr0 r Hl) in Hg. exact Hg.
    + intros r Hl Hc. rewrite <- (Hr0 r Hl) in Hc. exact Hc.
Qed.

Lemma certificates_for_snoc uid tid C c :
  certificates_for uid tid (C ++ [c])
  = (certificates_for uid tid C
     ++ if bool_decide (cert_userId c = uid ∧ cert_trainingId c = tid)
        then [c] else [])%list.
Proof. unfold certificates_for. rewrite List.filter_app. reflexivity. Qed.

Lemma post_certificate_consistent s env u (tid : string) :
  consistent s →
  consistent (handle array_toString s (IssueCertificate env u tid)).
Proof.
  intros Hs. pose proof Hs as [Hk Hd Hu Hb]. cbn [handle].
  unfold post_certificate. cbn zeta.
  destruct (find_completed (user_id u) tid (progresses s)) as [pr|] eqn:Hf;
    [|apply same_consistent, Hs].
  destruct (find_certificate (user_id u) tid (certificates s)) as [c0|] eqn:Hc;
    [apply same_consistent, Hs|].
  destruct (trainings s !! tid) as [t|]; [|apply same_consistent, Hs].
  unfold find_completed in Hf.
  destruct (progresses s !! (user_id u, tid)) as [r|] eqn:Hl; [|discriminate].
  destruct (decide (status r = completed)) as [Hst|]; [|discriminate].
  injection Hf as <-.
  destruct (Hk _ _ r Hl) as [Hu1 Ht1].
  split; cbn.
  - intros u' t' r' Hl'.
    destruct (decide ((user_id u, tid) = (u', t'))) as [E | N].
    + injection E as <- <-. rewrite lookup_insert_eq in Hl'.
      injection Hl' as <-. split; assumption.
    + rewrite lookup_insert_ne in Hl' by exact N. exact (Hk u' t' r' Hl').
  - intros k r' Hl' Hs'. destruct (decide ((user_id u, tid) = k)) as [<- | N].
    + rewrite lookup_insert_eq in Hl'. injection Hl' as <-.
      exact (Hd _ r Hl Hst).
    + rewrite lookup_insert_ne in Hl' by exact N. exact (Hd k r' Hl' Hs').
  - intros uid' tid'. rewrite certificates_for_snoc, length_app.
    cbn [cert_userId cert_trainingId].
    destruct (bool_decide (user_id u = uid' ∧ tid = tid')) eqn:E.
    + apply bool_decide_eq_true_1 in E as [<- <-].
      rewrite (find_certificate_None_for _ _ _ Hc). simpl. lia.
    + simpl. pose proof (Hu uid' tid'). lia.
  - intros c Hin. apply elem_of_app in Hin as [Hin | Hin].
    + destruct (Hb c Hin) as (Hdate & r' & Hl' & Hs' & Hg').
      split; [exact Hdate|].
      destruct (decide ((user_id u, tid) = (cert_userId c, cert_trainingId c)))
        as [E | N].
      * rewrite <- E. eexists. rewrite lookup_insert_eq.
        split; [reflexivity|]. split; [exact Hst | reflexivity].
      * exists r'. rewrite lookup_insert_ne by exact N. auto.
    + apply list_elem_of_singleton in Hin. subst c. cbn.
      split; [exact (Hd _ r Hl Hst)|].
      eexists. rewrite lookup_insert_eq.
      split; [reflexivity|]. split; [exact Hst | reflexivity].
Qed.

Lemma filter_filter_length {A} (f g : A → bool) (l : list A) :
  (length (List.filter f (List.filter g l)) ≤ length (List.filter f l))%nat.
Proof.
  induction l as [|a l IH]; simpl; [lia|].
  destruct (g a); simpl; destruct (f a); simpl; lia.
Qed.

Lemma delete_training_consistent s (tid : string) :
  consistent s → consistent (handle array_toString s (DeleteTraining tid)).
Proof.
  intros Hs. pose proof Hs as [Hk Hd Hu Hb]. cbn [handle].
  unfold delete_training.
  destruct (trainings s !! tid) as [t|]; [|apply same_consistent, Hs].
  split; cbn.
  - intros u' t' r' Hl'. apply map_lookup_filter_Some in Hl' as [Hl' _].
    exact (Hk u' t' r' Hl').
  - intros k r' Hl' Hs'. apply map_lookup_filter_Some in Hl' as [Hl' _].
    exact (Hd k r' Hl' Hs').
  - intros uid' tid'. unfold certificates_for.
    pose proof (Hu uid' tid') as Hle. unfold certificates_for in Hle.
    etransitivity; [apply filter_filter_length | exact Hle].
  - intros c Hin. apply list_elem_of_In, List.filter_In in Hin as [Hin Hne].
    apply list_elem_of_In in Hin.
    destruct (Hb c Hin) as (Hdate & r' & Hl' & Hs' & Hg').
    split; [exact Hdate|]. exists r'. split; [|auto].
    apply map_lookup_filter_Some. split; [exact Hl'|]. cbn.
    destruct (Hk _ _ r' Hl') as [_ ->].
    apply negb_true_iff, String.eqb_neq in Hne. exact Hne.
Qed.

Lemma handle_consistent s req :
  consistent s → consistent (handle array_toString s req).
Proof.
  destruct req.
  - apply post_start_consistent.
  - apply put_progress_consistent.
  - apply quiz_submit_consistent.
  - apply video_progress_consistent.
  - apply post_certificate_consistent.
  - apply delete_training_consistent.
Qed.

Lemma serve_consistent reqs s :
  consistent s → consistent (serve array_toString s reqs).
Proof.
  revert s. induction reqs as [|req reqs IH]; intros s Hs; [exact Hs|].
  cbn [serve fold_left]. apply IH, handle_consistent, Hs.
Qed.

Lemma fresh_state_consistent T : consistent (fresh_state T).
Proof.
  split; cbn.
  - intros u t r Hl. rewrite lookup_empty in Hl. discriminate.
  - intros k r Hl. rewrite lookup_empty in Hl. discriminate.
  - intros uid tid. simpl. lia.
  - intros c Hc. apply elem_of_nil in Hc. contradiction.
Qed.

End RouterInvariants.

(** ** What the training router keeps over any sequence of requests *)

Section RouterRuns.

Variable array_toString : list QuizAttempt → string.

Implicit Types (s : State) (req : Request) (r : TrainingProgress).
Implicit Types (T : TrainingStore) (P : ProgressStore) (C : CertificateStore).

(** X1: From a consistent state (the empty collections are one), whatever
    sequence of start, progress, quiz, video-progress, certificate and
    delete-training requests is served, the certificate collection never
    holds two certificates of one (user, training) pair. *)
Theorem certificates_stay_unique s reqs :
  consistent s →
  one_certificate_per_pair (certificates (serve array_toString s reqs)).
Proof.
  intros Hs. exact (consistent_unique _ (serve_consistent array_toString reqs s Hs)).
Qed.

(** X2: From a consistent state, whatever sequence of requests is served,
    every certificate in the collection carries a completion date and
    belongs to a progress document of its (user, training) pair that is
    completed and marked certificateGenerated; and every completed
    progress document has a completion date. *)
Theorem certificates_stay_backed s reqs :
  consistent s →
  let s' := serve array_toString s reqs in
  certificates_backed (progresses s') (certificates s')
  ∧ completed_dated (progresses s').
Proof.
  intros Hs s'.
  pose proof (serve_consistent array_toString reqs s Hs) as [_ Hd _ Hb].
  split; assumption.
Qed.

Lemma insert_keeps_completed P (k k' : string * string) r r2 :
  P !! k = Some r → status r = completed →
  (k' = k → status r2 = completed) →
  ∃ r', <[k' := r2]> P !! k = Some r' ∧ status r' = completed.
Proof.
  intros Hl Hs H2. destruct (decide (k' = k)) as [E | N].
  - subst k'. exists r2. rewrite lookup_insert_eq. auto.
  - exists r. rewrite lookup_insert_ne by exact N. auto.
Qed.

(** No handler other than the deletion of the training takes a progress
    document out of the status 'completed'. *)
Lemma handle_keeps_completed s req u t r :
  keyed (progresses s) →
  progresses s !! (u, t) = Some r → status r = completed →
  req ≠ DeleteTraining t →
  ∃ r', progresses (handle array_toString s req) !! (u, t) = Some r'
        ∧ status r' = completed.
Proof.
  intros Hk Hl Hs Hreq.
  destruct req as [now uid tid | now uid tid p | now uid tid given
                   | now uid tid w d flag | env usr tid | tid]; cbn [handle].
  - unfold post_start.
    destruct (trainings s !! tid); [|exists r; auto].
    destruct (progresses s !! (uid, tid)) as [r0|] eqn:E.
    + destruct (decide (status r0 = not_started)) as [Hn|]; [|exists r; auto].
      cbn [snd progresses]. apply (insert_keeps_completed _ _ _ r); auto.
      intros Ek. rewrite Ek, Hl in E. injection E as <-. congruence.
    + cbn [snd progresses]. apply (insert_keeps_completed _ _ _ r); auto.
      intros Ek. rewrite Ek, Hl in E. discriminate.
  - unfold put_progress.
    destruct (progresses s !! (uid, tid)) as [r0|] eqn:E; [|exists r; auto].
    cbn zeta. unfold save_and_answer.
    destruct (progress_valid _); [|exists r; auto]. cbn [snd progresses].
    apply (insert_keeps_completed _ _ _ r); auto.
    intros Ek. rewrite Ek, Hl in E. injection E as <-.
    destruct (JS.strict_eq _ _); [reflexivity | exact Hs].
  - unfold quiz_submit.
    destruct (trainings s !! tid) as [t0|]; [|exists r; auto].
    destruct (quiz t0) as [q|]; [|exists r; auto].
    cbn zeta.
    destruct (progresses s !! (uid, tid)) as [r0|] eqn:E; [|exists r; auto].
    destruct (_ && _); [|exists r; auto]. cbn [snd progresses].
    apply (insert_keeps_completed _ _ _ r); auto.
    intros Ek. rewrite Ek, Hl in E. injection E as <-.
    destruct (JS.ge _ _); [reflexivity | exact Hs].
  - unfold video_progress, save_and_answer. cbn zeta.
    destruct (body_truthy flag); [|destruct (JS.gt d 0)].
    + destruct (trainings s !! tid) as [t0|]; [|exists r; auto].
      destruct (_ && _); [|exists r; auto].
      cbn [snd progresses]. apply (insert_keeps_completed _ _ _ r); auto.
      intros Ek. rewrite Ek, Hl.
      destruct (no_quiz t0); [reflexivity | exact Hs].
    + destruct (_ && _); [|exists r; auto].
      cbn [snd progresses]. apply (insert_keeps_completed _ _ _ r); auto.
      intros Ek. rewrite Ek, Hl. exact Hs.
    + destruct (_ && _); [|exists r; auto].
      cbn [snd progresses]. apply (insert_keeps_completed _ _ _ r); auto.
      intros Ek. rewrite Ek, Hl. exact Hs.
  - unfold post_certificate. cbn zeta.
    destruct (find_completed _ _ _) as [pr|] eqn:Hf; [|exists r; auto].
    destruct (find_certificate _ _ _); [exists r; auto|].
    destruct (trainings s !! tid); [|exists r; auto].
    cbn [progresses]. apply (insert_keeps_completed _ _ _ r); auto.
    intros Ek. unfold find_completed in Hf. rewrite Ek, Hl in Hf.
    destruct (decide (status r = completed)); [|discriminate].
    injection Hf as <-. exact Hs.
  - unfold delete_training.
    destruct (trainings s !! tid); [|exists r; auto].
    cbn [progresses]. exists r. split; [|exact Hs].
    apply map_lookup_filter_Some. split; [exact Hl|]. cbn.
    destruct (Hk u t r Hl) as [_ ->]. intros ->. apply Hreq. reflexivity.
Qed.

(** X3: In a consistent state, a progress document that is completed stays
    completed, with a completion date, whatever requests follow, as long
    as its training is not deleted: no route restarts or reopens a
    course. *)
Theorem completion_is_permanent s reqs u t r :
  consistent s →
  progresses s !! (u, t) = Some r → status r = completed →
  Forall (fun req => req ≠ DeleteTraining t) reqs →
  ∃ r', progresses (serve array_toString s reqs) !! (u, t) = Some r'
        ∧ status r' = completed ∧ is_Some (completedAt r').
Proof.
  intros Hs Hl Hc Hall. revert s r Hs Hl Hc.
  induction Hall as [|req reqs Hreq _ IH]; intros s r Hs Hl Hc.
  - exists r. split; [exact Hl|]. split; [exact Hc|].
    exact (consistent_dated s Hs _ r Hl Hc).
  - cbn [serve fold_left].
    destruct (handle_keeps_completed s req u t r (consistent_keyed s Hs) Hl Hc Hreq)
      as (r1 & Hl1 & Hc1).
    exact (IH _ r1 (handle_consistent array_toString s req Hs) Hl1 Hc1).
Qed.

End RouterRuns.

(** ** Starting and deleting a training *)

Section StartAndDelete.

Implicit Types (T : TrainingStore) (P : ProgressStore) (C : CertificateStore).

(** X4: A start that succeeds leaves the record of the pair in_progress with
    progress 0 and startedAt set to the time of the request, and touches
    no other record; a second start of the same training is refused with
    400 and changes nothing.  A record in any status other than
    'not_started' cannot be started again, so there is no restart. *)
Theorem start_is_not_repeatable (now now' : Z) (uid tid : string) T P P1 :
  post_start now uid tid T P = (Ok tt, P1) →
  (∃ r, P1 !! (uid, tid) = Some r ∧ status r = in_progress
        ∧ progress r = 0%float ∧ startedAt r = Some now)
  ∧ (∀ k, k ≠ (uid, tid) → P1 !! k = P !! k)
  ∧ post_start now' uid tid T P1
    = (Failure 400 "Training already started or completed", P1).
Proof.
  unfold post_start. destruct (T !! tid) as [t|] eqn:HT; [|discriminate].
  destruct (P !! (uid, tid)) as [r|] eqn:Hl.
  - destruct (decide (status r = not_started)); [|discriminate].
    intros E. injection E as <-. rewrite lookup_insert_eq.
    split; [eexists; split; [reflexivity|]; repeat split; reflexivity|].
    split; [intros k Hk; apply lookup_insert_ne; congruence|].
    reflexivity.
  - intros E. injection E as <-. rewrite lookup_insert_eq.
    split; [eexists; split; [reflexivity|]; repeat split; reflexivity|].
    split; [intros k Hk; apply lookup_insert_ne; congruence|].
    reflexivity.
Qed.

(** X5: Deleting a training removes it from the catalogue together with every
    progress document and every certificate that refers to it, and leaves
    the documents of all other trainings in place. *)
Theorem delete_training_cascades (tid : string) T P C t :
  T !! tid = Some t →
  ∃ T' P' C',
    delete_training tid T P C = (Ok tt, T', P', C')
    ∧ T' !! tid = None
    ∧ (∀ t', t' ≠ tid → T' !! t' = T !! t')
    ∧ (∀ k r, P' !! k = Some r ↔ P !! k = Some r ∧ trainingId r ≠ tid)
    ∧ (∀ c, c ∈ C' ↔ c ∈ C ∧ cert_trainingId c ≠ tid).
Proof.
  intros HT. unfold delete_training. rewrite HT.
  eexists; eexists; eexists. split; [reflexivity|].
  split; [apply lookup_delete_eq|].
  split; [intros t' Hne; apply lookup_delete_ne; congruence|].
  split.
  - intros k r. rewrite map_lookup_filter_Some. reflexivity.
  - intros c. rewrite !list_elem_of_In, List.filter_In.
    rewrite negb_true_iff, String.eqb_neq. reflexivity.
Qed.

End StartAndDelete.

(** ** How the routes compose *)

Section RouteComposition.

Implicit Types (T : TrainingStore) (P : ProgressStore) (C : CertificateStore).
Implicit Types (r : TrainingProgress) (u : User).

(** X6: A generic progress update of 100 or more, followed by a certificate
    request, issues a certificate for the pair whatever the quiz state of
    the record: the record is completed with quizPassed and bestScore as
    they were, and the certificate carries the time of the update as its
    completion date and [bestScore || 0] as its score. *)
Theorem progress_report_unlocks_certificate env u (tid : string) (now : Z)
    (p : float) T P C r t :
  P !! (user_id u, tid) = Some r →
  JS.le 100 p →
  T !! tid = Some t →
  find_certificate (user_id u) tid C = None →
  ∃ r1 P1 c P2,
    put_progress now (user_id u) tid p P = (Ok r1, P1)
    ∧ status r1 = completed
    ∧ quizPassed r1 = quizPassed r ∧ bestScore r1 = bestScore r
    ∧ post_certificate env u tid T P1 C = (Ok (ref_of c), P2, (C ++ [c])%list)
    ∧ completionDate c = Some now
    ∧ cert_score c = JS.or_else (bestScore r) 0
    ∧ cert_passingScore c = passingScore_or_zero t
    ∧ isValid c = true.
Proof.
  intros HP Hp HT HC. unfold put_progress. rewrite HP. cbn zeta.
  cbn [progress set_lastAccessedAt set_progress]. fold (clamp p).
  rewrite (clamp_above p Hp).
  change (JS.strict_eq 100 100) with true.
  change (progress_valid 100) with true. unfold save_and_answer. cbv iota.
  eexists; eexists. unfold post_certificate, find_completed.
  rewrite lookup_insert_eq. cbn [status set_completedAt set_status].
  destruct (decide (completed = completed)) as [_|N]; [|contradiction].
  rewrite HC, HT. cbn zeta.
  eexists; eexists. split; [reflexivity|].
  repeat (split; [reflexivity|]). reflexivity.
Qed.

(** X7: A video-progress report without the [completed] flag is answered
    the same whatever the Training collection holds, and never completes
    anything.  When the watch time is a number and, for a positive total
    duration, the percentage watchTime / totalDuration * 100 is 0 or
    more, it stores the reported watch time and videoCompleted = false,
    leaves the status and the completion date as they were, and stores a
    progress between 0 and 95 (for a total duration that is not positive:
    the progress as it was).  When the watch time is NaN, or the total is
    positive and the percentage is negative or NaN, the save is refused:
    the request ends in the 500 response and nothing is written. *)
Theorem unflagged_video_report_never_completes (now : Z) (uid tid : string)
    (w d : float) T P :
  let r0 := video_document now uid tid P in
  (∀ T', video_progress now uid tid w d false T' P
         = video_progress now uid tid w d false T P)
  ∧ (is_nan w = false →
     (JS.gt d 0 = true → JS.le 0 (w / d * 100)%float) →
     ∃ r',
       video_progress now uid tid w d false T P
       = (Ok r', <[(uid, tid) := r']> P)
       ∧ status r' = status r0 ∧ completedAt r' = completedAt r0
       ∧ videoWatchTime r' = w ∧ videoCompleted r' = false
       ∧ (JS.gt d 0 = true →
          progress r' = JS.Math_min 95 (w / d * 100)%float
          ∧ JS.le 0 (progress r') ∧ JS.le (progress r') 95)
       ∧ (JS.gt d 0 = false → progress r' = progress r0))
  ∧ (is_nan w = true
     ∨ (JS.gt d 0 = true ∧ (0 <=? w / d * 100)%float = false) →
     video_progress now uid tid w d false T P
     = (Failure 500 "Server error", P)).
Proof.
  intros r0. unfold video_progress, save_and_answer. cbn zeta.
  fold (video_document now uid tid P). fold r0.
  cbn [body_truthy]. cbv iota.
  change (videoCompleted_cast false) with (Some false).
  cbn [default bool_decide]. unfold Number_cast.
  split; [reflexivity|]. split.
  - intros Hw Hpct. rewrite Hw. cbn [negb].
    destruct (JS.gt d 0) eqn:E.
    + pose proof (Hpct eq_refl) as Hp.
      cbn [progress set_progress]. rewrite (capped_valid _ Hp). cbn.
      eexists. split; [reflexivity|]. repeat (split; [reflexivity|]).
      split; [|discriminate]. intros _. split; [reflexivity|].
      destruct (JSFacts.le_number _ _ Hp) as [_ Hn].
      split; [|apply JSFacts.Math_min_le_l; [reflexivity | exact Hn]].
      destruct (JSFacts.Math_min_number 95 _ eq_refl Hn) as [-> | ->];
        [reflexivity | exact Hp].
    + cbn. eexists. split; [reflexivity|]. repeat (split; [reflexivity|]).
      split; [discriminate | reflexivity].
  - intros [Hw | [Hd Hp]].
    + rewrite Hw. cbn [negb andb]. destruct (JS.gt d 0); reflexivity.
    + rewrite Hd. cbn [progress set_progress].
      rewrite (capped_invalid _ Hp), andb_false_r. reflexivity.
Qed.

(** X8: For a training that is not in the catalogue, a report with the
    boolean [completed] flag ends in the 500 response and stores nothing,
    while a report without the flag whose watch time is a number and
    whose percentage is not negative is accepted: when the pair has no
    record yet, one is created for the unknown training, in_progress and
    started at the time of the report. *)
Theorem video_report_for_unknown_training (now : Z) (uid tid : string)
    (w d : float) T P :
  T !! tid = None →
  video_progress now uid tid w d true T P = (Failure 500 "Server error", P)
  ∧ (is_nan w = false →
     (JS.gt d 0 = true → JS.le 0 (w / d * 100)%float) →
     ∃ r',
       video_progress now uid tid w d false T P
       = (Ok r', <[(uid, tid) := r']> P)
       ∧ (P !! (uid, tid) = None →
          userId r' = uid ∧ trainingId r' = tid ∧ status r' = in_progress
          ∧ startedAt r' = Some now ∧ completedAt r' = None)).
Proof.
  intros HT. unfold video_progress, save_and_answer. cbn zeta. rewrite HT.
  cbn [body_truthy]. cbv iota. split; [reflexivity|].
  intros Hw Hpct.
  change (videoCompleted_cast false) with (Some false).
  cbn [default bool_decide]. unfold Number_cast. rewrite Hw. cbn [negb].
  destruct (JS.gt d 0) eqn:E.
  - cbn [progress set_progress]. rewrite (capped_valid _ (Hpct eq_refl)). cbn.
    eexists. split; [reflexivity|].
    intros HP. rewrite HP. cbn. repeat split; reflexivity.
  - cbn. eexists. split; [reflexivity|].
    intros HP. rewrite HP. cbn. repeat split; reflexivity.
Qed.

End RouteComposition.

(** ** The two audience checks *)

(** X9: Whenever the access check of GET /:id comes to a verdict, the guarded
    check of the training-materials router comes to the same one; where
    the first throws, the second still answers. *)
Theorem hasAccess_agrees_with_isAudience (t : Training) (u : User) (b : bool) :
  hasAccess t u = Some b → isAudience t u = b.
Proof.
  unfold hasAccess, isAudience.
  destruct (String.eqb (targetAudience t) "all"); [intros E; injection E as <-; reflexivity|].
  cbn [orb].
  destruct (departments t) as [ds|]; [|discriminate].
  destruct (bool_decide (department u ∈ ds));
    [intros E; injection E as <-; reflexivity|].
  cbn [orb].
  destruct (roles t) as [rs|]; [|discriminate].
  intros E; injection E as <-; reflexivity.
Qed.

(** ** Video content and the video gate of the quiz *)

(** X10: [getVideoSourceType] is null exactly when [hasVideoContent] is false;
    an uploaded video takes precedence over a YouTube link; and for a
    course without a source type the answer of [canTakeQuiz] does not
    depend on videoCompleted. *)
Theorem video_gate_follows_source_type (t : Training) :
  (getVideoSourceType t = None ↔ hasVideoContent t = false)
  ∧ (string_truthy (videoUrl (content t)) = true →
     getVideoSourceType t = Some "uploaded")
  ∧ (getVideoSourceType t = None →
     ∀ r b, canTakeQuiz (set_videoCompleted b r) (Some t)
            = canTakeQuiz r (Some t)).
Proof.
  unfold getVideoSourceType, canTakeQuiz, hasVideoContent.
  destruct (string_truthy (videoUrl (content t))),
           (string_truthy (youtubeUrl (content t))); cbn;
    (split; [split; congruence|]); (split; [congruence|]);
    try discriminate.
  intros _ r b. destruct (quiz t); reflexivity.
Qed.

(** ** The methods of a certificate *)

Section CertificateMethods.

Implicit Types (d : CertificateDoc) (times : list Z).

Lemma downloads_snoc times (t : Z) d :
  downloads (times ++ [t]) d = recordDownload t (downloads times d).
Proof. unfold downloads. rewrite fold_left_app. reflexivity. Qed.

Lemma downloads_fields times d :
  downloadCount (cert (downloads times d))
  = (downloadCount (cert d) + length times)%nat
  ∧ lastDownloadedAt (downloads times d)
    = from_option Some (lastDownloadedAt d) (last times)
  ∧ certificateId (cert (downloads times d)) = certificateId (cert d)
  ∧ isValid (cert (downloads times d)) = isValid (cert d)
  ∧ validUntil (downloads times d) = validUntil d.
Proof.
  induction times as [|t times IH] using rev_ind.
  - cbn. split; [lia|]. repeat split; reflexivity.
  - rewrite downloads_snoc. destruct IH as (Hc & Hl & Hi & Hv & Hu).
    rewrite last_snoc, length_app. cbn.
    rewrite Hc. split; [lia|]. auto.
Qed.

(** X11: Each [recordDownload] adds one to the download counter and stamps the
    time; a run of them changes neither the validity flag, the expiry nor
    the certificate id, so the document is currently valid after the run
    exactly when it was before. *)
Theorem downloads_count_and_keep_validity times d :
  downloadCount (cert (downloads times d))
  = (downloadCount (cert d) + length times)%nat
  ∧ lastDownloadedAt (downloads times d)
    = from_option Some (lastDownloadedAt d) (last times)
  ∧ certificateId (cert (downloads times d)) = certificateId (cert d)
  ∧ ∀ now, isCurrentlyValid now (downloads times d) = isCurrentlyValid now d.
Proof.
  destruct (downloads_fields times d) as (Hc & Hl & Hi & Hv & Hu).
  split; [exact Hc|]. split; [exact Hl|]. split; [exact Hi|].
  intros now. unfold isCurrentlyValid. rewrite Hv, Hu. reflexivity.
Qed.

(** X12: A certificate that is not currently valid, because it was invalidated
    or because it has expired, does not become valid again at any later
    time, whatever downloads are recorded; in particular it is invalid at
    every time after [invalidate]. *)
Theorem validity_only_decays (now now' : Z) times d (reason : string) :
  (isCurrentlyValid now d = false → (now ≤ now')%Z →
   isCurrentlyValid now' (downloads times d) = false)
  ∧ isCurrentlyValid now' (downloads times (invalidate reason d)) = false.
Proof.
  split.
  - intros Hv Hle.
    destruct (downloads_fields times d) as (_ & _ & _ & Hf & Hu).
    unfold isCurrentlyValid in *. rewrite Hf, Hu.
    destruct (negb (isValid (cert d))); [reflexivity|].
    destruct (validUntil d) as [t|]; [|discriminate].
    apply Z.leb_gt in Hv. apply Z.leb_gt. lia.
  - destruct (downloads_fields times (invalidate reason d))
      as (_ & _ & _ & Hf & Hu).
    unfold isCurrentlyValid. rewrite Hf. reflexivity.
Qed.

End CertificateMethods.

(** X13: A certificate whose validity flag is off is still the one that
    POST /:id/certificate finds for its pair: the request returns it
    again and issues no new one, while the listings of valid certificates
    by user and by training leave it out. *)
Theorem invalid_certificate_is_returned_not_replaced (env : IssueEnv) (u : User)
    (tid : string) (T : TrainingStore) (P : ProgressStore)
    (C : CertificateStore) pr c :
  P !! (user_id u, tid) = Some pr → status pr = completed →
  find_certificate (user_id u) tid C = Some c →
  isValid c = false →
  post_certificate env u tid T P C = (Ok (ref_of c), P, C)
  ∧ ¬ (c ∈ findUserCertificates (user_id u) C)
  ∧ ¬ (c ∈ findTrainingCertificates tid C).
Proof.
  intros HP Hs HC Hv.
  split.
  - apply (post_certificate_existing env u tid T P C pr c);
      [apply find_completed_Some; assumption | exact HC].
  - unfold findUserCertificates, findTrainingCertificates.
    split; intros Hin; apply list_elem_of_In, List.filter_In in Hin as [_ Hin];
      rewrite Hv, andb_false_r in Hin; discriminate.
Qed.

(** ** Runs of the model methods *)

Section MethodRuns.

Implicit Types (r : TrainingProgress) (l : list QuizAttempt).

Lemma addQuizAttempt_status (now : Z) r l ans sc pass spent r' :
  quizAttempts r = AttemptList l →
  addQuizAttempt now r ans sc pass spent = Some r' →
  (pass = true → quizPassed r' = true ∧ status r' = completed)
  ∧ (pass = false → quizPassed r' = quizPassed r ∧ status r' = status r).
Proof.
  intros Hl. unfold addQuizAttempt. rewrite Hl. cbn zeta.
  cbn [bestScore set_quizAttempts]. intros E. injection E as <-.
  destruct pass, (JS.gt sc (bestScore r)); cbn; split; intros; try discriminate;
    split; reflexivity.
Qed.

(** X14: A run of [addQuizAttempt] calls on a document whose attempts are an
    array never throws; it appends one entry per submission, in order,
    with the submitted time, answers, score, pass flag and time spent,
    numbered on from the previous count, so that attempt numbers stay the
    positions counted from one; once a submission of the run has passed,
    the document ends passed and completed, and with no passing submission
    quizPassed and the status stay as they were. *)
Theorem attempt_run_appends_in_order r l
    (subs : list (Z * list AnswerEntry * float * bool * float)) :
  quizAttempts r = AttemptList l → numbered l →
  ∃ r' l',
    attempt_run r subs = Some r'
    ∧ quizAttempts r' = AttemptList (l ++ l')
    ∧ map (fun a => (submittedAt a, answers a, score a, passed a, timeSpent a))
        l' = subs
    ∧ numbered (l ++ l')
    ∧ attemptCount r' = (attemptCount r + length subs)%nat
    ∧ (Exists (fun sub => sub.1.2 = true) subs →
       quizPassed r' = true ∧ status r' = completed)
    ∧ (Forall (fun sub => sub.1.2 = false) subs →
       quizPassed r' = quizPassed r ∧ status r' = status r).
Proof.
  revert r l. induction subs as [|[[[[now ans] sc] pass] spent] subs IH];
    intros r l Hl Hn.
  - exists r, []. rewrite app_nil_r. cbn.
    split; [reflexivity|]. split; [exact Hl|]. split; [reflexivity|].
    split; [exact Hn|]. split; [lia|].
    split; [intros H; inversion H | intros _; split; reflexivity].
  - cbn [attempt_run].
    destruct (addQuizAttempt_records now r l ans sc pass spent Hl)
      as (r1 & E1 & Hq1 & _).
    rewrite E1.
    assert (Hn1 : numbered
              (l ++ [{| attemptNumber := length l + 1; answers := ans;
                        score := sc; passed := pass; timeSpent := spent;
                        submittedAt := now |}])).
    { intros i a Hi. destruct (decide (i < length l)) as [Hlt | Hge].
      - rewrite lookup_app_l in Hi by exact Hlt. exact (Hn i a Hi).
      - rewrite lookup_app_r in Hi by lia.
        destruct (i - length l) as [|k] eqn:Ek; simpl in Hi; [|discriminate].
        injection Hi as <-. simpl. lia. }
    destruct (IH r1 _ Hq1 Hn1) as (r' & l' & E & Hq & Hm & Hn' & Hc & Hex & Hall).
    destruct (addQuizAttempt_status now r l ans sc pass spent r1 Hl E1)
      as (Hpass & Hfail).
    eexists r', (_ :: l'). rewrite <- app_assoc in Hq, Hn'. cbn [app] in Hq, Hn'.
    split; [exact E|]. split; [exact Hq|].
    split; [cbn; rewrite Hm; reflexivity|]. split; [exact Hn'|].
    split.
    { rewrite Hc. unfold attemptCount. rewrite Hq1, Hl, length_app. cbn. lia. }
    split.
    + intros Hex'. apply Exists_cons in Hex' as [Hp | Hex']; [|exact (Hex Hex')].
      cbn in Hp. subst pass. destruct (Hpass eq_refl) as [Hqp Hst].
      destruct (decide (Exists
                  (fun sub : Z * list AnswerEntry * float * bool * float =>
                     sub.1.2 = true) subs)) as [Hy | Hno].
      * exact (Hex Hy).
      * assert (Hallf : Forall
                  (fun sub : Z * list AnswerEntry * float * bool * float =>
                     sub.1.2 = false) subs).
        { apply Forall_forall. intros sub Hin.
          destruct (sub.1.2) eqn:Eb; [|reflexivity].
          exfalso. apply Hno. apply Exists_exists. exists sub. auto. }
        destruct (Hall Hallf) as [-> ->]. split; assumption.
    + intros Hall'. apply Forall_cons in Hall' as [Hp Hall'].
      cbn in Hp. subst pass. destruct (Hfail eq_refl) as [<- <-].
      exact (Hall Hall').
Qed.

(** X15: Over a run of [updateVideoProgress] calls with clean reports,
    videoWatchTime and progress never go down: the values after any part
    of the run are at least the values at its start and at most the
    values after the whole run, whatever the order of the reports. *)
Theorem model_video_reports_never_lower (now : Z)
    (before after : list (float * float)) r :
  is_nan (videoWatchTime r) = false → is_nan (progress r) = false →
  Forall clean_report before → Forall clean_report after →
  let r1 := replay now r before in
  let r2 := replay now r (before ++ after) in
  JS.le (videoWatchTime r) (videoWatchTime r1)
  ∧ JS.le (videoWatchTime r1) (videoWatchTime r2)
  ∧ JS.le (progress r) (progress r1)
  ∧ JS.le (progress r1) (progress r2).
Proof.
  intros Hv Hp Hb Ha r1 r2.
  destruct (replay_monotone now before r Hv Hp Hb) as [Hv1 Hp1].
  fold r1 in Hv1, Hp1.
  assert (E : r2 = replay now r1 after).
  { unfold r2, r1, replay. apply fold_left_app. }
  destruct (JSFacts.le_number _ _ Hv1) as [_ Hv1n].
  destruct (JSFacts.le_number _ _ Hp1) as [_ Hp1n].
  destruct (replay_monotone now after r1 Hv1n Hp1n Ha) as [Hv2 Hp2].
  rewrite E. auto.
Qed.

Lemma updateVideoProgress_keeps (now : Z) r (w d : float) :
  let r' := updateVideoProgress now r w d in
  (status r' = completed ↔ status r = completed)
  ∧ completedAt r' = completedAt r
  ∧ (videoCompleted r = true → videoCompleted r' = true).
Proof.
  unfold updateVideoProgress. cbn zeta.
  destruct (JS.ge _ _);
    match goal with |- context [decide ?X] => destruct (decide X) as [Hn|Hn] end;
    cbn; cbn in Hn.
  all: split; [split; intros H; congruence|]; split; [reflexivity | auto].
Qed.

(** X16: Over any run of [updateVideoProgress] calls the document is never
    completed by the method: the status at the end is 'completed' exactly
    when it was at the start, the completion date is untouched, and a
    video once marked completed stays marked. *)
Theorem replay_never_completes (now : Z) (reports : list (float * float)) r :
  (status (replay now r reports) = completed ↔ status r = completed)
  ∧ completedAt (replay now r reports) = completedAt r
  ∧ (videoCompleted r = true → videoCompleted (replay now r reports) = true).
Proof.
  revert r. induction reports as [|[w d] reports IH]; intros r.
  - cbn. split; [reflexivity|]. split; [reflexivity | auto].
  - cbn [replay fold_left fst snd].
    destruct (IH (updateVideoProgress now r w d)) as (Hs & Hc & Hv).
    destruct (updateVideoProgress_keeps now r w d) as (Hs1 & Hc1 & Hv1).
    fold (replay now (updateVideoProgress now r w d) reports).
    rewrite Hs, Hc, Hs1, Hc1.
    split; [reflexivity|]. split; [reflexivity|]. auto.
Qed.

End MethodRuns.

(** ** The files router: acknowledgments and view starts *)

Section FilesRouter.

Implicit Types (st : FilesState) (req : FileRequest).
Implicit Types (l : list Acknowledgment) (a : Acknowledgment).

Lemma find_ack_None (u : string) (i : Z) l :
  find_ack u i l = None →
  ∀ a, a ∈ l → ¬ (ack_userId a = u ∧ ack_fileId a = i).
Proof.
  unfold find_ack. intros H a Hin [Hu Hi].
  apply list_elem_of_In in Hin.
  pose proof (List.find_none _ _ H a Hin) as Hf. cbn in Hf.
  rewrite Hu, Hi, String.eqb_refl, Z.eqb_refl in Hf. discriminate.
Qed.

Lemma find_ack_Some (u : string) (i : Z) l a :
  find_ack u i l = Some a → a ∈ l ∧ ack_userId a = u ∧ ack_fileId a = i.
Proof.
  unfold find_ack. intros H. apply List.find_some in H as [Hin Hb].
  apply andb_true_iff in Hb as [Hu Hi].
  apply String.eqb_eq in Hu. apply Z.eqb_eq in Hi.
  split; [apply list_elem_of_In, Hin | auto].
Qed.

(** What a request does to the acknowledgment array: nothing, or one
    entry appended, for a pair that has a view start and no entry yet. *)
Lemma files_handle_acknowledgments st req :
  (acknowledgments (files_handle st req) = acknowledgments st
   ∨ ∃ a, acknowledgments (files_handle st req) = (acknowledgments st ++ [a])%list
          ∧ ack_id a = (Z.of_nat (length (acknowledgments st)) + 1)%Z
          ∧ find_ack (ack_userId a) (ack_fileId a) (acknowledgments st) = None
          ∧ is_Some (ackViewStarts st !! view_key (ack_userId a) (ack_fileId a))).
Proof.
  destruct req as [file raw | fileId | now viewer fileId | now u name fileId];
    cbn [files_handle].
  - unfold upload. destruct file; left; reflexivity.
  - unfold delete_file. destruct fileId as [i|]; [|left; reflexivity].
    destruct (findIndex i (files st)); left; reflexivity.
  - unfold view_file.
    destruct (find_file fileId (files st)), fileId; try (left; reflexivity).
    cbn [snd]. destruct (negb _); [|left; reflexivity].
    destruct (ackViewStarts st !! _); left; reflexivity.
  - unfold acknowledge.
    destruct (find_file fileId (files st)) as [file|], fileId as [i|];
      try (left; reflexivity).
    destruct (ackViewStarts st !! view_key u i) as [v|] eqn:Hv;
      [|left; reflexivity].
    cbn zeta. destruct (_ && valid_time _); [left; reflexivity|].
    destruct (find_ack u i (acknowledgments st)) eqn:Hf; [left; reflexivity|].
    right. eexists. cbn [snd acknowledgments]. split; [reflexivity|].
    cbn [ack_id ack_userId ack_fileId]. split; [reflexivity|].
    split; [exact Hf|]. rewrite Hv. eexists; reflexivity.
Qed.

(** No request removes or changes a view start. *)
Lemma files_handle_view_starts st req (k : string) (v : float) :
  ackViewStarts st !! k = Some v →
  ackViewStarts (files_handle st req) !! k = Some v.
Proof.
  intros Hk.
  destruct req as [file raw | fileId | now viewer fileId | now u name fileId];
    cbn [files_handle].
  - unfold upload. destruct file; exact Hk.
  - unfold delete_file. destruct fileId as [i|]; [|exact Hk].
    destruct (findIndex i (files st)); exact Hk.
  - unfold view_file.
    destruct (find_file fileId (files st)), fileId; try exact Hk.
    cbn [snd]. destruct (negb _); [|exact Hk].
    destruct (ackViewStarts st !! view_key viewer z) eqn:E; [exact Hk|].
    cbn. rewrite lookup_insert_ne; [exact Hk|]. intros <-. congruence.
  - unfold acknowledge.
    destruct (find_file fileId (files st)) as [file|], fileId as [i|];
      try exact Hk.
    destruct (ackViewStarts st !! view_key u i); [|exact Hk].
    cbn zeta. destruct (_ && valid_time _); [exact Hk|].
    destruct (find_ack u i (acknowledgments st)); exact Hk.
Qed.

Lemma files_handle_wellformed st req :
  acks_wellformed st → acks_wellformed (files_handle st req).
Proof.
  intros [Hn Ho Hv].
  assert (Hviews : ∀ k, is_Some (ackViewStarts st !! k) →
                        is_Some (ackViewStarts (files_handle st req) !! k)).
  { intros k [v Hk]. exists v. apply files_handle_view_starts, Hk. }
  destruct (files_handle_acknowledgments st req) as [E | (a & E & Hid & Hf & Hva)].
  - split; try (rewrite E; assumption).
    intros b Hb. rewrite E in Hb. apply Hviews, Hv, Hb.
  - split.
    + rewrite E. intros k b Hk.
      destruct (decide (k < length (acknowledgments st))%nat) as [Hlt | Hge].
      * rewrite lookup_app_l in Hk by exact Hlt. exact (Hn k b Hk).
      * rewrite lookup_app_r in Hk by lia.
        destruct (k - length (acknowledgments st))%nat as [|m] eqn:Em;
          simpl in Hk; [|discriminate].
        injection Hk as <-. rewrite Hid. f_equal. lia.
    + rewrite E. intros j k b c Hj Hk Hu Hi.
      pose proof (find_ack_None _ _ _ Hf) as Hnone.
      destruct (decide (j < length (acknowledgments st))%nat) as [Hj' | Hj'];
        destruct (decide (k < length (acknowledgments st))%nat) as [Hk' | Hk'].
      * rewrite lookup_app_l in Hj by exact Hj'.
        rewrite lookup_app_l in Hk by exact Hk'.
        exact (Ho j k b c Hj Hk Hu Hi).
      * exfalso. rewrite lookup_app_l in Hj by exact Hj'.
        rewrite lookup_app_r in Hk by lia.
        destruct (k - length (acknowledgments st))%nat as [|m];
          simpl in Hk; [|discriminate].
        injection Hk as <-.
        apply (Hnone b); [eapply list_elem_of_lookup_2, Hj | auto].
      * exfalso. rewrite lookup_app_l in Hk by exact Hk'.
        rewrite lookup_app_r in Hj by lia.
        destruct (j - length (acknowledgments st))%nat as [|m];
          simpl in Hj; [|discriminate].
        injection Hj as <-.
        apply (Hnone c); [eapply list_elem_of_lookup_2, Hk | auto].
      * apply lookup_lt_Some in Hj, Hk. rewrite length_app in Hj, Hk.
        simpl in Hj, Hk. lia.
    + intros b Hb. rewrite E in Hb. apply elem_of_app in Hb as [Hb | Hb].
      * apply Hviews, Hv, Hb.
      * apply list_elem_of_singleton in Hb. subst b. apply Hviews, Hva.
Qed.

Lemma files_serve_wellformed reqs st :
  acks_wellformed st → acks_wellformed (files_serve st reqs).
Proof.
  revert st. induction reqs as [|req reqs IH]; intros st Hst; [exact Hst|].
  cbn [files_serve fold_left]. apply IH, files_handle_wellformed, Hst.
Qed.

Lemma ack_once_cons a l :
  ack_once (a :: l) →
  ack_once l
  ∧ ∀ b, b ∈ l → ¬ (ack_userId b = ack_userId a ∧ ack_fileId b = ack_fileId a).
Proof.
  intros H. split.
  - intros j k b c Hj Hk Hu Hi.
    pose proof (H (S j) (S k) b c Hj Hk Hu Hi). lia.
  - intros b Hb [Hu Hi]. apply list_elem_of_lookup in Hb as [k Hk].
    pose proof (H (S k) 0%nat b a Hk eq_refl Hu Hi). lia.
Qed.

Lemma my_acknowledgments_NoDup (u : string) st :
  ack_once (acknowledgments st) →
  NoDup (map ack_fileId (my_acknowledgments u st)).
Proof.
  unfold my_acknowledgments. generalize (acknowledgments st). intros l.
  induction l as [|a l IH]; intros Ho; cbn [List.filter]; [constructor|].
  destruct (ack_once_cons a l Ho) as [Ho' Hnew].
  destruct (String.eqb (ack_userId a) u) eqn:E; [|exact (IH Ho')].
  apply String.eqb_eq in E. cbn [map]. constructor; [|exact (IH Ho')].
  intros Hin. apply list_elem_of_In, in_map_iff in Hin as (b & Hb & Hin).
  apply List.filter_In in Hin as [Hin Hu]. apply String.eqb_eq in Hu.
  apply (Hnew b); [apply list_elem_of_In, Hin|]. split; congruence.
Qed.

Lemma file_acknowledgments_NoDup (i : Z) st :
  ack_once (acknowledgments st) →
  NoDup (map ack_userId (file_acknowledgments i st)).
Proof.
  unfold file_acknowledgments. generalize (acknowledgments st). intros l.
  induction l as [|a l IH]; intros Ho; cbn [List.filter]; [constructor|].
  destruct (ack_once_cons a l Ho) as [Ho' Hnew].
  destruct (Z.eqb (ack_fileId a) i) eqn:E; [|exact (IH Ho')].
  apply Z.eqb_eq in E. cbn [map]. constructor; [|exact (IH Ho')].
  intros Hin. apply list_elem_of_In, in_map_iff in Hin as (b & Hb & Hin).
  apply List.filter_In in Hin as [Hin Hi]. apply Z.eqb_eq in Hi.
  apply (Hnew b); [apply list_elem_of_In, Hin|]. split; congruence.
Qed.

(** X17: From a well-formed acknowledgment array (the empty one that the
    router starts with is), whatever uploads, deletions, views and
    acknowledgments are served, no (user, file) pair is acknowledged
    twice, and the acknowledgment ids are 1, 2, ... in the order of the
    array; so the list of a user's acknowledgments never shows a file id
    twice and the list of a file's acknowledgments never shows a user
    twice. *)
Theorem acknowledged_once_over_runs st reqs :
  acks_wellformed st →
  let st' := files_serve st reqs in
  ack_once (acknowledgments st')
  ∧ ack_numbered (acknowledgments st')
  ∧ (∀ u, NoDup (map ack_fileId (my_acknowledgments u st')))
  ∧ (∀ i, NoDup (map ack_userId (file_acknowledgments i st'))).
Proof.
  intros Hst st'. destruct (files_serve_wellformed reqs st Hst) as [Hn Ho _].
  split; [exact Ho|]. split; [exact Hn|]. split.
  - intros u. apply my_acknowledgments_NoDup, Ho.
  - intros i. apply file_acknowledgments_NoDup, Ho.
Qed.

(** X18: From a well-formed acknowledgment array, whatever requests are
    served, every acknowledgment in the array has a view start recorded
    under the key of its own user and file: nobody acknowledges a file id
    without a recorded view of that id. *)
Theorem acknowledged_only_after_view st reqs :
  acks_wellformed st → ack_viewed (files_serve st reqs).
Proof.
  intros Hst. exact (wf_viewed _ (files_serve_wellformed reqs st Hst)).
Qed.

(** X19: The time of the first view of a (viewer, file) pair is kept for good:
    no later view, upload, deletion or acknowledgment changes or removes
    it, so viewing again does not move the unlock time. *)
Theorem first_view_time_is_kept st reqs (k : string) (v : float) :
  ackViewStarts st !! k = Some v →
  ackViewStarts (files_serve st reqs) !! k = Some v.
Proof.
  revert st. induction reqs as [|req reqs IH]; intros st Hk; [exact Hk|].
  cbn [files_serve fold_left]. apply IH, files_handle_view_starts, Hk.
Qed.

Lemma is_finite_number (x : float) : is_finite x = true → is_nan x = false.
Proof.
  unfold is_finite. destruct (is_nan x); [discriminate | reflexivity].
Qed.

(** X20: An acknowledgment is recorded only for an existing file, after a
    recorded view of it by the same user, when the pair has no
    acknowledgment yet, and not before the unlock time (first view plus
    the configured delay) when that time is a valid date; the new entry is
    appended with the user, the file id and the file's name. *)
Theorem acknowledge_needs_view_and_delay (now : float) (u name : string)
    (i : Z) st (code : nat) a st' :
  acknowledge now u name (Some i) st = (code, AckDone a, st') →
  ∃ file viewMs,
    find_file (Some i) (files st) = Some file
    ∧ ackViewStarts st !! view_key u i = Some viewMs
    ∧ find_ack u i (acknowledgments st) = None
    ∧ (let unlockAtMs := (viewMs + configuredDelayMs file)%float in
       is_finite unlockAtMs = true → valid_time unlockAtMs = true →
       JS.lt now unlockAtMs = false
       ∧ (is_nan now = false → JS.le unlockAtMs now))
    ∧ acknowledgments st' = (acknowledgments st ++ [a])%list
    ∧ files st' = files st ∧ ackViewStarts st' = ackViewStarts st
    ∧ ack_userId a = u ∧ ack_fileId a = i
    ∧ fileName a = originalName file.
Proof.
  unfold acknowledge.
  destruct (find_file (Some i) (files st)) as [file|] eqn:Hfile; [|discriminate].
  destruct (ackViewStarts st !! view_key u i) as [v|] eqn:Hv; [|discriminate].
  cbn zeta.
  destruct (is_finite (v + configuredDelayMs file)) eqn:Efin;
    destruct (JS.lt now (v + configuredDelayMs file)) eqn:Elt;
    destruct (valid_time (v + configuredDelayMs file)) eqn:Eval;
    cbn [andb]; try discriminate.
  all: destruct (find_ack u i (acknowledgments st)) eqn:Hf; [discriminate|].
  all: intros E; injection E as <- <- <-.
  all: exists file, v; split; [reflexivity|]; split; [reflexivity|];
       split; [reflexivity|]; split;
       [|cbn; repeat split; reflexivity].
  all: cbn zeta; intros H1 H2; try congruence.
  all: split; [exact Elt|].
  all: intros Hnow; apply JSFacts.not_lt_ge;
       [exact Hnow | apply is_finite_number; assumption | exact Elt].
Qed.

Lemma find_file_app (i : Z) (l l' : list FileEntry) (f : FileEntry) :
  find_file (Some i) l = Some f → find_file (Some i) (l ++ l') = Some f.
Proof.
  unfold find_file. induction l as [|g l IH]; cbn [List.find app];
    [discriminate|].
  destruct (Z.eqb (file_id g) i); [auto | exact IH].
Qed.

Lemma files_handle_timely st req :
  ack_timely st → (∀ i, req ≠ DeleteFile i) →
  ack_timely (files_handle st req).
Proof.
  intros Ht Hnd.
  destruct req as [file raw | fileId | now viewer fileId | now u name fileId];
    cbn [files_handle].
  - unfold upload. destruct file as [dn|]; [|exact Ht]. cbn [snd].
    intros a Ha. cbn [acknowledgments] in Ha.
    destruct (Ht a Ha) as (f & v & Hf & Hv & Hgate).
    exists f, v. cbn [files ackViewStarts].
    split; [apply find_file_app, Hf|]. split; assumption.
  - exfalso. exact (Hnd fileId eq_refl).
  - unfold view_file.
    destruct (find_file fileId (files st)) as [file0|], fileId as [j|];
      try exact Ht.
    cbn [snd]. destruct (negb _); [|exact Ht].
    destruct (ackViewStarts st !! view_key viewer j) eqn:E; [exact Ht|].
    intros a Ha. cbn [acknowledgments] in Ha.
    destruct (Ht a Ha) as (f & v & Hf & Hv & Hgate).
    exists f, v. cbn [files ackViewStarts]. split; [exact Hf|].
    split; [|exact Hgate].
    rewrite lookup_insert_ne; [exact Hv|]. intros Ek. congruence.
  - unfold acknowledge.
    destruct (find_file fileId (files st)) as [file|] eqn:Hfile,
             fileId as [i|]; try exact Ht.
    destruct (ackViewStarts st !! view_key u i) as [v|] eqn:Hv; [|exact Ht].
    cbn zeta.
    destruct (is_finite (v + configuredDelayMs file)
              && JS.lt now (v + configuredDelayMs file)
              && valid_time (v + configuredDelayMs file)) eqn:Egate;
      [exact Ht|].
    destruct (find_ack u i (acknowledgments st)); [exact Ht|].
    cbn [snd]. intros a Ha. cbn [acknowledgments] in Ha.
    cbn [files ackViewStarts].
    apply elem_of_app in Ha as [Ha | Ha]; [exact (Ht a Ha)|].
    apply list_elem_of_singleton in Ha. subst a.
    cbn [ack_userId ack_fileId acknowledgedAt].
    exists file, v. split; [exact Hfile|]. split; [exact Hv|].
    intros Hfin Hval. rewrite Hfin, Hval in Egate.
    destruct (JS.lt now (v + configuredDelayMs file));
      [discriminate | reflexivity].
Qed.

(** X21: As long as no file is deleted, every acknowledgment in the array was
    made for a file that is found under its id, after a recorded view by
    its user, and not before that view plus the file's configured delay
    (when this unlock time is a valid date): a user cannot acknowledge
    early, whatever requests are tried and in whatever order. *)
Theorem acknowledgments_respect_delay st reqs :
  ack_timely st →
  Forall (fun req => ∀ i, req ≠ DeleteFile i) reqs →
  ack_timely (files_serve st reqs).
Proof.
  intros Ht Hall. revert st Ht.
  induction Hall as [|req reqs Hreq _ IH]; intros st Ht; [exact Ht|].
  cbn [files_serve fold_left]. apply IH, files_handle_timely; assumption.
Qed.

(** X22: A configured delay so long that the unlock time is beyond the range
    of dates does not block: the acknowledgment is recorded at once,
    answered with the status 403 that the refusal had already set. *)
Theorem oversized_delay_opens_gate (now : float) (u name : string)
    (i : Z) st file (viewMs : float) :
  find_file (Some i) (files st) = Some file →
  ackViewStarts st !! view_key u i = Some viewMs →
  find_ack u i (acknowledgments st) = None →
  is_finite (viewMs + configuredDelayMs file) = true →
  JS.lt now (viewMs + configuredDelayMs file) = true →
  valid_time (viewMs + configuredDelayMs file) = false →
  ∃ a st',
    acknowledge now u name (Some i) st = (403%nat, AckDone a, st')
    ∧ acknowledgments st' = (acknowledgments st ++ [a])%list
    ∧ ack_userId a = u ∧ ack_fileId a = i.
Proof.
  intros Hfile Hv Hf Hfin Hlt Hval. unfold acknowledge.
  rewrite Hfile, Hv. cbn zeta. rewrite Hfin, Hlt, Hval, Hf. cbn [andb].
  eexists; eexists. split; [reflexivity|]. cbn. repeat split; reflexivity.
Qed.

End FilesRouter.

(** ** The files router: file ids *)

Section FileIds.

Implicit Types (st : FilesState) (req : FileRequest) (l : list FileEntry).

(** [find] returns the first entry with the id. *)
Lemma find_file_first l (j : nat) (f : FileEntry) :
  l !! j = Some f →
  (∀ j' f', (j' < j)%nat → l !! j' = Some f' → file_id f' ≠ file_id f) →
  find_file (Some (file_id f)) l = Some f.
Proof.
  unfold find_file. revert j. induction l as [|g l IH]; intros j Hj Hbefore.
  - rewrite lookup_nil in Hj. discriminate.
  - destruct j as [|j]; cbn [List.find].
    + cbn in Hj. injection Hj as ->. rewrite Z.eqb_refl. reflexivity.
    + cbn in Hj.
      destruct (Z.eqb (file_id g) (file_id f)) eqn:E.
      * apply Z.eqb_eq in E. exfalso.
        exact (Hbefore 0%nat g ltac:(lia) eq_refl E).
      * apply (IH j Hj). intros j' f' Hlt Hj'.
        exact (Hbefore (S j') f' ltac:(lia) Hj').
Qed.

Lemma findIndex_first l (j : nat) (f : FileEntry) :
  l !! j = Some f →
  (∀ j' f', (j' < j)%nat → l !! j' = Some f' → file_id f' ≠ file_id f) →
  findIndex (file_id f) l = Some j.
Proof.
  revert j. induction l as [|g l IH]; intros j Hj Hbefore.
  - rewrite lookup_nil in Hj. discriminate.
  - destruct j as [|j]; cbn [findIndex].
    + cbn in Hj. injection Hj as ->. rewrite Z.eqb_refl. reflexivity.
    + cbn in Hj.
      destruct (Z.eqb (file_id g) (file_id f)) eqn:E.
      * apply Z.eqb_eq in E. exfalso.
        exact (Hbefore 0%nat g ltac:(lia) eq_refl E).
      * rewrite (IH j Hj); [reflexivity|]. intros j' f' Hlt Hj'.
        exact (Hbefore (S j') f' ltac:(lia) Hj').
Qed.

Lemma consecutive_distinct l (j j' : nat) f f' :
  consecutive l → l !! j = Some f → l !! j' = Some f' →
  file_id f' = file_id f → j' = j.
Proof.
  intros Hc Hj Hj' E. rewrite (Hc j f Hj), (Hc j' f' Hj') in E. lia.
Qed.

Lemma files_handle_consecutive st req :
  consecutive (files st) → (∀ i, req ≠ DeleteFile i) →
  consecutive (files (files_handle st req)).
Proof.
  intros Hc Hnd.
  destruct req as [file raw | fileId | now viewer fileId | now u name fileId];
    cbn [files_handle].
  - unfold upload. destruct file as [name|]; [|exact Hc]. cbn.
    intros k f Hk.
    destruct (decide (k < length (files st))%nat) as [Hlt | Hge].
    + rewrite lookup_app_l in Hk by exact Hlt. exact (Hc k f Hk).
    + rewrite lookup_app_r in Hk by lia.
      destruct (k - length (files st))%nat as [|m] eqn:Em;
        simpl in Hk; [|discriminate].
      injection Hk as <-. cbn. f_equal. lia.
  - exfalso. exact (Hnd fileId eq_refl).
  - unfold view_file.
    destruct (find_file fileId (files st)), fileId; try exact Hc.
    cbn [snd]. destruct (negb _); [|exact Hc].
    destruct (ackViewStarts st !! _); exact Hc.
  - unfold acknowledge.
    destruct (find_file fileId (files st)) as [file|], fileId as [i|];
      try exact Hc.
    destruct (ackViewStarts st !! view_key u i); [|exact Hc].
    cbn zeta. destruct (_ && valid_time _); [exact Hc|].
    destruct (find_ack u i (acknowledgments st)); exact Hc.
Qed.

(** X23: As long as no file is deleted, the ids of the files stay 1, 2, ... in
    the order of the array, so they are distinct and every file is the
    one found under its id. *)
Theorem ids_consecutive_without_deletion st reqs :
  consecutive (files st) →
  Forall (fun req => ∀ i, req ≠ DeleteFile i) reqs →
  let st' := files_serve st reqs in
  consecutive (files st')
  ∧ ∀ f, f ∈ files st' → find_file (Some (file_id f)) (files st') = Some f.
Proof.
  intros Hc Hall.
  assert (H : consecutive (files (files_serve st reqs))).
  { revert st Hc. induction Hall as [|req reqs Hreq _ IH]; intros st Hc;
      [exact Hc|].
    cbn [files_serve fold_left].
    apply IH, files_handle_consecutive; assumption. }
  split; [exact H|].
  intros f Hin. apply list_elem_of_lookup in Hin as [j Hj].
  apply (find_file_first _ j f Hj). intros j' f' Hlt Hj' E.
  pose proof (consecutive_distinct _ j j' f f' H Hj Hj' E). lia.
Qed.

(** X24: After the deletion of a file other than the last one, the next upload
    is given the id of the file that is now last; a lookup by that id
    finds the older file, not the new one. *)
Theorem upload_after_delete_reuses_id st (k : Z) (name : string)
    (raw : float) (old : FileEntry) :
  consecutive (files st) →
  last (files st) = Some old →
  (1 ≤ k < Z.of_nat (length (files st)))%Z →
  ∃ st1 newFile st2,
    delete_file (Some k) st = (Ok tt, st1)
    ∧ upload (Some name) raw st1 = (Ok newFile, st2)
    ∧ file_id newFile = file_id old
    ∧ originalName newFile = name
    ∧ last (files st2) = Some newFile
    ∧ find_file (Some (file_id newFile)) (files st2) = Some old.
Proof.
  intros Hc Hlast Hk.
  set (n := length (files st)) in *.
  rewrite last_lookup in Hlast. fold n in Hlast.
  assert (Hold : file_id old = Z.of_nat n) by (rewrite (Hc _ _ Hlast); lia).
  destruct (lookup_lt_is_Some_2 (files st) (Z.to_nat (k - 1)) ltac:(lia))
    as [fk Hfk].
  assert (Hidk : file_id fk = k) by (rewrite (Hc _ _ Hfk); lia).
  assert (Hidx : findIndex k (files st) = Some (Z.to_nat (k - 1))).
  { pose proof (findIndex_first _ _ fk Hfk) as Hfi. rewrite Hidk in Hfi.
    apply Hfi. intros j' f' Hlt Hj' E. rewrite <- Hidk in E.
    pose proof (consecutive_distinct _ _ j' fk f' Hc Hfk Hj' E). lia. }
  unfold delete_file. rewrite Hidx.
  eexists; eexists; eexists. split; [reflexivity|].
  unfold upload. cbn [files acknowledgments ackViewStarts].
  split; [reflexivity|].
  assert (Hlen : length (delete (Z.to_nat (k - 1)) (files st)) = (n - 1)%nat).
  { rewrite length_delete; [reflexivity | eexists; exact Hfk]. }
  cbn [file_id originalName]. rewrite Hlen.
  split; [rewrite Hold; lia|]. split; [reflexivity|].
  split; [apply last_snoc|]. cbn [files].
  replace (Z.of_nat (n - 1) + 1)%Z with (file_id old) by (rewrite Hold; lia).
  assert (Hpos : delete (Z.to_nat (k - 1)) (files st) !! (n - 2)%nat = Some old).
  { rewrite list_lookup_delete_ge by lia.
    replace (S (n - 2)) with (pred n) by lia. exact Hlast. }
  apply (find_file_first _ (n - 2)%nat old).
  - rewrite lookup_app_l; [exact Hpos | rewrite Hlen; lia].
  - intros j' f' Hlt Hj' E.
    rewrite lookup_app_l in Hj' by (rewrite Hlen; lia).
    destruct (decide (j' < Z.to_nat (k - 1))%nat) as [Hlt' | Hge'].
    + rewrite list_lookup_delete_lt in Hj' by exact Hlt'.
      pose proof (consecutive_distinct _ _ j' old f' Hc Hlast Hj' E). lia.
    + rewrite list_lookup_delete_ge in Hj' by lia.
      pose proof (consecutive_distinct _ _ (S j') old f' Hc Hlast Hj' E). lia.
Qed.

Lemma find_ack_present (u : string) (i : Z) (acks : list Acknowledgment) a :
  a ∈ acks → ack_userId a = u → ack_fileId a = i →
  ∃ b, find_ack u i acks = Some b.
Proof.
  intros Hin Hu Hi. destruct (find_ack u i acks) as [b|] eqn:E;
    [exists b; reflexivity|].
  exfalso. exact (find_ack_None u i acks E a Hin (conj Hu Hi)).
Qed.

(** X25: Deleting a file removes neither its acknowledgments nor its view
    starts.  When the last file is deleted and another one is uploaded,
    the new file gets the same id and is the one found under it; a user
    who acknowledged the deleted file can then never acknowledge the new
    one, every attempt being refused without a change of state. *)
Theorem successor_inherits_acknowledgments st (name : string) (raw : float)
    (old : FileEntry) (u : string) a :
  consecutive (files st) →
  last (files st) = Some old →
  a ∈ acknowledgments st → ack_userId a = u → ack_fileId a = file_id old →
  ∃ st1 newFile st2,
    delete_file (Some (file_id old)) st = (Ok tt, st1)
    ∧ upload (Some name) raw st1 = (Ok newFile, st2)
    ∧ file_id newFile = file_id old
    ∧ find_file (Some (file_id old)) (files st2) = Some newFile
    ∧ acknowledgments st2 = acknowledgments st
    ∧ ackViewStarts st2 = ackViewStarts st
    ∧ ∀ (now : float) (username : string),
        ∃ code error remaining,
          acknowledge now u username (Some (file_id old)) st2
          = (code, AckError error remaining, st2).
Proof.
  intros Hc Hlast Hin Hu Hi.
  set (n := length (files st)) in *.
  pose proof Hlast as Hlast'. rewrite last_lookup in Hlast'. fold n in Hlast'.
  assert (Hn : (0 < n)%nat).
  { apply lookup_lt_Some in Hlast'. fold n in Hlast'. lia. }
  assert (Hold : file_id old = Z.of_nat n) by (rewrite (Hc _ _ Hlast'); lia).
  assert (Hidx : findIndex (file_id old) (files st) = Some (pred n)).
  { apply (findIndex_first _ _ old Hlast').
    intros j' f' Hlt Hj' E.
    pose proof (consecutive_distinct _ _ j' old f' Hc Hlast' Hj' E). lia. }
  unfold delete_file. rewrite Hidx.
  eexists; eexists; eexists. split; [reflexivity|].
  unfold upload. cbn [files acknowledgments ackViewStarts].
  split; [reflexivity|].
  assert (Hlen : length (delete (pred n) (files st)) = (n - 1)%nat).
  { rewrite length_delete; [reflexivity | eexists; exact Hlast']. }
  rewrite Hlen. cbn [file_id].
  assert (Hid : (Z.of_nat (n - 1) + 1)%Z = file_id old) by (rewrite Hold; lia).
  rewrite Hid.
  set (newFile := {| file_id := file_id old; originalName := name;
                     ackDelayMinutes := _ |}).
  assert (Hfind : find_file (Some (file_id old))
                    (delete (pred n) (files st) ++ [newFile]) = Some newFile).
  { apply (find_file_first _ (n - 1)%nat newFile).
    - rewrite lookup_app_r by (rewrite Hlen; lia).
      rewrite Hlen, Nat.sub_diag. reflexivity.
    - intros j' f' Hlt Hj' E.
      rewrite lookup_app_l in Hj' by (rewrite Hlen; lia).
      rewrite list_lookup_delete_lt in Hj' by lia.
      pose proof (consecutive_distinct _ _ j' old f' Hc Hlast' Hj' E). lia. }
  split; [reflexivity|]. split; [exact Hfind|].
  split; [reflexivity|]. split; [reflexivity|].
  intros now username. unfold acknowledge.
  cbn [files acknowledgments ackViewStarts]. rewrite Hfind.
  destruct (ackViewStarts st !! view_key u (file_id old));
    [|eexists; eexists; eexists; reflexivity].
  cbn zeta. destruct (_ && valid_time _);
    [eexists; eexists; eexists; reflexivity|].
  destruct (find_ack_present u (file_id old) _ a Hin Hu Hi) as [b ->].
  eexists; eexists; eexists; reflexivity.
Qed.

End FileIds.

(** ** The files router: the keys of the view starts *)

Section ViewKeys.

Implicit Types (st : FilesState) (req : FileRequest).

Lemma colon_free_go (x : N) (s : string) :
  colon_free s = true → colon_free (pretty_N_go x s) = true.
Proof.
  revert s. induction (N.lt_wf_0 x) as [x _ IH]. intros s Hs.
  assert (x = 0 ∨ 0 < x)%N as [-> | Hx] by lia.
  - rewrite pretty_N_go_0. exact Hs.
  - rewrite pretty_N_go_step by exact Hx. apply IH.
    + apply N.div_lt; lia.
    + cbn [colon_free]. rewrite Hs, andb_true_r.
      unfold pretty_N_char. repeat case_match; reflexivity.
Qed.

Lemma colon_free_pretty_N (x : N) : colon_free (pretty x) = true.
Proof.
  unfold pretty, pretty_N. destruct (decide (x = 0%N)); [reflexivity|].
  apply colon_free_go. reflexivity.
Qed.

Lemma colon_free_cons (c : Ascii.ascii) (s : string) :
  Ascii.eqb c colon = false → colon_free s = true →
  colon_free (String c s) = true.
Proof. intros Hc Hs. cbn [colon_free]. rewrite Hc, Hs. reflexivity. Qed.

Lemma colon_free_pretty_Z (i : Z) : colon_free (pretty i) = true.
Proof.
  destruct i as [|p|p]; unfold pretty, pretty_Z.
  - reflexivity.
  - apply colon_free_pretty_N.
  - apply (colon_free_cons (Ascii.ascii_of_nat 45));
      [reflexivity | apply colon_free_pretty_N].
Qed.

Lemma append_nil (t : string) : "" ++ t = t.
Proof. reflexivity. Qed.

Lemma append_cons (c : Ascii.ascii) (s t : string) :
  String c s ++ t = String c (s ++ t).
Proof. reflexivity. Qed.

Lemma colon_free_app_colon (s d : string) :
  colon_free (s ++ String colon d) = false.
Proof.
  induction s as [|c s IH].
  - rewrite append_nil. cbn [colon_free].
    rewrite Ascii.eqb_refl. reflexivity.
  - rewrite append_cons. cbn [colon_free]. rewrite IH. apply andb_false_r.
Qed.

Lemma split_at_last_colon (s1 s2 d1 d2 : string) :
  colon_free d1 = true → colon_free d2 = true →
  s1 ++ String colon d1 = s2 ++ String colon d2 →
  s1 = s2 ∧ d1 = d2.
Proof.
  intros H1 H2. revert s2.
  induction s1 as [|c s1 IH]; intros [|c2 s2] E;
    rewrite ?append_nil, ?append_cons in E.
  - injection E as ->. split; reflexivity.
  - injection E as <- ->. rewrite colon_free_app_colon in H1. discriminate.
  - injection E as -> <-. rewrite colon_free_app_colon in H2. discriminate.
  - injection E as <- E. destruct (IH s2 E) as [-> ->]. split; reflexivity.
Qed.

(** Different (viewer, file) pairs have different keys. *)
Lemma view_key_inj (u u' : string) (i i' : Z) :
  view_key u i = view_key u' i' → u = u' ∧ i = i'.
Proof.
  unfold view_key. intros E.
  change (":" ++ pretty i) with (String colon (pretty i)) in E.
  change (":" ++ pretty i') with (String colon (pretty i')) in E.
  apply split_at_last_colon in E as [-> Hp];
    [|apply colon_free_pretty_Z..].
  split; [reflexivity|]. exact (pretty_Z_inj _ _ Hp).
Qed.

Lemma files_handle_no_view st req (u : string) (i : Z) :
  ackViewStarts st !! view_key u i = None →
  (∀ now, req ≠ View now u (Some i)) →
  ackViewStarts (files_handle st req) !! view_key u i = None.
Proof.
  intros Hk Hreq.
  destruct req as [file raw | fileId | now viewer fileId | now u' name fileId];
    cbn [files_handle].
  - unfold upload. destruct file; exact Hk.
  - unfold delete_file. destruct fileId as [j|]; [|exact Hk].
    destruct (findIndex j (files st)); exact Hk.
  - unfold view_file.
    destruct (find_file fileId (files st)), fileId as [j|]; try exact Hk.
    cbn [snd]. destruct (negb _); [|exact Hk].
    destruct (ackViewStarts st !! view_key viewer j) eqn:E; [exact Hk|].
    cbn. rewrite lookup_insert_ne; [exact Hk|].
    intros Ekey. apply view_key_inj in Ekey as [-> ->].
    exact (Hreq now eq_refl).
  - unfold acknowledge.
    destruct (find_file fileId (files st)) as [file|], fileId as [j|];
      try exact Hk.
    destruct (ackViewStarts st !! view_key u' j); [|exact Hk].
    cbn zeta. destruct (_ && valid_time _); [exact Hk|].
    destruct (find_ack u' j (acknowledgments st)); exact Hk.
Qed.

(** X26: A view counts for its own (viewer, file) pair only: as long as a user
    has not requested the view of a file id, whatever other users view
    and whatever else is requested, no view start is recorded for the
    pair and the user has no acknowledgment of the file. *)
Theorem no_view_no_acknowledgment st reqs (u : string) (i : Z) :
  acks_wellformed st →
  ackViewStarts st !! view_key u i = None →
  Forall (fun req => ∀ now, req ≠ View now u (Some i)) reqs →
  let st' := files_serve st reqs in
  ackViewStarts st' !! view_key u i = None
  ∧ ∀ a, a ∈ acknowledgments st' → ¬ (ack_userId a = u ∧ ack_fileId a = i).
Proof.
  intros Hwf Hk Hall st'.
  assert (Hk' : ackViewStarts st' !! view_key u i = None).
  { unfold st'. clear Hwf st'. revert st Hk.
    induction Hall as [|req reqs Hreq _ IH]; intros st Hk; [exact Hk|].
    cbn [files_serve fold_left]. apply IH, files_handle_no_view; assumption. }
  split; [exact Hk'|].
  intros a Hin [Hu Hi].
  pose proof (wf_viewed _ (files_serve_wellformed reqs st Hwf) a Hin) as [v Hv].
  fold st' in Hv. rewrite Hu, Hi, Hk' in Hv. discriminate.
Qed.

End ViewKeys.

(** ** The chunks of a large upload *)

Section LargeUploadFacts.

Variable Item : Type.
Variable reply : nat → nat * option Item.
Variable finalize : option Item.

Implicit Types (buffer : list Byte.byte) (sent more : list ChunkRequest).
Implicit Types (item : option Item).

Lemma div_up_step (m c : nat) :
  (0 < m)%nat → (1 ≤ c)%nat →
  ((m + c - 1) / c = S ((m - Nat.min c m + c - 1) / c))%nat.
Proof.
  intros Hm Hc. destruct (Nat.le_gt_cases m c) as [Hle | Hgt].
  - rewrite Nat.min_r by exact Hle.
    replace (m - m + c - 1)%nat with (c - 1)%nat by lia.
    rewrite (Nat.div_small (c - 1) c) by lia.
    symmetry. apply (Nat.div_unique _ _ 1 (m - 1)); lia.
  - rewrite Nat.min_l by lia.
    replace (m + c - 1)%nat with ((m - 1) + 1 * c)%nat by lia.
    rewrite Nat.div_add by lia.
    replace (m - c + c - 1)%nat with (m - 1)%nat by lia. lia.
Qed.

(** The loop, started anywhere in the buffer with enough fuel, against a
    service that accepts every chunk. *)
Lemma uploadLargeFile_loop_accepted (fuel : nat) buffer (chunkSize : nat) :
  (1 ≤ chunkSize)%nat →
  (∀ k, accepted (reply k).1 = true) →
  ∀ (start : nat) item sent,
    (start ≤ length buffer)%nat → (length buffer - start < fuel)%nat →
    ∃ item' more,
      uploadLargeFile_loop Item reply finalize fuel buffer chunkSize start
        item sent
      = Some (Returned item', (sent ++ more)%list)
      ∧ concat (map chunk more) = drop start buffer
      ∧ Forall (fun r => (1 ≤ length (chunk r) ≤ chunkSize)%nat
                         ∧ range_end r = (range_start r + length (chunk r))%nat
                         ∧ range_total r = length buffer) more
      ∧ chained start more (length buffer)
      ∧ length more = ((length buffer - start + chunkSize - 1) / chunkSize)%nat
      ∧ (more = [] → item' = from_option Some finalize item)
      ∧ ((∀ k, (length sent ≤ k)%nat → (reply k).1 = 202%nat) →
         item' = from_option Some finalize item)
      ∧ (more ≠ [] →
         (reply (length sent + length more - 1)).1 ≠ 202%nat →
         item' = from_option Some finalize
                   (reply (length sent + length more - 1)).2).
Proof.
  intros Hc Hok. induction fuel as [|fuel IH]; intros start item sent Hs Hf;
    [lia|].
  cbn [uploadLargeFile_loop]. cbn zeta.
  destruct (start <? length buffer)%nat eqn:Elt.
  - apply Nat.ltb_lt in Elt.
    set (end_ := Nat.min (start + chunkSize) (length buffer)).
    set (req := {| range_start := start; range_end := end_;
                   range_total := length buffer;
                   chunk := take (end_ - start) (drop start buffer) |}).
    assert (Hend : (start < end_ ≤ length buffer)%nat) by (unfold end_; lia).
    assert (Hlen : length (chunk req) = (end_ - start)%nat).
    { cbn. rewrite length_take, length_drop. lia. }
    assert (Hrest : ∀ item1,
      ∃ item' more,
        uploadLargeFile_loop Item reply finalize fuel buffer chunkSize end_
          item1 (sent ++ [req])
        = Some (Returned item', (sent ++ req :: more)%list)
        ∧ concat (map chunk (req :: more)) = drop start buffer
        ∧ Forall (fun r => (1 ≤ length (chunk r) ≤ chunkSize)%nat
                           ∧ range_end r = (range_start r + length (chunk r))%nat
                           ∧ range_total r = length buffer) (req :: more)
        ∧ chained start (req :: more) (length buffer)
        ∧ length (req :: more)
          = ((length buffer - start + chunkSize - 1) / chunkSize)%nat
        ∧ (more = [] → item' = from_option Some finalize item1)
        ∧ ((∀ k, (length sent + 1 ≤ k)%nat → (reply k).1 = 202%nat) →
           item' = from_option Some finalize item1)
        ∧ (more ≠ [] →
           (reply (length sent + 1 + length more - 1)).1 ≠ 202%nat →
           item' = from_option Some finalize
                     (reply (length sent + 1 + length more - 1)).2)).
    { intros item1.
      destruct (IH end_ item1 (sent ++ [req])%list ltac:(lia) ltac:(lia))
        as (item' & more & E & Hcat & Hall & Hch & Hn & He & H202 & Hlast).
      rewrite length_app in H202, Hlast. cbn [length] in H202, Hlast.
      exists item', more. rewrite <- app_assoc in E. cbn [app] in E.
      split; [exact E|]. split.
      { cbn [map concat]. rewrite Hcat. cbn [chunk req].
        replace end_ with (start + (end_ - start))%nat at 2 by lia.
        rewrite <- drop_drop. apply take_drop. }
      split.
      { constructor; [|exact Hall]. rewrite Hlen. cbn [range_end range_start
          range_total req]. unfold end_. lia. }
      split; [split; [reflexivity | exact Hch]|].
      split.
      { cbn [length]. rewrite Hn.
        rewrite (div_up_step (length buffer - start) chunkSize) by lia.
        f_equal. f_equal. unfold end_. lia. }
      auto. }
    destruct (reply (length sent)) as [status body] eqn:Er. cbn [fst snd].
    pose proof (Hok (length sent)) as Hacc. rewrite Er in Hacc.
    cbn [fst] in Hacc. unfold accepted in Hacc.
    destruct ((status =? 200)%nat || (status =? 201)%nat) eqn:E200.
    + destruct (Hrest body)
        as (item' & more & E & Hcat & Hall & Hch & Hn & He & H202 & Hlast).
      exists item', (req :: more). split; [exact E|].
      split; [exact Hcat|]. split; [exact Hall|]. split; [exact Hch|].
      split; [exact Hn|]. split; [discriminate|]. split.
      * intros Hall202. pose proof (Hall202 (length sent) ltac:(lia)) as H.
        rewrite Er in H. cbn in H. subst status. discriminate.
      * intros _ Hne. cbn [length] in Hne |- *.
        destruct more as [|r more].
        -- cbn [length]. replace (length sent + 1 - 1)%nat with (length sent) by lia.
           rewrite Er. cbn [snd]. apply He. reflexivity.
        -- replace (length sent + S (length (r :: more)) - 1)%nat
             with (length sent + 1 + length (r :: more) - 1)%nat in * by lia.
           apply Hlast; [discriminate | exact Hne].
    + cbn [orb] in Hacc. rewrite Hacc. cbn [negb].
      destruct (Hrest item)
        as (item' & more & E & Hcat & Hall & Hch & Hn & He & H202 & Hlast).
      exists item', (req :: more). split; [exact E|].
      split; [exact Hcat|]. split; [exact Hall|]. split; [exact Hch|].
      split; [exact Hn|]. split; [discriminate|]. split.
      * intros Hall202. apply H202. intros k Hk. apply Hall202. lia.
      * intros _ Hne. cbn [length] in Hne |- *.
        destruct more as [|r more].
        -- exfalso. apply Hne. cbn [length].
           replace (length sent + 1 - 1)%nat with (length sent) by lia.
           rewrite Er. cbn [fst]. apply Nat.eqb_eq, Hacc.
        -- replace (length sent + S (length (r :: more)) - 1)%nat
             with (length sent + 1 + length (r :: more) - 1)%nat in * by lia.
           apply Hlast; [discriminate | exact Hne].
  - apply Nat.ltb_ge in Elt. assert (start = length buffer) as -> by lia.
    exists (from_option Some finalize item), []. rewrite app_nil_r.
    split; [destruct item; reflexivity|].
    split; [rewrite drop_all; reflexivity|]. split; [constructor|].
    split; [reflexivity|]. split.
    { rewrite Nat.sub_diag. cbn [plus]. symmetry. apply Nat.div_small. lia. }
    split; [reflexivity|]. split; [reflexivity|]. intros H. contradiction.
Qed.

(** The item that the loop returns, from the item it holds after the
    requests sent so far. *)
Lemma uploadLargeFile_loop_item (fuel : nat) buffer (chunkSize : nat) :
  ∀ (start : nat) item sent item' sent',
    uploadLargeFile_loop Item reply finalize fuel buffer chunkSize start
      item sent
    = Some (Returned item', sent') →
    item = last_item Item reply (length sent) →
    item' = from_option Some finalize (last_item Item reply (length sent')).
Proof.
  induction fuel as [|fuel IH]; intros start item sent item' sent' E Hi;
    [discriminate|].
  cbn [uploadLargeFile_loop] in E. cbn zeta in E.
  destruct (start <? length buffer)%nat.
  - destruct (((reply (length sent)).1 =? 200)%nat
              || ((reply (length sent)).1 =? 201)%nat) eqn:E200.
    + apply (IH _ _ _ _ _ E). rewrite length_app. cbn [length].
      rewrite Nat.add_1_r. cbn [last_item]. rewrite E200. reflexivity.
    + destruct (negb ((reply (length sent)).1 =? 202)%nat); [discriminate|].
      apply (IH _ _ _ _ _ E). rewrite length_app. cbn [length].
      rewrite Nat.add_1_r. cbn [last_item]. rewrite E200. exact Hi.
  - injection E as <- <-. rewrite <- Hi. destruct item; reflexivity.
Qed.

(** X27: With a chunk size of at least one and a service that accepts every
    chunk (200, 201 or 202), [uploadLargeFile] returns: a fuel above the
    length of the buffer is enough.  The chunks it sent, put together in
    order, are the buffer; each has between one and chunkSize bytes and a
    range that matches it; the ranges follow one another from 0 to the
    total; their number is the length divided by the chunk size, rounded
    up.  The item returned is the body of the last answer with status 200
    or 201, also when answers with 202 follow it, and the item of the
    finalization GET when there is no such answer or when that body is
    falsy; so it is the finalization item when every answer was 202, and
    the body of the last answer (or, for a falsy body, the finalization
    item) when the last answer was not a 202. *)
Theorem uploadLargeFile_sends_the_buffer_in_chunks (fuel : nat) buffer
    (chunkSize : nat) :
  (1 ≤ chunkSize)%nat →
  (∀ k, accepted (reply k).1 = true) →
  (length buffer < fuel)%nat →
  ∃ item sent,
    uploadLargeFile Item reply finalize fuel buffer chunkSize
    = Some (Returned item, sent)
    ∧ concat (map chunk sent) = buffer
    ∧ Forall (fun r => (1 ≤ length (chunk r) ≤ chunkSize)%nat
                       ∧ range_end r = (range_start r + length (chunk r))%nat
                       ∧ range_total r = length buffer) sent
    ∧ chained 0 sent (length buffer)
    ∧ length sent = ((length buffer + chunkSize - 1) / chunkSize)%nat
    ∧ item = from_option Some finalize (last_item Item reply (length sent))
    ∧ ((∀ k, (reply k).1 = 202%nat) → item = finalize)
    ∧ (sent ≠ [] → (reply (length sent - 1)).1 ≠ 202%nat →
       item = from_option Some finalize (reply (length sent - 1)).2).
Proof.
  intros Hc Hok Hf. unfold uploadLargeFile.
  destruct (uploadLargeFile_loop_accepted fuel buffer chunkSize Hc Hok 0 None []
              ltac:(lia) ltac:(lia))
    as (item & more & E & Hcat & Hall & Hch & Hn & _ & H202 & Hlast).
  exists item, more. cbn [app length] in *. rewrite Nat.sub_0_r in Hn.
  split; [exact E|]. split; [exact Hcat|]. split; [exact Hall|].
  split; [exact Hch|]. split; [exact Hn|]. split; [|split].
  - exact (uploadLargeFile_loop_item fuel buffer chunkSize 0 None [] item more
             E eq_refl).
  - intros H. apply H202. intros k _. apply H.
  - exact Hlast.
Qed.

(** X28: With a chunk size of zero, a buffer that is not empty and a service
    that accepts every chunk, the loop never ends: whatever the fuel, the
    upload has neither returned nor thrown. *)
Theorem uploadLargeFile_zero_chunk_never_returns (fuel : nat) buffer :
  buffer ≠ [] →
  (∀ k, accepted (reply k).1 = true) →
  uploadLargeFile Item reply finalize fuel buffer 0 = None.
Proof.
  intros Hb Hok. unfold uploadLargeFile.
  assert (H : ∀ item sent,
            uploadLargeFile_loop Item reply finalize fuel buffer 0 0 item sent
            = None).
  { induction fuel as [|fuel IH]; intros item sent; [reflexivity|].
    cbn [uploadLargeFile_loop]. cbn zeta.
    destruct buffer as [|b buffer']; [contradiction|].
    cbn [length Nat.ltb Nat.leb Nat.min plus].
    pose proof (Hok (length sent)) as Hacc. unfold accepted in Hacc.
    destruct (((reply (length sent)).1 =? 200)%nat
              || ((reply (length sent)).1 =? 201)%nat) eqn:E200.
    - apply IH.
    - cbn [orb] in Hacc. rewrite Hacc. cbn [negb]. apply IH. }
  apply H.
Qed.

(** X29: When the service answers a chunk with a status other than 200, 201
    and 202, after accepting the ones before it, the upload throws with
    that status and sends nothing after that chunk. *)
Theorem uploadLargeFile_stops_at_refused_chunk (fuel : nat) buffer
    (chunkSize k : nat) :
  (k * chunkSize < length buffer)%nat →
  (k < fuel)%nat →
  (∀ j, (j < k)%nat → accepted (reply j).1 = true) →
  accepted (reply k).1 = false →
  ∃ sent,
    uploadLargeFile Item reply finalize fuel buffer chunkSize
    = Some (Thrown (reply k).1, sent)
    ∧ length sent = S k.
Proof.
  intros Hk Hf Hok Hbad. unfold uploadLargeFile.
  assert (H : ∀ (n fuel start : nat) item sent,
            (start + n * chunkSize < length buffer)%nat → (n < fuel)%nat →
            (length sent + n = k)%nat →
            ∃ more,
              uploadLargeFile_loop Item reply finalize fuel buffer chunkSize
                start item sent
              = Some (Thrown (reply k).1, (sent ++ more)%list)
              ∧ length more = S n).
  { clear fuel Hf Hk. induction n as [|n IH]; intros fuel start item sent Hs Hf Hn.
    - destruct fuel as [|fuel]; [lia|]. cbn [uploadLargeFile_loop]. cbn zeta.
      assert (E : (start <? length buffer)%nat = true) by (apply Nat.ltb_lt; lia).
      rewrite E. rewrite Nat.add_0_r in Hn. rewrite Hn.
      unfold accepted in Hbad.
      apply orb_false_iff in Hbad as [Hbad H202].
      rewrite Hbad, H202. cbn [negb].
      eexists [_]. split; reflexivity.
    - destruct fuel as [|fuel]; [lia|]. cbn [uploadLargeFile_loop]. cbn zeta.
      assert (E : (start <? length buffer)%nat = true) by (apply Nat.ltb_lt; lia).
      rewrite E.
      assert (Hmin : Nat.min (start + chunkSize) (length buffer)
                     = (start + chunkSize)%nat) by lia.
      rewrite Hmin.
      pose proof (Hok (length sent) ltac:(lia)) as Hacc. unfold accepted in Hacc.
      set (req := {| range_start := start |}).
      assert (Hrest : ∀ item1, ∃ more,
                uploadLargeFile_loop Item reply finalize fuel buffer chunkSize
                  (start + chunkSize) item1 (sent ++ [req])
                = Some (Thrown (reply k).1, (sent ++ req :: more)%list)
                ∧ length (req :: more) = S (S n)).
      { intros item1.
        destruct (IH fuel (start + chunkSize)%nat item1 (sent ++ [req])%list)
          as (more & Em & Hl); [lia | lia | rewrite length_app; cbn; lia |].
        exists more. rewrite <- app_assoc in Em. cbn [app] in Em.
        split; [exact Em | cbn; lia]. }
      destruct (((reply (length sent)).1 =? 200)%nat
                || ((reply (length sent)).1 =? 201)%nat) eqn:E200.
      + destruct (Hrest (reply (length sent)).2) as (more & Em & Hl).
        exists (req :: more). split; assumption.
      + cbn [orb] in Hacc. rewrite Hacc. cbn [negb].
        destruct (Hrest item) as (more & Em & Hl).
        exists (req :: more). split; assumption. }
  destruct (H k fuel 0%nat None [] ltac:(lia) Hf eq_refl) as (more & E & Hl).
  exists more. split; assumption.
Qed.

End LargeUploadFacts.

(** ** The role of a directory user *)

Section MapRoleFacts.

Variable toLowerCase : string → string.

(** The group test holds exactly when the name is set and not empty and
    some group of the user equals it up to case. *)
Lemma in_group_spec (dn : option string) (groups : list (option string)) :
  in_group toLowerCase dn groups = true
  ↔ ∃ d g, dn = Some d ∧ d ≠ "" ∧ g ∈ groups
           ∧ toLowerCase (default "" g) = toLowerCase d.
Proof.
  unfold in_group. destruct dn as [d|].
  - rewrite andb_true_iff, negb_true_iff, String.eqb_neq, existsb_exists.
    split.
    + intros (Hd & g & Hin & Hg). apply String.eqb_eq in Hg.
      exists d, g. rewrite list_elem_of_In. auto.
    + intros (d' & g & E & Hd & Hin & Hg). injection E as <-.
      split; [exact Hd|]. exists g. rewrite <- list_elem_of_In.
      split; [exact Hin | apply String.eqb_eq, Hg].
  - split; [discriminate|]. intros (d & g & E & _). discriminate.
Qed.

(** X30: [mapRole] answers 'admin' exactly for a member of the configured
    admin group, compared without regard to case, also when the user is
    in the compliance group too; 'compliance' exactly for a member of the
    configured compliance group who is not an admin; and 'employee'
    otherwise, in particular for everybody when neither group is
    configured.  A [memberOf] that is a single name counts as the list of
    that name. *)
Theorem mapRole_admin_first (adminDn complianceDn : option string)
    (memberOf : MemberOf) :
  let groups := groups_of memberOf in
  let member dn :=
    ∃ d g, dn = Some d ∧ d ≠ "" ∧ g ∈ groups
           ∧ toLowerCase (default "" g) = toLowerCase d in
  (mapRole toLowerCase adminDn complianceDn memberOf = "admin"
   ↔ member adminDn)
  ∧ (mapRole toLowerCase adminDn complianceDn memberOf = "compliance"
     ↔ ¬ member adminDn ∧ member complianceDn)
  ∧ (mapRole toLowerCase adminDn complianceDn memberOf = "employee"
     ↔ ¬ member adminDn ∧ ¬ member complianceDn)
  ∧ mapRole toLowerCase None None memberOf = "employee"
  ∧ (∀ g, g ≠ "" →
       mapRole toLowerCase adminDn complianceDn (MemberString g)
       = mapRole toLowerCase adminDn complianceDn (MemberArray [Some g])).
Proof.
  intros groups member. unfold mapRole. fold groups.
  pose proof (in_group_spec adminDn groups) as Ha.
  pose proof (in_group_spec complianceDn groups) as Hc.
  fold (member adminDn) in Ha. fold (member complianceDn) in Hc.
  split; [|split; [|split; [|split]]].
  - destruct (in_group toLowerCase adminDn groups).
    + split; [intros _; apply Ha; reflexivity | reflexivity].
    + split; [|intros H; apply Ha in H; discriminate].
      destruct (in_group toLowerCase complianceDn groups); discriminate.
  - destruct (in_group toLowerCase adminDn groups).
    + split; [discriminate|]. intros [H _]. exfalso. apply H, Ha. reflexivity.
    + destruct (in_group toLowerCase complianceDn groups).
      * split; [|reflexivity]. intros _. split; [|apply Hc; reflexivity].
        intros H. apply Ha in H. discriminate.
      * split; [discriminate|]. intros [_ H]. apply Hc in H. discriminate.
  - destruct (in_group toLowerCase adminDn groups).
    + split; [discriminate|]. intros [H _]. exfalso. apply H, Ha. reflexivity.
    + destruct (in_group toLowerCase complianceDn groups).
      * split; [discriminate|]. intros [_ H]. exfalso. apply H, Hc. reflexivity.
      * split; [|reflexivity]. intros _.
        split; intros H; [apply Ha in H | apply Hc in H]; discriminate.
  - reflexivity.
  - intros g Hg. cbn [groups_of].
    destruct (String.eqb g "") eqn:E; [|reflexivity].
    apply String.eqb_eq in E. contradiction.
Qed.

End MapRoleFacts.

(** ** The further theorems at concrete inputs *)

Lemma completed_state_consistent : consistent completed_state.
Proof.
  split; cbn.
  - intros u t r H. apply lookup_singleton_Some in H as [E <-].
    injection E as <- <-. split; reflexivity.
  - intros k r H _. apply lookup_singleton_Some in H as [_ <-].
    eexists. reflexivity.
  - intros uid tid. simpl. lia.
  - intros c Hc. apply elem_of_nil in Hc. contradiction.
Qed.

Lemma initial_files_wellformed : acks_wellformed initial_files.
Proof.
  split.
  - intros k a H. cbn in H. rewrite lookup_nil in H. discriminate.
  - intros j k a b H. cbn in H. rewrite lookup_nil in H. discriminate.
  - intros a H. cbn in H. apply elem_of_nil in H. contradiction.
Qed.

Lemma initial_files_consecutive : consecutive (files initial_files).
Proof.
  intros k f H. destruct k as [|[|[|k]]]; cbn in H;
    try (injection H as <-; reflexivity).
  discriminate H.
Qed.

(** Uniqueness of certificates over the run of u1 on the seeded course. *)
Lemma certificates_stay_unique_witness :
  consistent (fresh_state seeded_catalogue)
  ∧ one_certificate_per_pair
      (certificates
         (serve (fun _ => "") (fresh_state seeded_catalogue) training_requests)).
Proof.
  split; [apply fresh_state_consistent|].
  exact (certificates_stay_unique (fun _ => "") (fresh_state seeded_catalogue)
           training_requests (fresh_state_consistent seeded_catalogue)).
Defined.

(** The same run: the certificate it issues is backed by the completed
    record. *)
Lemma certificates_stay_backed_witness :
  consistent (fresh_state seeded_catalogue)
  ∧ (let s' := serve (fun _ => "") (fresh_state seeded_catalogue)
                 training_requests in
     certificates_backed (progresses s') (certificates s')
     ∧ completed_dated (progresses s')).
Proof.
  split; [apply fresh_state_consistent|].
  exact (certificates_stay_backed (fun _ => "") (fresh_state seeded_catalogue)
           training_requests (fresh_state_consistent seeded_catalogue)).
Defined.

(** A completed record of u1 through a lower progress report, a video
    report, a start and the deletion of another training. *)
Lemma completion_is_permanent_witness :
  consistent completed_state
  ∧ progresses completed_state !! ("u1", "t1") = Some completed_record
  ∧ status completed_record = completed
  ∧ Forall (fun req => req ≠ DeleteTraining "t1") later_requests
  ∧ ∃ r',
      progresses (serve (fun _ => "") completed_state later_requests)
        !! ("u1", "t1") = Some r'
      ∧ status r' = completed ∧ is_Some (completedAt r').
Proof.
  assert (H1 : progresses completed_state !! ("u1", "t1") = Some completed_record)
    by apply lookup_singleton_eq.
  assert (H2 : Forall (fun req => req ≠ DeleteTraining "t1") later_requests)
    by (repeat constructor; congruence).
  split; [exact completed_state_consistent|]. split; [exact H1|].
  split; [reflexivity|]. split; [exact H2|].
  exact (completion_is_permanent (fun _ => "") completed_state later_requests
           "u1" "t1" completed_record completed_state_consistent H1 eq_refl H2).
Defined.

(** The first start of the seeded course by u1, and a second one. *)
Lemma start_is_not_repeatable_witness :
  post_start 1 "u1" "t1" seeded_catalogue ∅
  = (Ok tt, <[("u1", "t1") := new_progress 1 "u1" "t1"]> ∅)
  ∧ (∃ r, (<[("u1", "t1") := new_progress 1 "u1" "t1"]> ∅ : ProgressStore)
            !! ("u1", "t1") = Some r
          ∧ status r = in_progress ∧ progress r = 0%float
          ∧ startedAt r = Some 1%Z)
  ∧ (∀ k, k ≠ ("u1", "t1") →
       (<[("u1", "t1") := new_progress 1 "u1" "t1"]> ∅ : ProgressStore) !! k
       = (∅ : ProgressStore) !! k)
  ∧ post_start 2 "u1" "t1" seeded_catalogue
      (<[("u1", "t1") := new_progress 1 "u1" "t1"]> ∅)
    = (Failure 400 "Training already started or completed",
       <[("u1", "t1") := new_progress 1 "u1" "t1"]> ∅).
Proof.
  assert (H : post_start 1 "u1" "t1" seeded_catalogue ∅
              = (Ok tt, <[("u1", "t1") := new_progress 1 "u1" "t1"]> ∅)).
  { unfold post_start, seeded_catalogue.
    rewrite lookup_singleton_eq, lookup_empty. reflexivity. }
  split; [exact H|].
  exact (start_is_not_repeatable 1 2 "u1" "t1" seeded_catalogue ∅ _ H).
Defined.

(** The deletion of the seeded course with one record and one
    certificate. *)
Lemma delete_training_cascades_witness :
  seeded_catalogue !! "t1" = Some data_protection
  ∧ ∃ T' P' C',
      delete_training "t1" seeded_catalogue
        {[("u1", "t1") := completed_record]} [revoked_certificate]
      = (Ok tt, T', P', C')
      ∧ T' !! "t1" = None
      ∧ (∀ t', t' ≠ "t1" → T' !! t' = seeded_catalogue !! t')
      ∧ (∀ k r, P' !! k = Some r
                ↔ ({[("u1", "t1") := completed_record]} : ProgressStore) !! k
                  = Some r ∧ trainingId r ≠ "t1")
      ∧ (∀ c, c ∈ C' ↔ c ∈ [revoked_certificate] ∧ cert_trainingId c ≠ "t1").
Proof.
  assert (H : seeded_catalogue !! "t1" = Some data_protection)
    by apply lookup_singleton_eq.
  split; [exact H|].
  exact (delete_training_cascades "t1" seeded_catalogue
           {[("u1", "t1") := completed_record]} [revoked_certificate]
           data_protection H).
Defined.

(** A progress report of 150 on a fresh record of the seeded quiz course,
    followed by a certificate request. *)
Lemma progress_report_unlocks_certificate_witness :
  ({[("u1", "t1") := new_progress 0 "u1" "t1"]} : ProgressStore)
    !! (user_id finance_employee, "t1") = Some (new_progress 0 "u1" "t1")
  ∧ JS.le 100 150
  ∧ seeded_catalogue !! "t1" = Some data_protection
  ∧ find_certificate (user_id finance_employee) "t1" [] = None
  ∧ ∃ r1 P1 c P2,
      put_progress 9 (user_id finance_employee) "t1" 150
        {[("u1", "t1") := new_progress 0 "u1" "t1"]}
      = (Ok r1, P1)
      ∧ status r1 = completed
      ∧ quizPassed r1 = quizPassed (new_progress 0 "u1" "t1")
      ∧ bestScore r1 = bestScore (new_progress 0 "u1" "t1")
      ∧ post_certificate first_env finance_employee "t1" seeded_catalogue P1 []
        = (Ok (ref_of c), P2, [c])
      ∧ completionDate c = Some 9%Z
      ∧ cert_score c = JS.or_else (bestScore (new_progress 0 "u1" "t1")) 0
      ∧ cert_passingScore c = passingScore_or_zero data_protection
      ∧ isValid c = true.
Proof.
  assert (H1 : ({[("u1", "t1") := new_progress 0 "u1" "t1"]} : ProgressStore)
                 !! (user_id finance_employee, "t1")
               = Some (new_progress 0 "u1" "t1"))
    by apply lookup_singleton_eq.
  assert (H3 : seeded_catalogue !! "t1" = Some data_protection)
    by apply lookup_singleton_eq.
  split; [exact H1|]. split; [reflexivity|]. split; [exact H3|].
  split; [reflexivity|].
  exact (progress_report_unlocks_certificate first_env finance_employee "t1" 9
           150 seeded_catalogue {[("u1", "t1") := new_progress 0 "u1" "t1"]} []
           (new_progress 0 "u1" "t1") data_protection H1 eq_refl H3 eq_refl).
Defined.

(** A report of 50 of 100 seconds is stored with progress 50; a report of
    -10 of 100 seconds is refused. *)
Lemma unflagged_video_report_never_completes_witness :
  (let r0 := video_document 7 "u1" "t1" ∅ in
   is_nan 50 = false
   ∧ (JS.gt 100 0 = true → JS.le 0 (50 / 100 * 100)%float)
   ∧ ∃ r',
       video_progress 7 "u1" "t1" 50 100 false seeded_catalogue ∅
       = (Ok r', <[("u1", "t1") := r']> ∅)
       ∧ status r' = status r0 ∧ completedAt r' = completedAt r0
       ∧ videoWatchTime r' = 50%float ∧ videoCompleted r' = false
       ∧ (JS.gt 100 0 = true →
          progress r' = JS.Math_min 95 (50 / 100 * 100)%float
          ∧ JS.le 0 (progress r') ∧ JS.le (progress r') 95)
       ∧ (JS.gt 100 0 = false → progress r' = progress r0))
  ∧ (is_nan (-10) = true
     ∨ (JS.gt 100 0 = true ∧ (0 <=? -10 / 100 * 100)%float = false))
  ∧ video_progress 7 "u1" "t1" (-10) 100 false seeded_catalogue ∅
    = (Failure 500 "Server error", ∅).
Proof.
  assert (H1 : is_nan 50 = false) by reflexivity.
  assert (H2 : JS.gt 100 0 = true → JS.le 0 (50 / 100 * 100)%float)
    by (intros _; reflexivity).
  assert (H3 : is_nan (-10) = true
               ∨ (JS.gt 100 0 = true ∧ (0 <=? -10 / 100 * 100)%float = false))
    by (right; split; reflexivity).
  split; [|split; [exact H3|]].
  - intros r0. split; [exact H1|]. split; [exact H2|].
    exact (proj1 (proj2 (unflagged_video_report_never_completes 7 "u1" "t1"
                           50 100 seeded_catalogue ∅)) H1 H2).
  - exact (proj2 (proj2 (unflagged_video_report_never_completes 7 "u1" "t1"
                           (-10) 100 seeded_catalogue ∅)) H3).
Defined.

(** Video reports for a training id that the catalogue does not have. *)
Lemma video_report_for_unknown_training_witness :
  seeded_catalogue !! "t9" = None
  ∧ is_nan 95 = false
  ∧ (JS.gt 100 0 = true → JS.le 0 (95 / 100 * 100)%float)
  ∧ video_progress 7 "u1" "t9" 95 100 true seeded_catalogue ∅
    = (Failure 500 "Server error", ∅)
  ∧ ∃ r',
      video_progress 7 "u1" "t9" 95 100 false seeded_catalogue ∅
      = (Ok r', <[("u1", "t9") := r']> ∅)
      ∧ ((∅ : ProgressStore) !! ("u1", "t9") = None →
         userId r' = "u1" ∧ trainingId r' = "t9" ∧ status r' = in_progress
         ∧ startedAt r' = Some 7%Z ∧ completedAt r' = None).
Proof.
  assert (H : seeded_catalogue !! "t9" = None).
  { apply lookup_singleton_ne. discriminate. }
  assert (H1 : is_nan 95 = false) by reflexivity.
  assert (H2 : JS.gt 100 0 = true → JS.le 0 (95 / 100 * 100)%float)
    by (intros _; reflexivity).
  split; [exact H|]. split; [exact H1|]. split; [exact H2|].
  split.
  - exact (proj1 (video_report_for_unknown_training 7 "u1" "t9" 95 100
                    seeded_catalogue ∅ H)).
  - exact (proj2 (video_report_for_unknown_training 7 "u1" "t9" 95 100
                    seeded_catalogue ∅ H) H1 H2).
Defined.

(** The two audience checks on the seeded course for everybody. *)
Lemma hasAccess_agrees_with_isAudience_witness :
  hasAccess data_protection finance_employee = Some true
  ∧ isAudience data_protection finance_employee = true.
Proof.
  split; [reflexivity|].
  exact (hasAccess_agrees_with_isAudience data_protection finance_employee true
           eq_refl).
Defined.

(** A certificate request of u1 whose certificate has been invalidated. *)
Lemma invalid_certificate_is_returned_not_replaced_witness :
  ({[("u1", "t1") := completed_record]} : ProgressStore)
    !! (user_id finance_employee, "t1") = Some completed_record
  ∧ status completed_record = completed
  ∧ find_certificate (user_id finance_employee) "t1" [revoked_certificate]
    = Some revoked_certificate
  ∧ isValid revoked_certificate = false
  ∧ post_certificate first_env finance_employee "t1" seeded_catalogue
      {[("u1", "t1") := completed_record]} [revoked_certificate]
    = (Ok (ref_of revoked_certificate),
       {[("u1", "t1") := completed_record]}, [revoked_certificate])
  ∧ ¬ (revoked_certificate
       ∈ findUserCertificates (user_id finance_employee) [revoked_certificate])
  ∧ ¬ (revoked_certificate
       ∈ findTrainingCertificates "t1" [revoked_certificate]).
Proof.
  assert (H1 : ({[("u1", "t1") := completed_record]} : ProgressStore)
                 !! (user_id finance_employee, "t1") = Some completed_record)
    by apply lookup_singleton_eq.
  split; [exact H1|]. split; [reflexivity|]. split; [reflexivity|].
  split; [reflexivity|].
  exact (invalid_certificate_is_returned_not_replaced first_env finance_employee
           "t1" seeded_catalogue {[("u1", "t1") := completed_record]}
           [revoked_certificate] completed_record revoked_certificate
           H1 eq_refl eq_refl eq_refl).
Defined.

(** A failed and then a passed submission on a fresh record. *)
Lemma attempt_run_appends_in_order_witness :
  quizAttempts (new_progress 0 "u1" "t1") = AttemptList []
  ∧ numbered []
  ∧ ∃ r' l',
      attempt_run (new_progress 0 "u1" "t1") two_submissions = Some r'
      ∧ quizAttempts r' = AttemptList ([] ++ l')
      ∧ map (fun a => (submittedAt a, answers a, score a, passed a, timeSpent a))
          l' = two_submissions
      ∧ numbered ([] ++ l')
      ∧ attemptCount r'
        = (attemptCount (new_progress 0 "u1" "t1") + length two_submissions)%nat
      ∧ (Exists (fun sub => sub.1.2 = true) two_submissions →
         quizPassed r' = true ∧ status r' = completed)
      ∧ (Forall (fun sub => sub.1.2 = false) two_submissions →
         quizPassed r' = quizPassed (new_progress 0 "u1" "t1")
         ∧ status r' = status (new_progress 0 "u1" "t1")).
Proof.
  assert (H : numbered []).
  { intros i a Hi. rewrite lookup_nil in Hi. discriminate. }
  split; [reflexivity|]. split; [exact H|].
  exact (attempt_run_appends_in_order (new_progress 0 "u1" "t1") []
           two_submissions eq_refl H).
Defined.

(** Reports of 80 and then 10 of 100 seconds through the model method. *)
Lemma model_video_reports_never_lower_witness :
  is_nan (videoWatchTime (new_progress 0 "u1" "t1")) = false
  ∧ is_nan (progress (new_progress 0 "u1" "t1")) = false
  ∧ Forall clean_report [(80%float, 100%float)]
  ∧ Forall clean_report [(10%float, 100%float)]
  ∧ (let r1 := replay 4 (new_progress 0 "u1" "t1") [(80%float, 100%float)] in
     let r2 := replay 4 (new_progress 0 "u1" "t1")
                 ([(80%float, 100%float)] ++ [(10%float, 100%float)]) in
     JS.le (videoWatchTime (new_progress 0 "u1" "t1")) (videoWatchTime r1)
     ∧ JS.le (videoWatchTime r1) (videoWatchTime r2)
     ∧ JS.le (progress (new_progress 0 "u1" "t1")) (progress r1)
     ∧ JS.le (progress r1) (progress r2)).
Proof.
  assert (H1 : Forall clean_report [(80%float, 100%float)])
    by (repeat constructor).
  assert (H2 : Forall clean_report [(10%float, 100%float)])
    by (repeat constructor).
  split; [reflexivity|]. split; [reflexivity|]. split; [exact H1|].
  split; [exact H2|].
  exact (model_video_reports_never_lower 4 [(80%float, 100%float)]
           [(10%float, 100%float)] (new_progress 0 "u1" "t1")
           eq_refl eq_refl H1 H2).
Defined.

(** The acknowledgment array after the requests of u1 and u2. *)
Lemma acknowledged_once_over_runs_witness :
  acks_wellformed initial_files
  ∧ (let st' := files_serve initial_files file_requests in
     ack_once (acknowledgments st')
     ∧ ack_numbered (acknowledgments st')
     ∧ (∀ u, NoDup (map ack_fileId (my_acknowledgments u st')))
     ∧ (∀ i, NoDup (map ack_userId (file_acknowledgments i st')))).
Proof.
  split; [exact initial_files_wellformed|].
  exact (acknowledged_once_over_runs initial_files file_requests
           initial_files_wellformed).
Defined.

Lemma acknowledged_only_after_view_witness :
  acks_wellformed initial_files
  ∧ ack_viewed (files_serve initial_files file_requests).
Proof.
  split; [exact initial_files_wellformed|].
  exact (acknowledged_only_after_view initial_files file_requests
           initial_files_wellformed).
Defined.

(** The view start of u1 for file 3 through the later requests. *)
Lemma first_view_time_is_kept_witness :
  ackViewStarts viewed_files !! view_key "u1" 3 = Some 1000%float
  ∧ ackViewStarts (files_serve viewed_files file_requests) !! view_key "u1" 3
    = Some 1000%float.
Proof.
  assert (H : ackViewStarts viewed_files !! view_key "u1" 3 = Some 1000%float)
    by (vm_compute; reflexivity).
  split; [exact H|].
  exact (first_view_time_is_kept viewed_files file_requests (view_key "u1" 3)
           1000 H).
Defined.

(** The acknowledgment of file 3 by u1 after the view. *)
Lemma acknowledge_needs_view_and_delay_witness :
  acknowledge 2000 "u1" "amira" (Some 3%Z) viewed_files
  = (200%nat, AckDone first_ack, acknowledged_files)
  ∧ ∃ file viewMs,
      find_file (Some 3%Z) (files viewed_files) = Some file
      ∧ ackViewStarts viewed_files !! view_key "u1" 3 = Some viewMs
      ∧ find_ack "u1" 3 (acknowledgments viewed_files) = None
      ∧ (let unlockAtMs := (viewMs + configuredDelayMs file)%float in
         is_finite unlockAtMs = true → valid_time unlockAtMs = true →
         JS.lt 2000 unlockAtMs = false
         ∧ (is_nan 2000 = false → JS.le unlockAtMs 2000))
      ∧ acknowledgments acknowledged_files
        = (acknowledgments viewed_files ++ [first_ack])%list
      ∧ files acknowledged_files = files viewed_files
      ∧ ackViewStarts acknowledged_files = ackViewStarts viewed_files
      ∧ ack_userId first_ack = "u1" ∧ ack_fileId first_ack = 3%Z
      ∧ fileName first_ack = originalName file.
Proof.
  assert (H : acknowledge 2000 "u1" "amira" (Some 3%Z) viewed_files
              = (200%nat, AckDone first_ack, acknowledged_files))
    by (vm_compute; reflexivity).
  split; [exact H|].
  exact (acknowledge_needs_view_and_delay 2000 "u1" "amira" 3 viewed_files
           200 first_ack acknowledged_files H).
Defined.

(** A file with a delay of 10 minutes, viewed by u1 at time 1000: requests
    to acknowledge it at times 2000 and 700000. *)
Lemma acknowledgments_respect_delay_witness :
  ack_timely (delayed_files 10)
  ∧ Forall (fun req => ∀ i, req ≠ DeleteFile i) delayed_requests
  ∧ ack_timely (files_serve (delayed_files 10) delayed_requests).
Proof.
  assert (H1 : ack_timely (delayed_files 10)).
  { intros a Ha. cbn in Ha. apply elem_of_nil in Ha. contradiction. }
  assert (H2 : Forall (fun req => ∀ i, req ≠ DeleteFile i) delayed_requests)
    by (repeat constructor; congruence).
  split; [exact H1|]. split; [exact H2|].
  exact (acknowledgments_respect_delay (delayed_files 10) delayed_requests
           H1 H2).
Defined.

(** A file with a delay of 10^12 minutes, viewed by u1 at time 1000. *)
Lemma oversized_delay_opens_gate_witness :
  find_file (Some 1%Z) (files (delayed_files 1000000000000))
  = Some {| file_id := 1; originalName := "Code of Conduct.pdf";
            ackDelayMinutes := Some 1000000000000%float |}
  ∧ ackViewStarts (delayed_files 1000000000000) !! view_key "u1" 1
    = Some 1000%float
  ∧ find_ack "u1" 1 (acknowledgments (delayed_files 1000000000000)) = None
  ∧ is_finite (1000 + 1000000000000 * 60 * 1000)%float = true
  ∧ JS.lt 2000 (1000 + 1000000000000 * 60 * 1000)%float = true
  ∧ valid_time (1000 + 1000000000000 * 60 * 1000)%float = false
  ∧ ∃ a st',
      acknowledge 2000 "u1" "amira" (Some 1%Z) (delayed_files 1000000000000)
      = (403%nat, AckDone a, st')
      ∧ acknowledgments st'
        = (acknowledgments (delayed_files 1000000000000) ++ [a])%list
      ∧ ack_userId a = "u1" ∧ ack_fileId a = 1%Z.
Proof.
  assert (H : ackViewStarts (delayed_files 1000000000000) !! view_key "u1" 1
              = Some 1000%float) by apply lookup_singleton_eq.
  split; [reflexivity|]. split; [exact H|]. split; [reflexivity|].
  split; [reflexivity|]. split; [reflexivity|]. split; [reflexivity|].
  exact (oversized_delay_opens_gate 2000 "u1" "amira" 1
           (delayed_files 1000000000000) _ 1000 eq_refl H eq_refl eq_refl
           eq_refl eq_refl).
Defined.

(** The initial files through a view, an acknowledgment and an upload. *)
Lemma ids_consecutive_without_deletion_witness :
  consecutive (files initial_files)
  ∧ Forall (fun req => ∀ i, req ≠ DeleteFile i) file_requests_without_deletion
  ∧ (let st' := files_serve initial_files file_requests_without_deletion in
     consecutive (files st')
     ∧ ∀ f, f ∈ files st' → find_file (Some (file_id f)) (files st') = Some f).
Proof.
  assert (H : Forall (fun req => ∀ i, req ≠ DeleteFile i)
                file_requests_without_deletion)
    by (repeat constructor; congruence).
  split; [exact initial_files_consecutive|]. split; [exact H|].
  exact (ids_consecutive_without_deletion initial_files
           file_requests_without_deletion initial_files_consecutive H).
Defined.

(** The first of the three initial files is deleted and a file uploaded. *)
Lemma upload_after_delete_reuses_id_witness :
  consecutive (files initial_files)
  ∧ last (files initial_files)
    = Some {| file_id := 3;
              originalName := "Pull API Documentation dubizzle.pdf";
              ackDelayMinutes := None |}
  ∧ (1 ≤ 1 < Z.of_nat (length (files initial_files)))%Z
  ∧ ∃ st1 newFile st2,
      delete_file (Some 1%Z) initial_files = (Ok tt, st1)
      ∧ upload (Some "Travel Policy.pdf") 10 st1 = (Ok newFile, st2)
      ∧ file_id newFile = 3%Z
      ∧ originalName newFile = "Travel Policy.pdf"
      ∧ last (files st2) = Some newFile
      ∧ find_file (Some (file_id newFile)) (files st2)
        = Some {| file_id := 3;
                  originalName := "Pull API Documentation dubizzle.pdf";
                  ackDelayMinutes := None |}.
Proof.
  assert (H : (1 ≤ 1 < Z.of_nat (length (files initial_files)))%Z)
    by (cbn; lia).
  split; [exact initial_files_consecutive|]. split; [reflexivity|].
  split; [exact H|].
  exact (upload_after_delete_reuses_id initial_files 1 "Travel Policy.pdf" 10
           _ initial_files_consecutive eq_refl H).
Defined.

(** File 3, acknowledged by u1, is deleted and a file uploaded. *)
Lemma successor_inherits_acknowledgments_witness :
  consecutive (files acknowledged_files)
  ∧ last (files acknowledged_files)
    = Some {| file_id := 3;
              originalName := "Pull API Documentation dubizzle.pdf";
              ackDelayMinutes := None |}
  ∧ first_ack ∈ acknowledgments acknowledged_files
  ∧ ack_userId first_ack = "u1" ∧ ack_fileId first_ack = 3%Z
  ∧ ∃ st1 newFile st2,
      delete_file (Some 3%Z) acknowledged_files = (Ok tt, st1)
      ∧ upload (Some "Travel Policy.pdf") 10 st1 = (Ok newFile, st2)
      ∧ file_id newFile = 3%Z
      ∧ find_file (Some 3%Z) (files st2) = Some newFile
      ∧ acknowledgments st2 = acknowledgments acknowledged_files
      ∧ ackViewStarts st2 = ackViewStarts acknowledged_files
      ∧ ∀ (now : float) (username : string),
          ∃ code error remaining,
            acknowledge now "u1" username (Some 3%Z) st2
            = (code, AckError error remaining, st2).
Proof.
  assert (H1 : consecutive (files acknowledged_files))
    by exact initial_files_consecutive.
  assert (H3 : first_ack ∈ acknowledgments acknowledged_files)
    by apply list_elem_of_here.
  split; [exact H1|]. split; [reflexivity|]. split; [exact H3|].
  split; [reflexivity|]. split; [reflexivity|].
  exact (successor_inherits_acknowledgments acknowledged_files
           "Travel Policy.pdf" 10 _ "u1" first_ack H1 eq_refl H3 eq_refl
           eq_refl).
Defined.

(** User u2 never views file 3 in the run. *)
Lemma no_view_no_acknowledgment_witness :
  acks_wellformed initial_files
  ∧ ackViewStarts initial_files !! view_key "u2" 3 = None
  ∧ Forall (fun req => ∀ now, req ≠ View now "u2" (Some 3%Z)) file_requests
  ∧ (let st' := files_serve initial_files file_requests in
     ackViewStarts st' !! view_key "u2" 3 = None
     ∧ ∀ a, a ∈ acknowledgments st' →
            ¬ (ack_userId a = "u2" ∧ ack_fileId a = 3%Z)).
Proof.
  assert (H2 : ackViewStarts initial_files !! view_key "u2" 3 = None)
    by apply lookup_empty.
  assert (H3 : Forall (fun req => ∀ now, req ≠ View now "u2" (Some 3%Z))
                 file_requests)
    by (repeat constructor; congruence).
  split; [exact initial_files_wellformed|]. split; [exact H2|].
  split; [exact H3|].
  exact (no_view_no_acknowledgment initial_files file_requests "u2" 3
           initial_files_wellformed H2 H3).
Defined.

(** Five bytes in chunks of two, the first chunk answered with 201 and an
    item, the other two with 202. *)
Lemma uploadLargeFile_sends_the_buffer_in_chunks_witness :
  (1 ≤ 2)%nat
  ∧ (∀ k, accepted (early_service k).1 = true)
  ∧ (length five_bytes < 6)%nat
  ∧ ∃ item sent,
      uploadLargeFile string early_service (Some "item of the GET") 6
        five_bytes 2
      = Some (Returned item, sent)
      ∧ concat (map chunk sent) = five_bytes
      ∧ Forall (fun r => (1 ≤ length (chunk r) ≤ 2)%nat
                         ∧ range_end r = (range_start r + length (chunk r))%nat
                         ∧ range_total r = length five_bytes) sent
      ∧ chained 0 sent (length five_bytes)
      ∧ length sent = ((length five_bytes + 2 - 1) / 2)%nat
      ∧ item = from_option Some (Some "item of the GET")
                 (last_item string early_service (length sent))
      ∧ ((∀ k, (early_service k).1 = 202%nat) → item = Some "item of the GET")
      ∧ (sent ≠ [] → (early_service (length sent - 1)).1 ≠ 202%nat →
         item = from_option Some (Some "item of the GET")
                  (early_service (length sent - 1)).2).
Proof.
  assert (H1 : (1 ≤ 2)%nat) by lia.
  assert (H2 : ∀ k, accepted (early_service k).1 = true).
  { intros k. unfold early_service. destruct (k =? 0)%nat; reflexivity. }
  assert (H3 : (length five_bytes < 6)%nat) by (cbn; lia).
  split; [exact H1|]. split; [exact H2|]. split; [exact H3|].
  exact (uploadLargeFile_sends_the_buffer_in_chunks string early_service
           (Some "item of the GET") 6 five_bytes 2 H1 H2 H3).
Defined.

(** On that run the item of the first answer is returned, not the item of
    the finalization GET. *)
Lemma uploadLargeFile_keeps_early_item :
  ∃ sent,
    uploadLargeFile string early_service (Some "item of the GET") 6
      five_bytes 2
    = Some (Returned (Some "item of the first answer"), sent)
    ∧ length sent = 3%nat
    ∧ last_item string early_service 3 = Some "item of the first answer".
Proof. eexists. split; [vm_compute; reflexivity|]. split; reflexivity. Qed.

(** Five bytes with a chunk size of zero. *)
Lemma uploadLargeFile_zero_chunk_never_returns_witness :
  five_bytes ≠ []
  ∧ (∀ k, accepted (completing_service k).1 = true)
  ∧ uploadLargeFile unit completing_service (Some tt) 1000 five_bytes 0 = None.
Proof.
  assert (H1 : five_bytes ≠ []) by discriminate.
  assert (H2 : ∀ k, accepted (completing_service k).1 = true).
  { intros k. unfold completing_service. destruct (k =? 2)%nat; reflexivity. }
  split; [exact H1|]. split; [exact H2|].
  exact (uploadLargeFile_zero_chunk_never_returns unit completing_service
           (Some tt) 1000 five_bytes H1 H2).
Defined.

(** Five bytes in chunks of two against a service that answers 503. *)
Lemma uploadLargeFile_stops_at_refused_chunk_witness :
  (0 * 2 < length five_bytes)%nat
  ∧ (0 < 6)%nat
  ∧ (∀ j, (j < 0)%nat → accepted (refusing_service j).1 = true)
  ∧ accepted (refusing_service 0).1 = false
  ∧ ∃ sent,
      uploadLargeFile unit refusing_service None 6 five_bytes 2
      = Some (Thrown (refusing_service 0).1, sent)
      ∧ length sent = 1%nat.
Proof.
  assert (H1 : (0 * 2 < length five_bytes)%nat) by (cbn; lia).
  assert (H2 : (0 < 6)%nat) by lia.
  assert (H3 : ∀ j, (j < 0)%nat → accepted (refusing_service j).1 = true)
    by (intros j Hj; lia).
  split; [exact H1|]. split; [exact H2|]. split; [exact H3|].
  split; [reflexivity|].
  exact (uploadLargeFile_stops_at_refused_chunk unit refusing_service None 6
           five_bytes 2 0 H1 H2 H3 eq_refl).
Defined.
